(** * unostat: delta engine, time-series store, export sink, collection manager

    A shallow embedding of the Go packages [pkg/metrics], [internal/server]
    (csvdata.go), [internal/exporter] and [internal/collector] (manager.go),
    with the properties their specification states.

    Conventions.
    - Go [float64] is IEEE 754 binary64.  The delta engine is written once
      over an interface [Float64] of the operations it uses and is read at
      two instances: [ieee] (the kernel's binary64 numbers, bit for bit what
      the Go program computes) and [rational] (the same code without
      rounding).
    - Go [uint64] is a [Z] reduced modulo [2^64] after every operation; Go
      [int]/[int64] is a [Z] wrapped into the signed 64-bit range.
    - Go maps are [gmap]s, slices are [list]s. *)

From Stdlib Require Import ZArith QArith Qround Lqa Floats Lia Bool Ascii String.
From stdpp Require Import base option list gmap strings pretty sorting.

Close Scope Q_scope.
Local Open Scope Z_scope.

(** ** Machine integers *)

Definition wrap_uint64 (z : Z) : Z := z mod 2 ^ 64.

Definition wrap_int64 (z : Z) : Z := (z + 2 ^ 63) mod 2 ^ 64 - 2 ^ 63.

Definition is_uint64 (z : Z) : Prop := 0 <= z < 2 ^ 64.

Definition is_int64 (z : Z) : Prop := - 2 ^ 63 <= z < 2 ^ 63.

(** ** time.Time and time.Duration

    A [Time] carries its wall-clock instant, in nanoseconds since the zero
    instant (January 1, year 1, 00:00:00 UTC), and the monotonic clock
    reading [time.Now] attaches.  [IsZero] looks at the wall clock only;
    [Sub] prefers the monotonic readings when both operands have one and
    saturates at the ends of the [int64] range. *)

Record Time : Type := mkTime { wall_ns : Z; mono_ns : option Z }.

Definition zeroTime : Time := mkTime 0 None.

Definition IsZero (t : Time) : bool := wall_ns t =? 0.

Definition minDuration : Z := - 2 ^ 63.
Definition maxDuration : Z := 2 ^ 63 - 1.

Definition saturate (d : Z) : Z :=
  if d <? minDuration then minDuration
  else if maxDuration <? d then maxDuration
  else d.

Definition Sub (t u : Time) : Z :=
  match mono_ns t, mono_ns u with
  | Some a, Some b => saturate (a - b)
  | _, _ => saturate (wall_ns t - wall_ns u)
  end.

(** [Duration.Milliseconds]: integer division truncating toward zero. *)
Definition Milliseconds (d : Z) : Z := Z.quot d 1000000.

(** Seconds between the zero instant and the Unix epoch. *)
Definition unixToInternal : Z := 62135596800.

(** [Time.Unix]: whole seconds since the epoch, rounding down. *)
Definition Unix (t : Time) : Z := wall_ns t / 1000000000 - unixToInternal.

(** [time.Unix(sec, 0)]. *)
Definition timeUnix (sec : Z) : Time :=
  mkTime ((sec + unixToInternal) * 1000000000) None.

(** ** The arithmetic the delta engine uses *)

Class Float64 (F : Type) : Type := {
  fadd : F -> F -> F;
  fsub : F -> F -> F;
  fmul : F -> F -> F;
  fdiv : F -> F -> F;
  fle : F -> F -> bool;
  flt : F -> F -> bool;
  (** conversion [float64(n)] of an integer; also the integer literals *)
  of_Z : Z -> F
}.

Declare Scope f64_scope.
Delimit Scope f64_scope with f64.
Infix "+" := fadd : f64_scope.
Infix "-" := fsub : f64_scope.
Infix "*" := fmul : f64_scope.
Infix "/" := fdiv : f64_scope.
Infix "<=?" := fle : f64_scope.
Infix "<?" := flt : f64_scope.

(** Conversion of an integer to binary64, rounding to nearest, ties to
    even, as Go's [float64(n)] does. *)
Definition float64_of_Z (z : Z) : float :=
  SF2Prim (binary_normalize prec emax z 0 false).

(** Go's [int(x)] on a [float64]: the fraction is discarded.  NaN and the
    infinities have no defined result; the amd64 answer is used. *)
Definition int_of_float64 (x : float) : Z :=
  match Prim2SF x with
  | S754_zero _ => 0
  | S754_finite s m e =>
      let v := if 0 <=? e then Z.pos m * 2 ^ e else Z.pos m / 2 ^ (- e) in
      wrap_int64 (if s then - v else v)
  | _ => - 2 ^ 63
  end.

#[export] Instance ieee : Float64 float := {|
  fadd := PrimFloat.add;
  fsub := PrimFloat.sub;
  fmul := PrimFloat.mul;
  fdiv := PrimFloat.div;
  fle := PrimFloat.leb;
  flt := PrimFloat.ltb;
  of_Z := float64_of_Z
|}.


(** ** pkg/metrics: types.go and calculator.go *)

Module Metrics.

Section DeltaEngine.

Context {F : Type} `{Float64 F}.

Record CPUTimeStats : Type := mkCPU {
  User : F;
  System : F;
  Idle : F;
  IOWait : F;
  Irq : F;
  SoftIrq : F;
  Steal : F;
  Guest : F;
  GuestNice : F;
  cpuTimestamp : Time
}.

Record DiskIOStats : Type := mkDisk {
  ReadCount : Z;
  WriteCount : Z;
  ReadTime : Z;
  WriteTime : Z;
  IOTime : Z;
  diskTimestamp : Time
}.

Record NetworkIOStats : Type := mkNet {
  BytesSent : Z;
  BytesRecv : Z;
  netTimestamp : Time
}.

(** [Duration.Seconds]. *)
Definition Seconds (d : Z) : F :=
  (of_Z (Z.quot d 1000000000) + of_Z (Z.rem d 1000000000) / of_Z 1000000000)%f64.

(** The sum both CPU functions call the total: seven buckets, the two
    guest buckets left out. *)
Definition cpuTotal (s : CPUTimeStats) : F :=
  (User s + System s + Idle s + IOWait s + Irq s + SoftIrq s + Steal s)%f64.

Definition CalculateCPUUtilization (prev current : CPUTimeStats) : F :=
  if IsZero (cpuTimestamp prev) then of_Z 0
  else
    let prevTotal := cpuTotal prev in
    let currentTotal := cpuTotal current in
    let deltaTotal := (currentTotal - prevTotal)%f64 in
    let deltaIdle := (Idle current - Idle prev)%f64 in
    if (deltaTotal <=? of_Z 0)%f64 then of_Z 0
    else (of_Z 100 * (of_Z 1 - deltaIdle / deltaTotal))%f64.

Definition CalculateCPUIOWait (prev current : CPUTimeStats) : F :=
  if IsZero (cpuTimestamp prev) then of_Z (-1)
  else if (IOWait current <? of_Z 0)%f64 then of_Z (-1)
  else
    let prevTotal := cpuTotal prev in
    let currentTotal := cpuTotal current in
    let deltaTotal := (currentTotal - prevTotal)%f64 in
    let deltaIOWait := (IOWait current - IOWait prev)%f64 in
    if (deltaTotal <=? of_Z 0)%f64 then of_Z 0
    else (of_Z 100 * (deltaIOWait / deltaTotal))%f64.

Definition CalculateDiskUtilization (prev current : DiskIOStats) : F :=
  if IsZero (diskTimestamp prev) then of_Z 0
  else
    let deltaTime := Milliseconds (Sub (diskTimestamp current) (diskTimestamp prev)) in
    if deltaTime <=? 0 then of_Z 0
    else
      let deltaIOTime := of_Z (wrap_uint64 (IOTime current - IOTime prev)) in
      let utilization := (deltaIOTime / of_Z deltaTime * of_Z 100)%f64 in
      if (of_Z 100 <? utilization)%f64 then of_Z 100 else utilization.

Definition CalculateDiskAwait (prev current : DiskIOStats) : F :=
  if IsZero (diskTimestamp prev) then of_Z 0
  else
    let deltaReadCount := wrap_uint64 (ReadCount current - ReadCount prev) in
    let deltaWriteCount := wrap_uint64 (WriteCount current - WriteCount prev) in
    let totalOps := wrap_uint64 (deltaReadCount + deltaWriteCount) in
    if totalOps =? 0 then of_Z 0
    else
      let deltaReadTime := wrap_uint64 (ReadTime current - ReadTime prev) in
      let deltaWriteTime := wrap_uint64 (WriteTime current - WriteTime prev) in
      let totalTime := wrap_uint64 (deltaReadTime + deltaWriteTime) in
      (of_Z totalTime / of_Z totalOps)%f64.

Definition CalculateDiskIOPS (prev current : DiskIOStats) : F :=
  if IsZero (diskTimestamp prev) then of_Z 0
  else
    let deltaTime := Seconds (Sub (diskTimestamp current) (diskTimestamp prev)) in
    if (deltaTime <=? of_Z 0)%f64 then of_Z 0
    else
      let deltaReadCount := wrap_uint64 (ReadCount current - ReadCount prev) in
      let deltaWriteCount := wrap_uint64 (WriteCount current - WriteCount prev) in
      let totalOps := wrap_uint64 (deltaReadCount + deltaWriteCount) in
      (of_Z totalOps / deltaTime)%f64.

Definition CalculateNetworkBandwidth (prev current : NetworkIOStats) : F :=
  if IsZero (netTimestamp prev) then of_Z 0
  else
    let deltaTime := Seconds (Sub (netTimestamp current) (netTimestamp prev)) in
    if (deltaTime <=? of_Z 0)%f64 then of_Z 0
    else
      let deltaSent := wrap_uint64 (BytesSent current - BytesSent prev) in
      let deltaRecv := wrap_uint64 (BytesRecv current - BytesRecv prev) in
      let totalBytes := wrap_uint64 (deltaSent + deltaRecv) in
      (of_Z (wrap_uint64 (totalBytes * 8)) / deltaTime)%f64.

End DeltaEngine.

Arguments CPUTimeStats F : clear implicits.
Arguments DiskIOStats : clear implicits.
Arguments NetworkIOStats : clear implicits.

(** The metrics of one disk device and of one network interface. *)
Record DiskStats : Type := mkDiskStats {
  Utilization : float;
  Await : float;
  IOPS : float
}.

Record NetStats : Type := mkNetStats {
  Bandwidth : float
}.

(** A complete snapshot, the unit that travels through the queue. *)
Record Snapshot : Type := mkSnapshot {
  Timestamp : Time;
  CPU : float;
  CPUWait : float;
  Memory : float;
  Disks : gmap string DiskStats;
  Networks : gmap string NetStats
}.

End Metrics.

(** ** internal/server: csvdata.go *)

Module Server.

Definition MaxFileSize : Z := 200 * 1024 * 1024.
Definition MaxFiles : Z := 20.
Definition MaxRowsPerFile : Z := 5000000.

Record CSVFile : Type := mkCSVFile {
  ID : string;
  Name : string;
  Path : string;
  Columns : list string;
  RowCount : Z;
  MinTime : Time;
  MaxTime : Time;
  IsLoaded : bool
}.

Definition setIsLoaded (b : bool) (f : CSVFile) : CSVFile :=
  mkCSVFile (ID f) (Name f) (Path f) (Columns f) (RowCount f) (MinTime f) (MaxTime f) b.

Record DataPoint : Type := mkDataPoint {
  Timestamp : Time;
  Value : float
}.

Record ColumnData : Type := mkColumnData {
  Timestamps : list Z;
  Values : gmap string (list float)
}.

Record CSVDataService : Type := mkService {
  files : gmap string CSVFile;
  columnData : gmap string ColumnData
}.

(** The errors the service builds with [fmt.Errorf]; [ErrProcess] stands for
    the ones [processCSVFile] reports. *)
Inductive error : Type :=
  | ErrMaxFiles
  | ErrMaxLoadedDuringProcessing
  | ErrMaxLoaded
  | ErrFileNotFound (id : string)
  | ErrDataNotFound (id : string)
  | ErrColumnNotFound (name : string)
  | ErrProcess (msg : string).

Definition Error (e : error) : string :=
  match e with
  | ErrMaxFiles =>
      "maximum number of files reached (" +:+ pretty MaxFiles
        +:+ "), please delete some files first"
  | ErrMaxLoadedDuringProcessing =>
      "maximum number of loaded files reached (" +:+ pretty MaxFiles
        +:+ ") during processing"
  | ErrMaxLoaded =>
      "maximum number of loaded files reached (" +:+ pretty MaxFiles +:+ ")"
  | ErrFileNotFound id => "file not found: " +:+ id
  | ErrDataNotFound id => "data not found for file: " +:+ id
  | ErrColumnNotFound name => "column not found: " +:+ name
  | ErrProcess msg => msg
  end.

(** What a call leaves behind: a value, a returned error, or a run-time
    panic (an index out of range). *)
Inductive result (A : Type) : Type :=
  | Ok (a : A)
  | Err (e : error)
  | Panic.
Arguments Ok {A} a.
Arguments Err {A} e.
Arguments Panic {A}.

Definition NewCSVDataService : CSVDataService := mkService ∅ ∅.

(** The loop [for _, f := range s.files { if f.IsLoaded { loadedCount++ } }]. *)
Definition loadedCount (s : CSVDataService) : Z :=
  map_fold (fun _ f n => if IsLoaded f then n + 1 else n) 0 (files s).

Section Ingest.

(** [processCSVFile] reads the file system and runs the CSV, timestamp and
    number parsers of the Go library; the service only looks at whether it
    failed and stores what it returned, so it is taken as given. *)
Variable processCSVFile : string -> string -> string -> error + (ColumnData * CSVFile).

Definition LoadFile (s : CSVDataService) (id name path : string)
  : CSVDataService * option error :=
  if MaxFiles <=? Z.of_nat (size (files s)) then (s, Some ErrMaxFiles)
  else
    match processCSVFile id name path with
    | inl err => (s, Some err)
    | inr (parsedCols, fileMeta) =>
        let fileMeta := setIsLoaded true fileMeta in
        if MaxFiles <=? loadedCount s then (s, Some ErrMaxLoadedDuringProcessing)
        else
          (mkService (<[id := fileMeta]> (files s)) (<[id := parsedCols]> (columnData s)),
           None)
    end.

Definition LoadFileContent (s : CSVDataService) (id : string)
  : CSVDataService * option error :=
  match files s !! id with
  | None => (s, Some (ErrFileNotFound id))
  | Some fileMeta =>
      if IsLoaded fileMeta then (s, None)
      else if MaxFiles <=? loadedCount s then (s, Some ErrMaxLoaded)
      else
        match processCSVFile id (Name fileMeta) (Path fileMeta) with
        | inl err => (s, Some err)
        | inr (parsedCols, newMeta) =>
            let newMeta := setIsLoaded true newMeta in
            (mkService (<[id := newMeta]> (files s)) (<[id := parsedCols]> (columnData s)),
             None)
        end
  end.

End Ingest.

Definition RegisterFile (s : CSVDataService) (id name path : string) : CSVDataService :=
  match files s !! id with
  | Some _ => s
  | None =>
      mkService (<[id := mkCSVFile id name path [] 0 zeroTime zeroTime false]> (files s))
                (columnData s)
  end.

Definition GetFile (s : CSVDataService) (id : string) : option CSVFile := files s !! id.

Definition DeleteFile (s : CSVDataService) (id : string) : CSVDataService * option error :=
  match files s !! id with
  | None => (s, Some (ErrFileNotFound id))
  | Some _ => (mkService (delete id (files s)) (delete id (columnData s)), None)
  end.

Definition DeleteAll (s : CSVDataService) : CSVDataService := mkService ∅ ∅.

(** The store side of [handleDeleteFile]: the error of [DeleteFile] is
    logged and dropped, and the answer is always 204 No Content.  (Removing
    the uploaded file from disk touches neither the store nor the status.) *)
Definition StatusNoContent : Z := 204.

Definition handleDeleteFile (s : CSVDataService) (fileID : string) : CSVDataService * Z :=
  let '(s', _) := DeleteFile s fileID in (s', StatusNoContent).

(** Slice indexing [l[i]]; [None] is the out-of-range panic. *)
Definition index {A : Type} (l : list A) (i : Z) : option A :=
  if i <? 0 then None else l !! Z.to_nat i.

(** [sort.Search]: binary search for the least [i] in [[0, n)] with [f i],
    or [n].  The loop halves [j - i] each round, so [n] rounds of fuel are
    more than it uses. *)
Fixpoint Search_loop (fuel : nat) (i j : Z) (f : Z -> bool) : Z :=
  match fuel with
  | O => i
  | S fuel' =>
      if i <? j then
        let h := wrap_int64 (Z.shiftr (wrap_uint64 (i + j)) 1) in
        if negb (f h) then Search_loop fuel' (h + 1) j f
        else Search_loop fuel' i h f
      else i
  end.

Definition Search (n : Z) (f : Z -> bool) : Z := Search_loop (Z.to_nat n) 0 n f.

Definition maxPoints : Z := 2000.

(** The loop of the branch that returns every point of the range. *)
Fixpoint rawPoints (timestamps : list Z) (values : list float) (idxs : list Z)
  : option (list DataPoint) :=
  match idxs with
  | [] => Some []
  | i :: rest =>
      val ← index values i;
      if PrimFloat.is_nan val then rawPoints timestamps values rest
      else
        t ← index timestamps i;
        dataPoints ← rawPoints timestamps values rest;
        Some (mkDataPoint (timeUnix t) val :: dataPoints)
  end.

(** The inner loop of the downsampling branch: sum and count of the values
    of a bucket that are not NaN. *)
Fixpoint bucketSum (values : list float) (idxs : list Z) (sum : float) (count : Z)
  : option (float * Z) :=
  match idxs with
  | [] => Some (sum, count)
  | j :: rest =>
      val ← index values j;
      if negb (PrimFloat.is_nan val) then bucketSum values rest (sum + val)%float (count + 1)
      else bucketSum values rest sum count
  end.

(** Bounds of bucket [i]; indices stay far below the [int] range, so the
    additions are not wrapped. *)
Definition bucketStart (startIdx : Z) (bucketSize : float) (i : Z) : Z :=
  startIdx + int_of_float64 (float64_of_Z i * bucketSize)%float.

Definition bucketEnd (startIdx endIdx : Z) (bucketSize : float) (i : Z) : Z :=
  let pEnd := startIdx + int_of_float64 (float64_of_Z (i + 1) * bucketSize)%float in
  if endIdx <? pEnd then endIdx else pEnd.

(** The outer loop of the downsampling branch, over the bucket numbers. *)
Fixpoint downsample (timestamps : list Z) (values : list float)
    (startIdx endIdx : Z) (bucketSize : float) (buckets : list Z)
  : option (list DataPoint) :=
  match buckets with
  | [] => Some []
  | i :: rest =>
      let pStart := bucketStart startIdx bucketSize i in
      let pEnd := bucketEnd startIdx endIdx bucketSize i in
      if pEnd <=? pStart then downsample timestamps values startIdx endIdx bucketSize rest
      else
        ts ← index timestamps pStart;
        '(sum, count) ← bucketSum values (seqZ pStart (pEnd - pStart)) 0%float 0;
        dataPoints ← downsample timestamps values startIdx endIdx bucketSize rest;
        if 0 <? count then
          Some (mkDataPoint (timeUnix ts) (sum / float64_of_Z count)%float :: dataPoints)
        else Some dataPoints
  end.

Definition timestampAt (timestamps : list Z) (i : Z) : Z := default 0 (index timestamps i).

Definition startIndex (timestamps : list Z) (timeFrom : option Time) : Z :=
  match timeFrom with
  | None => 0
  | Some t =>
      let target := Unix t in
      Search (Z.of_nat (length timestamps)) (fun i => target <=? timestampAt timestamps i)
  end.

Definition endIndex (timestamps : list Z) (timeTo : option Time) : Z :=
  let endIdx := Z.of_nat (length timestamps) in
  match timeTo with
  | None => endIdx
  | Some t =>
      let target := Unix t in
      let idx := Search (Z.of_nat (length timestamps))
                        (fun i => target <? timestampAt timestamps i) in
      if idx <? endIdx then idx else endIdx
  end.

Definition of_option {A : Type} (o : option A) : result A :=
  match o with Some a => Ok a | None => Panic end.

Definition GetColumnData (s : CSVDataService) (fileID columnName : string)
    (timeFrom timeTo : option Time) : result (list DataPoint) :=
  match columnData s !! fileID with
  | None => Err (ErrDataNotFound fileID)
  | Some colsData =>
      match Values colsData !! columnName with
      | None => Err (ErrColumnNotFound columnName)
      | Some values =>
          let startIdx := startIndex (Timestamps colsData) timeFrom in
          let endIdx := endIndex (Timestamps colsData) timeTo in
          if endIdx <=? startIdx then Ok []
          else
            let totalPoints := endIdx - startIdx in
            if totalPoints <=? maxPoints then
              of_option (rawPoints (Timestamps colsData) values (seqZ startIdx totalPoints))
            else
              let bucketSize := (float64_of_Z totalPoints / float64_of_Z maxPoints)%float in
              of_option (downsample (Timestamps colsData) values startIdx endIdx bucketSize
                                    (seqZ 0 maxPoints))
      end
  end.

End Server.

(** ** internal/exporter: csv.go *)

Module Exporter.

Import Metrics.

Definition DefaultMaxOutputFileSize : Z := 150 * 1024 * 1024.

Definition naString : string := "N/A".

(** The files of the output directory: path to content. *)
Abbreviation FS := (gmap string string).

(** The exporter, without its configuration, logger, ticker and channel.
    [file] is the path behind the open handle; [buffered] holds the bytes
    the CSV writer and the buffered writer under it have accepted and not
    yet handed to the file (the library may hand over a prefix early when a
    buffer fills; nothing here depends on when). *)
Record CSVExporter : Type := mkExporter {
  file : string;
  buffered : string;
  recordCount : Z;
  headerWritten : bool;
  deviceOrder : list string;
  ifaceOrder : list string;
  currentSize : Z;
  basePath : string;
  fileIndex : Z
}.

Definition setBuffered (b : string) (e : CSVExporter) : CSVExporter :=
  mkExporter (file e) b (recordCount e) (headerWritten e) (deviceOrder e) (ifaceOrder e)
             (currentSize e) (basePath e) (fileIndex e).

Definition setHeaderWritten (b : bool) (e : CSVExporter) : CSVExporter :=
  mkExporter (file e) (buffered e) (recordCount e) b (deviceOrder e) (ifaceOrder e)
             (currentSize e) (basePath e) (fileIndex e).

Definition setDeviceOrder (l : list string) (e : CSVExporter) : CSVExporter :=
  mkExporter (file e) (buffered e) (recordCount e) (headerWritten e) l (ifaceOrder e)
             (currentSize e) (basePath e) (fileIndex e).

Definition setIfaceOrder (l : list string) (e : CSVExporter) : CSVExporter :=
  mkExporter (file e) (buffered e) (recordCount e) (headerWritten e) (deviceOrder e) l
             (currentSize e) (basePath e) (fileIndex e).

Definition setCurrentSize (n : Z) (e : CSVExporter) : CSVExporter :=
  mkExporter (file e) (buffered e) (recordCount e) (headerWritten e) (deviceOrder e)
             (ifaceOrder e) n (basePath e) (fileIndex e).

Definition setFileIndex (n : Z) (e : CSVExporter) : CSVExporter :=
  mkExporter (file e) (buffered e) (recordCount e) (headerWritten e) (deviceOrder e)
             (ifaceOrder e) (currentSize e) (basePath e) n.

(** The state after [e.file = file] and the two fresh writers on it. *)
Definition reopen (path : string) (e : CSVExporter) : CSVExporter :=
  mkExporter path "" (recordCount e) (headerWritten e) (deviceOrder e) (ifaceOrder e)
             (currentSize e) (basePath e) (fileIndex e).

(** Which of the operating-system calls of one step fail. *)
Record Faults : Type := mkFaults {
  flushFails : bool;
  closeFails : bool;
  openFails : bool;
  writeFails : bool
}.

Definition noFaults : Faults := mkFaults false false false false.

Inductive error : Type :=
  | ErrFlush
  | ErrFlushBeforeRotate
  | ErrCloseBeforeRotate
  | ErrOpenRotated
  | ErrHeaderRotated
  | ErrWrite
  | ErrWriteHeader
  | ErrWriteRow.

(** [filepath.Ext]: the suffix from the last dot of the last path element.
    The loop walks the path backward; [before] is what is left of it,
    reversed, and [suffix] what it has passed. *)
Fixpoint Ext_loop (before suffix : list ascii) : list ascii :=
  match before with
  | [] => []
  | c :: before' =>
      if Ascii.eqb c "/" then []
      else if Ascii.eqb c "." then c :: suffix
      else Ext_loop before' (c :: suffix)
  end.

Definition Ext (path : string) : string :=
  string_of_list_ascii (Ext_loop (reverse (list_ascii_of_string path)) []).

Definition HasSuffix (s suffix : string) : bool :=
  let n := String.length s in
  let k := String.length suffix in
  (k <=? n)%nat && String.eqb (substring (n - k) k s) suffix.

Definition TrimSuffix (s suffix : string) : string :=
  if HasSuffix s suffix then substring 0 (String.length s - String.length suffix) s
  else s.

(** [fmt.Sprintf("%s_%d%s", base, index, ext)]. *)
Definition rotatedPath (base : string) (index : Z) (ext : string) : string :=
  base +:+ "_" +:+ pretty index +:+ ext.

(** The search loop of [rotateFile].  [os.Stat] reports a missing file
    exactly for the paths outside the file system.  The Go loop has no
    bound; [None] is the loop still running when the fuel is spent. *)
Fixpoint findFreePath (fuel : nat) (fs : FS) (base ext : string) (fileIndex : Z)
  : option (Z * string) :=
  match fuel with
  | O => None
  | S fuel' =>
      let fileIndex := wrap_int64 (fileIndex + 1) in
      let newPath := rotatedPath base fileIndex ext in
      if fs !! newPath is Some _ then findFreePath fuel' fs base ext fileIndex
      else Some (fileIndex, newPath)
  end.

Section Sink.

(** [csv.Writer.Write] of one record, as bytes. *)
Variable csvEncode : list string -> string.
(** [fmt.Sprintf("%.2f", x)]. *)
Variable formatFloat : float -> string.
(** The timestamp in the configured zone, as [2006-01-02 15:04:05]. *)
Variable formatTime : Time -> string.

(** [flush]: what is buffered reaches the file.  A failing flush is taken
    to have written nothing. *)
Definition flush (fl : Faults) (e : CSVExporter) (fs : FS)
  : CSVExporter * FS * option error :=
  if flushFails fl then (e, fs, Some ErrFlush)
  else (setBuffered "" e,
        <[file e := default "" (fs !! file e) +:+ buffered e]> fs,
        None).

Definition csvWrite (fl : Faults) (record : list string) (e : CSVExporter)
  : CSVExporter * option error :=
  if writeFails fl then (e, Some ErrWrite)
  else (setBuffered (buffered e +:+ csvEncode record) e, None).

(** [sort.Strings] over the keys of a map. *)
Definition sortedKeys {A : Type} (m : gmap string A) : list string :=
  merge_sort String.le (map_to_list m).*1.

Definition diskColumns (device : string) : list string :=
  [ "Disk [" +:+ device +:+ "] Utilization (%)";
    "Disk [" +:+ device +:+ "] Average Wait (ms)";
    "Disk [" +:+ device +:+ "] Throughput (IOPS)" ].

Definition networkColumns (iface : string) : list string :=
  [ "Network [" +:+ iface +:+ "] Throughput (Mbps)" ].

(** The header row [writeHeader] builds from a snapshot. *)
Definition headerOf (snapshot : Snapshot) : list string :=
  [ "Timestamp"; "CPU Utilization (%)"; "CPU IO Wait (%)"; "Memory Utilization (%)" ]
  ++ (sortedKeys (Disks snapshot) ≫= diskColumns)
  ++ (sortedKeys (Networks snapshot) ≫= networkColumns).

Definition writeHeader (fl : Faults) (e : CSVExporter) (snapshot : Snapshot)
  : CSVExporter * option error :=
  let e := setDeviceOrder (sortedKeys (Disks snapshot)) e in
  let e := setIfaceOrder (sortedKeys (Networks snapshot)) e in
  csvWrite fl (headerOf snapshot) e.

Definition formatCPUWait (cpuWait : float) : string :=
  if (cpuWait <? 0)%float then naString else formatFloat cpuWait.

Definition buildRow (e : CSVExporter) (snapshot : Snapshot) : list string :=
  [ formatTime (Timestamp snapshot);
    formatFloat (CPU snapshot);
    formatCPUWait (CPUWait snapshot);
    formatFloat (Memory snapshot) ]
  ++ (deviceOrder e ≫= fun device =>
        match Disks snapshot !! device with
        | Some stats =>
            [ formatFloat (Utilization stats); formatFloat (Await stats);
              formatFloat (IOPS stats) ]
        | None => [ naString; naString; naString ]
        end)
  ++ (ifaceOrder e ≫= fun iface =>
        match Networks snapshot !! iface with
        | Some stats => [ formatFloat (Bandwidth stats / 1000000)%float ]
        | None => [ naString ]
        end).

Definition rotateFile (fuel : nat) (fl : Faults) (e : CSVExporter) (fs : FS)
    (snapshot : Snapshot) : option (CSVExporter * FS * option error) :=
  let '(e, fs, err) := flush fl e fs in
  if err is Some _ then Some (e, fs, Some ErrFlushBeforeRotate)
  else if closeFails fl then Some (e, fs, Some ErrCloseBeforeRotate)
  else
    let ext := Ext (basePath e) in
    let base := TrimSuffix (basePath e) ext in
    match findFreePath fuel fs base ext (fileIndex e) with
    | None => None
    | Some (index, newPath) =>
        let e := setFileIndex index e in
        if openFails fl then Some (e, fs, Some ErrOpenRotated)
        else
          let fs := <[newPath := ""]> fs in
          let e := setHeaderWritten false (setCurrentSize 0 (reopen newPath e)) in
          let '(e, err) := writeHeader fl e snapshot in
          if err is Some _ then Some (e, fs, Some ErrHeaderRotated)
          else Some (setHeaderWritten true e, fs, None)
    end.

Definition rowBytes (row : list string) : Z :=
  foldl (fun n cell => n + (Z.of_nat (String.length cell) + 1)) 0 row + 1.

(** [writeSnapshot].  The row is built before the size check, so after a
    rotation it still follows the column order of the file just closed.
    A failed rotation is logged and the row goes to the old file. *)
Definition writeSnapshot (fuel : nat) (fl : Faults) (e : CSVExporter) (fs : FS)
    (snapshot : Snapshot) : option (CSVExporter * FS * option error) :=
  let '(e, err) :=
    if headerWritten e then (e, None)
    else
      let '(e, err) := writeHeader fl e snapshot in
      if err is Some _ then (e, err) else (setHeaderWritten true e, None) in
  if err is Some _ then Some (e, fs, Some ErrWriteHeader)
  else
    let row := buildRow e snapshot in
    '(e, fs) ←
      (if DefaultMaxOutputFileSize <=? currentSize e then
         '(e, fs, _) ← rotateFile fuel fl e fs snapshot; Some (e, fs)
       else Some (e, fs));
    let '(e, err) := csvWrite fl row e in
    if err is Some _ then Some (e, fs, Some ErrWriteRow)
    else Some (setCurrentSize (wrap_int64 (currentSize e + rowBytes row)) e, fs, None).

End Sink.

End Exporter.

(** ** internal/collector: manager.go *)

Module Collector.

Import Metrics.

Inductive level : Type := Debug | Info | Warn.

Record LogEntry : Type := mkLog { logLevel : level; logMsg : string }.

(** A buffered channel of snapshots.  A send that does not wait succeeds
    exactly when a slot is free: a receiver can only be waiting on an empty
    buffer. *)
Record Chan : Type := mkChan { buf : list Snapshot; cap : nat }.

Definition trySend (ch : Chan) (x : Snapshot) : option Chan :=
  if (length (buf ch) <? cap ch)%nat then Some (mkChan (buf ch ++ [x]) (cap ch))
  else None.

(** What a collector's [Collect] answered in this cycle. *)
Inductive collected (A : Type) : Type :=
  | Failed (err : string)
  | Collected (a : A).
Arguments Failed {A} err.
Arguments Collected {A} a.

(** The answers of the four collectors; [None] is the nil map the disk and
    network collectors return on their baseline run. *)
Record Samples : Type := mkSamples {
  cpuSample : collected (float * float);
  memSample : collected float;
  diskSample : collected (option (gmap string DiskStats));
  netSample : collected (option (gmap string NetStats))
}.

Definition setCPU (u w : float) (s : Snapshot) : Snapshot :=
  mkSnapshot (Timestamp s) u w (Memory s) (Disks s) (Networks s).
Definition setMemory (m : float) (s : Snapshot) : Snapshot :=
  mkSnapshot (Timestamp s) (CPU s) (CPUWait s) m (Disks s) (Networks s).
Definition setDisks (d : gmap string DiskStats) (s : Snapshot) : Snapshot :=
  mkSnapshot (Timestamp s) (CPU s) (CPUWait s) (Memory s) d (Networks s).
Definition setNetworks (n : gmap string NetStats) (s : Snapshot) : Snapshot :=
  mkSnapshot (Timestamp s) (CPU s) (CPUWait s) (Memory s) (Disks s) n.

(** The snapshot once the four tasks have joined.  Each task writes its own
    fields under the mutex, so the result does not depend on their order. *)
Definition merge (now : Time) (smp : Samples) : Snapshot :=
  let snapshot := mkSnapshot now 0 0 0 ∅ ∅ in
  let snapshot :=
    match cpuSample smp with
    | Collected (cpuUtil, cpuWait) => setCPU cpuUtil cpuWait snapshot
    | Failed _ => snapshot
    end in
  let snapshot :=
    match memSample smp with
    | Collected memUtil => setMemory memUtil snapshot
    | Failed _ => snapshot
    end in
  let snapshot :=
    match diskSample smp with
    | Collected (Some diskStats) => setDisks diskStats snapshot
    | _ => snapshot
    end in
  match netSample smp with
  | Collected (Some netStats) => setNetworks netStats snapshot
  | _ => snapshot
  end.

Definition warnIfFailed {A : Type} (c : collected A) (msg : string) : list LogEntry :=
  match c with
  | Failed _ => [mkLog Warn msg]
  | Collected _ => []
  end.

(** The warnings of the four tasks, in the order cpu, memory, disk,
    network (among themselves the tasks may log in any order). *)
Definition collectLogs (smp : Samples) : list LogEntry :=
  warnIfFailed (cpuSample smp) "Failed to collect CPU metrics"
  ++ warnIfFailed (memSample smp) "Failed to collect memory metrics"
  ++ warnIfFailed (diskSample smp) "Failed to collect disk metrics"
  ++ warnIfFailed (netSample smp) "Failed to collect network metrics".

Definition errChannelFull : string := "metrics channel full".

(** [collectOnce]: the channel afterwards, what was logged, and the error
    returned. *)
Definition collectOnce (now : Time) (smp : Samples) (metricsChan : Chan)
  : Chan * list LogEntry * option string :=
  let snapshot := merge now smp in
  let logs := collectLogs smp in
  let disksEmpty := bool_decide (size (Disks snapshot) = 0%nat) in
  let netsEmpty := bool_decide (size (Networks snapshot) = 0%nat) in
  if disksEmpty || netsEmpty then
    (metricsChan, logs ++ [mkLog Debug "Baseline collection completed"], None)
  else
    match trySend metricsChan snapshot with
    | Some ch' => (ch', logs ++ [mkLog Debug "Snapshot sent"], None)
    | None =>
        (metricsChan, logs ++ [mkLog Warn "Metrics channel full, dropping snapshot"],
         Some errChannelFull)
    end.

End Collector.

(** ** strings and path/filepath of the Go library, as far as the handlers,
    the reader of the files and the configuration use them *)

Module GoStrings.

Definition byte (c : ascii) : Z := Z.of_N (N_of_ascii c).

(** [utf8.RuneSelf]: bytes below it are the ASCII characters. *)
Definition RuneSelf : Z := 128.

(** The table [asciiSpace]: tab, line feed, vertical tab, form feed,
    carriage return and space. *)
Definition asciiSpace (c : ascii) : bool :=
  (byte c =? 9) || (byte c =? 10) || (byte c =? 11) || (byte c =? 12) || (byte c =? 13)
  || (byte c =? 32).

Section TrimSpace.

(** [strings.TrimFunc(s, unicode.IsSpace)] and
    [strings.TrimRightFunc(s, unicode.IsSpace)], which [TrimSpace] hands over
    to as soon as it meets a byte that is not ASCII. *)
Variable TrimFunc_IsSpace : list ascii -> list ascii.
Variable TrimRightFunc_IsSpace : list ascii -> list ascii.

(** Each of the two loops of [TrimSpace]: it passes the ASCII spaces, and
    stops at the first other byte, telling whether that byte is outside
    ASCII. *)
Fixpoint skipSpaces (s : list ascii) : bool * list ascii :=
  match s with
  | [] => (false, [])
  | c :: s' =>
      if RuneSelf <=? byte c then (true, s)
      else if asciiSpace c then skipSpaces s'
      else (false, s)
  end.

Definition TrimSpace_bytes (s : list ascii) : list ascii :=
  let '(unicode, s) := skipSpaces s in
  if unicode then TrimFunc_IsSpace s
  else
    let '(unicode, r) := skipSpaces (reverse s) in
    if unicode then TrimRightFunc_IsSpace (reverse r) else reverse r.

Definition TrimSpace (s : string) : string :=
  string_of_list_ascii (TrimSpace_bytes (list_ascii_of_string s)).

End TrimSpace.

(** [os.IsPathSeparator] on Unix. *)
Definition IsPathSeparator (c : ascii) : bool := Ascii.eqb c "/".

(** [filepath.Base]: the loops walk the path from its end, so they run on
    the reversed path. *)
Fixpoint stripSeparators (reversed : list ascii) : list ascii :=
  match reversed with
  | c :: rest => if IsPathSeparator c then stripSeparators rest else reversed
  | [] => []
  end.

Fixpoint lastElement (reversed element : list ascii) : list ascii :=
  match reversed with
  | c :: rest => if IsPathSeparator c then element else lastElement rest (c :: element)
  | [] => element
  end.

Definition Base (path : string) : string :=
  if String.eqb path "" then "."
  else
    let path := lastElement (stripSeparators (reverse (list_ascii_of_string path))) [] in
    match path with
    | [] => "/"
    | _ => string_of_list_ascii path
    end.

(** [strings.Map] for a mapping that drops every rune outside ASCII: such
    a rune, and every byte of an invalid encoding, goes through the mapping
    as a rune of 128 or more and is dropped, so the result is the bytes
    below 128 the mapping keeps, each replaced as the mapping says. *)
Definition Map (mapping : ascii -> option ascii) (s : string) : string :=
  string_of_list_ascii (omap mapping (list_ascii_of_string s)).

End GoStrings.

(** ** internal/server: server.go *)

Module Handlers.

Import GoStrings.

Definition between (lo hi c : ascii) : bool := (byte lo <=? byte c) && (byte c <=? byte hi).

(** The mapping of [sanitizeFilename]; [None] is the rune -1, which
    [strings.Map] drops. *)
Definition safeRune (r : ascii) : option ascii :=
  if between "a" "z" r || between "A" "Z" r || between "0" "9" r
     || Ascii.eqb r "-" || Ascii.eqb r " " then Some r
  else if Ascii.eqb r "_" then Some r
  else if Ascii.eqb r "." || Ascii.eqb r ":" then Some "-"%char
  else None.

Section Sanitize.

Variable TrimFunc_IsSpace : list ascii -> list ascii.
Variable TrimRightFunc_IsSpace : list ascii -> list ascii.

Definition sanitizeFilename (name : string) : string :=
  let name := Base name in
  let ext := Exporter.Ext name in
  let name := Exporter.TrimSuffix name ext in
  let safe := Map safeRune name in
  let safe := TrimSpace TrimFunc_IsSpace TrimRightFunc_IsSpace safe in
  if String.eqb safe "" then "unnamed"
  else if (50 <? String.length safe)%nat then substring 0 50 safe
  else safe.

End Sanitize.

End Handlers.

(** ** internal/server: csvdata.go, reading a file *)

Module ServerIngest.

Import Server GoStrings.

(** [Time.Before] and [Time.After]: on the monotonic readings when both
    instants carry one, else on the wall clock. *)
Definition Before (t u : Time) : bool :=
  match mono_ns t, mono_ns u with
  | Some a, Some b => a <? b
  | _, _ => wall_ns t <? wall_ns u
  end.

Definition After (t u : Time) : bool :=
  match mono_ns t, mono_ns u with
  | Some a, Some b => b <? a
  | _, _ => wall_ns u <? wall_ns t
  end.

(** What the operating system and the CSV reader deliver for a path:
    the answer of [os.Stat] (an error or the size), of [os.Open] (an error
    or nothing), of the first [reader.Read] (an error, end of file included,
    or the header record) and of the following ones up to the end of the
    file (each an error or a record).  Errors are carried as their text. *)
Record CSVSource : Type := mkSource {
  statResult : string + Z;
  openError : option string;
  headerResult : string + list string;
  rowResults : list (string + list string)
}.

(** The columns, the row count and the time bounds while the rows are
    read. *)
Record Parsed : Type := mkParsed {
  timestamps : list Z;
  valueCols : gmap string (list float);
  rowCount : Z;
  minTime : Time;
  maxTime : Time
}.

Section Parse.

(** [time.Parse(layout, value)] and [strconv.ParseFloat(s, 64)]; [None] is
    a returned error. *)
Variable timeParse : string -> string -> option Time.
Variable ParseFloat : string -> option float.
Variable TrimFunc_IsSpace : list ascii -> list ascii.
Variable TrimRightFunc_IsSpace : list ascii -> list ascii.
(** The files: what each path delivers. *)
Variable fileAt : string -> CSVSource.

Definition RFC3339 : string := "2006-01-02T15:04:05Z07:00".

Definition formats : list string :=
  [ "2006-01-02 15:04:05"; RFC3339; "2006-01-02T15:04:05"; "02/01/2006 15:04:05" ].

Definition parseTimestamp (s : string) : Time :=
  let s := TrimSpace TrimFunc_IsSpace TrimRightFunc_IsSpace s in
  default zeroTime (head (omap (fun format => timeParse format s) formats)).

(** The value of one cell. *)
Definition parseValue (cell : string) : float :=
  let valStr := TrimSpace TrimFunc_IsSpace TrimRightFunc_IsSpace cell in
  if String.eqb valStr "" || String.eqb valStr "N/A" then PrimFloat.nan
  else
    match ParseFloat valStr with
    | Some v => v
    | None => PrimFloat.nan
    end.

(** The loop over the data columns of one record; [None] is an index out
    of range. *)
Fixpoint appendValues (header record : list string) (cols : list Z)
    (valueCols : gmap string (list float)) : option (gmap string (list float)) :=
  match cols with
  | [] => Some valueCols
  | i :: rest =>
      colName ← index header i;
      cell ← index record i;
      let val := parseValue cell in
      appendValues header record rest
        (<[colName := default [] (valueCols !! colName) ++ [val]]> valueCols)
  end.

(** One round of the loop over the records, for a record read without
    error and below the row limit. *)
Definition addRow (header : list string) (colCount : Z) (p : Parsed) (record : list string)
  : option Parsed :=
  cell0 ← index record 0;
  let t := parseTimestamp cell0 in
  if IsZero t then Some p
  else
    let timestamps := timestamps p ++ [Unix t] in
    let '(minTime, maxTime) :=
      if rowCount p =? 0 then (t, t)
      else ((if Before t (minTime p) then t else minTime p),
            (if After t (maxTime p) then t else maxTime p)) in
    valueCols ← appendValues header record (seqZ 1 (colCount - 1)) (valueCols p);
    Some (mkParsed timestamps valueCols (rowCount p + 1) minTime maxTime).

Fixpoint readRows (header : list string) (colCount : Z) (reads : list (string + list string))
    (p : Parsed) : result Parsed :=
  match reads with
  | [] => Ok p
  | inl err :: _ =>
      Err (ErrProcess ("error reading CSV line " +:+ pretty (rowCount p + 2) +:+ ": " +:+ err))
  | inr record :: rest =>
      if MaxRowsPerFile <=? rowCount p then
        Err (ErrProcess ("file has too many rows (max " +:+ pretty MaxRowsPerFile +:+ ")"))
      else
        match addRow header colCount p record with
        | None => Panic
        | Some p' => readRows header colCount rest p'
        end
  end.

(** The empty column of every header cell but the first. *)
Definition emptyColumns (header : list string) : gmap string (list float) :=
  foldl (fun m name => <[name := []]> m) ∅ (drop 1 header).

Definition processCSVFile (id name path : string) : result (ColumnData * CSVFile) :=
  let src := fileAt path in
  match statResult src with
  | inl err => Err (ErrProcess ("failed to stat file: " +:+ err))
  | inr size =>
      if MaxFileSize <? size then
        Err (ErrProcess ("file too large (max " +:+ pretty (MaxFileSize / (1024 * 1024))
                         +:+ " MB)"))
      else
        match openError src with
        | Some err => Err (ErrProcess ("failed to open file: " +:+ err))
        | None =>
            match headerResult src with
            | inl err => Err (ErrProcess ("failed to read CSV header: " +:+ err))
            | inr header =>
                let colCount := Z.of_nat (length header) in
                if colCount <? 2 then
                  Err (ErrProcess "CSV must have at least timestamp and one data column")
                else
                  match readRows header colCount (rowResults src)
                                 (mkParsed [] (emptyColumns header) 0 zeroTime zeroTime) with
                  | Ok p =>
                      if rowCount p =? 0 then
                        Err (ErrProcess "CSV file contains no valid data rows")
                      else
                        Ok (mkColumnData (timestamps p) (valueCols p),
                            mkCSVFile id name path header (rowCount p) (minTime p) (maxTime p)
                                      false)
                  | Err e => Err e
                  | Panic => Panic
                  end
            end
        end
  end.

End Parse.

(** [GetMetricColumns]. *)
Definition GetMetricColumns (s : CSVDataService) (fileID : string) : error + list string :=
  match files s !! fileID with
  | None => inl (ErrFileNotFound fileID)
  | Some file => inr (filter (fun col => col <> "Timestamp") (Columns file))
  end.

End ServerIngest.

(** ** internal/exporter: csv.go, the exporter and its loop *)

Module ExporterRun.

Import Metrics Exporter.

Definition setRecordCount (n : Z) (e : CSVExporter) : CSVExporter :=
  mkExporter (file e) (buffered e) n (headerWritten e) (deviceOrder e) (ifaceOrder e)
             (currentSize e) (basePath e) (fileIndex e).

Inductive startError : Type :=
  | ErrTimezone
  | ErrOpenOutput
  | ErrStatOutput.

(** [NewCSVExporter]: the output file is opened for appending and created
    when missing; the size count starts at the size of the file. *)
Definition NewCSVExporter (timezoneOk : bool) (fl : Faults) (statFails : bool)
    (outputPath : string) (fs : FS) : (CSVExporter * FS) + startError :=
  if negb timezoneOk then inr ErrTimezone
  else if openFails fl then inr ErrOpenOutput
  else
    let content := default "" (fs !! outputPath) in
    let fs := <[outputPath := content]> fs in
    if statFails then inr ErrStatOutput
    else inl (mkExporter outputPath "" 0 false [] [] (Z.of_nat (String.length content))
                         outputPath 0, fs).

(** What the [select] of [Start] receives: the context is done, the
    channel is closed, a snapshot arrives, or the flush ticker fires. *)
Inductive event : Type :=
  | CtxDone
  | ChanClosed
  | Received (snapshot : Snapshot)
  | FlushTick.

(** [Start] has returned, or waits for the next event. *)
Inductive outcome : Type :=
  | Waiting (e : CSVExporter) (fs : FS)
  | Returned (e : CSVExporter) (fs : FS) (err : option error).

Section Loop.

Variable csvEncode : list string -> string.
Variable formatFloat : float -> string.
Variable formatTime : Time -> string.
(** [config.BufferSize]. *)
Variable bufferSize : Z.

(** The loop of [Start] over the events it receives, each with the faults
    of the system calls it leads to.  [None] is a rotation search that has
    not ended within the fuel. *)
Fixpoint Start (fuel : nat) (events : list (event * Faults)) (e : CSVExporter) (fs : FS)
  : option outcome :=
  match events with
  | [] => Some (Waiting e fs)
  | (CtxDone, fl) :: _ | (ChanClosed, fl) :: _ =>
      let '(e, fs, err) := flush fl e fs in Some (Returned e fs err)
  | (Received snapshot, fl) :: rest =>
      '(e, fs, _) ← writeSnapshot csvEncode formatFloat formatTime fuel fl e fs snapshot;
      let e := setRecordCount (wrap_int64 (recordCount e + 1)) e in
      if bufferSize <=? recordCount e then
        let '(e, fs, _) := flush fl e fs in
        Start fuel rest (setRecordCount 0 e) fs
      else Start fuel rest e fs
  | (FlushTick, fl) :: rest =>
      if 0 <? recordCount e then
        let '(e, fs, _) := flush fl e fs in
        Start fuel rest (setRecordCount 0 e) fs
      else Start fuel rest e fs
  end.

End Loop.

End ExporterRun.

(** ** internal/config: config.go *)

Module Config.

Import GoStrings.

(** [time.Second] and [time.Hour], in nanoseconds as [time.Duration]. *)
Definition Second : Z := 1000000000.
Definition Hour : Z := 3600 * Second.

Record Config : Type := mkConfig {
  SamplingInterval : Z;
  OutputPath : string;
  BufferSize : Z;
  FlushInterval : Z;
  IncludeDisks : list string;
  ExcludeDisks : list string;
  IncludeNetworks : list string;
  ExcludeNetworks : list string;
  LogLevel : string;
  LogFile : string;
  Timezone : string;
  ListDevices : bool
}.

(** [strings.Split] for a separator of one byte: the pieces between the
    separators, one more than there are separators. *)
Fixpoint Split_bytes (s : list ascii) (sep : ascii) : list (list ascii) :=
  match s with
  | [] => [[]]
  | c :: rest =>
      if Ascii.eqb c sep then [] :: Split_bytes rest sep
      else
        match Split_bytes rest sep with
        | part :: parts => (c :: part) :: parts
        | [] => [[c]]
        end
  end.

Definition Split (s : string) (sep : ascii) : list string :=
  string_of_list_ascii <$> Split_bytes (list_ascii_of_string s) sep.

(** What [os.Stat] answers: an error, which [os.IsNotExist] may recognise,
    or the description of a file. *)
Inductive statResult : Type :=
  | StatError (notExist : bool) (msg : string)
  | StatInfo (isDir : bool).

Section System.

Variable TrimFunc_IsSpace : list ascii -> list ascii.
Variable TrimRightFunc_IsSpace : list ascii -> list ascii.
(** [os.Stat], and the error message of [time.LoadLocation], if any. *)
Variable Stat : string -> statResult.
Variable LoadLocation : string -> option string.

(** The slice returned: nil and the empty slice are the same list. *)
Definition parseCommaSeparated (s : string) : list string :=
  if String.eqb s "" then []
  else
    let parts := Split s "," in
    foldl (fun result part =>
             let trimmed := TrimSpace TrimFunc_IsSpace TrimRightFunc_IsSpace part in
             if negb (String.eqb trimmed "") then result ++ [trimmed] else result)
          [] parts.

Definition isSeparator (c : ascii) : bool := Ascii.eqb c "/" || Ascii.eqb c "\".

(** The loop of [ensureOutputDir], from the last byte down: what is in
    front of the last separator, on the reversed path. *)
Fixpoint beforeLastSeparator (reversed : list ascii) : option (list ascii) :=
  match reversed with
  | [] => None
  | c :: rest => if isSeparator c then Some rest else beforeLastSeparator rest
  end.

Definition outputDir (c : Config) : string :=
  let dir :=
    match beforeLastSeparator (reverse (list_ascii_of_string (OutputPath c))) with
    | Some rest => string_of_list_ascii (reverse rest)
    | None => OutputPath c
    end in
  if String.eqb dir (OutputPath c) then "." else dir.

Definition ensureOutputDir (c : Config) : option string :=
  let dir := outputDir c in
  match Stat dir with
  | StatError notExist msg =>
      if notExist then Some ("output directory does not exist: " +:+ dir) else Some msg
  | StatInfo isDir =>
      if negb isDir then Some ("output path parent is not a directory: " +:+ dir) else None
  end.

Definition validLogLevels : gmap string bool :=
  {[ "debug" := true; "info" := true; "warn" := true; "error" := true ]}.

Definition Validate (c : Config) : option string :=
  if SamplingInterval c <? 1 * Second then
    Some "sampling interval must be at least 1 second"
  else if 1 * Hour <? SamplingInterval c then
    Some "sampling interval must not exceed 1 hour"
  else if String.eqb (OutputPath c) "" then Some "output path cannot be empty"
  else if BufferSize c <? 1 then Some "buffer size must be at least 1"
  else if FlushInterval c <? 1 * Second then
    Some "flush interval must be at least 1 second"
  else if negb (default false (validLogLevels !! LogLevel c)) then
    Some ("invalid log level: " +:+ LogLevel c
          +:+ " (must be debug, info, warn, or error)")
  else
    match (if negb (String.eqb (Timezone c) "") then LoadLocation (Timezone c) else None) with
    | Some err => Some ("invalid timezone: " +:+ Timezone c +:+ " (" +:+ err +:+ ")")
    | None =>
        match ensureOutputDir c with
        | Some err => Some ("output directory check failed: " +:+ err)
        | None => None
        end
    end.

End System.

End Config.

(** ** internal/collector: the four collectors and their manager *)

Module Collectors.

Import Metrics Collector.

(** [runtime.GOOS], as far as the collectors tell the systems apart. *)
Inductive GOOS : Type := windows | darwin | linux | otherOS.

(** *** cpu.go *)

(** The fields of gopsutil's [cpu.TimesStat] the collector reads. *)
Record TimesStat : Type := mkTimes {
  tUser : float; tSystem : float; tIdle : float; tIowait : float; tIrq : float;
  tSoftirq : float; tSteal : float; tGuest : float; tGuestNice : float
}.

Record CPUCollector : Type := mkCPUCollector {
  cpuPrevStats : CPUTimeStats float;
  cpuFirstRun : bool
}.

Definition NewCPUCollector : CPUCollector :=
  mkCPUCollector (mkCPU 0%float 0%float 0%float 0%float 0%float 0%float 0%float 0%float
                        0%float zeroTime) true.

Definition getIOWait (goos : GOOS) (t : TimesStat) : float :=
  match goos with
  | windows => (-1)%float
  | darwin => if (tIowait t =? 0)%float then (-1)%float else tIowait t
  | linux => tIowait t
  | otherOS => (-1)%float
  end.

(** [times] is what [cpu.Times(false)] answers, an error message or a
    slice, and [now] what [time.Now] answers. *)
Definition getCPUTimeStats (goos : GOOS) (now : Time) (times : string + list TimesStat)
  : string + CPUTimeStats float :=
  match times with
  | inl err => inl err
  | inr [] => inl "no CPU time stats available"
  | inr (t :: _) =>
      inr (mkCPU (tUser t) (tSystem t) (tIdle t) (getIOWait goos t) (tIrq t) (tSoftirq t)
                 (tSteal t) (tGuest t) (tGuestNice t) now)
  end.

Definition CPUCollect (goos : GOOS) (now : Time) (times : string + list TimesStat)
    (c : CPUCollector) : CPUCollector * (float * float * option string) :=
  match getCPUTimeStats goos now times with
  | inl err => (c, (0%float, (-1)%float, Some ("failed to get CPU stats: " +:+ err)))
  | inr currentStats =>
      if cpuFirstRun c then (mkCPUCollector currentStats false, (0%float, (-1)%float, None))
      else
        let utilization := CalculateCPUUtilization (cpuPrevStats c) currentStats in
        let iowait := CalculateCPUIOWait (cpuPrevStats c) currentStats in
        (mkCPUCollector currentStats (cpuFirstRun c), (utilization, iowait, None))
  end.

(** *** memory.go *)

(** [Used] and [Total] of gopsutil's [mem.VirtualMemoryStat], both
    [uint64]. *)
Record VirtualMemoryStat : Type := mkVM { vmUsed : Z; vmTotal : Z }.

Definition MemoryCollect (vmStat : string + VirtualMemoryStat) : float * option string :=
  match vmStat with
  | inl err => (0%float, Some ("failed to get memory stats: " +:+ err))
  | inr vm =>
      if vmTotal vm =? 0 then (0%float, Some "total memory is zero")
      else ((float64_of_Z (vmUsed vm) / float64_of_Z (vmTotal vm) * 100)%float, None)
  end.

(** *** The include and exclude lists, as both collectors read them *)

(** The loops over a list of names. *)
Fixpoint containsName (names : list string) (name : string) : bool :=
  match names with
  | [] => false
  | n :: rest => if String.eqb n name then true else containsName rest name
  end.

(** [shouldMonitor], the same code in both collectors. *)
Definition shouldMonitor (include exclude : list string) (name : string) : bool :=
  if (0 <? length exclude)%nat && containsName exclude name then false
  else if (length include =? 0)%nat then true
  else containsName include name.

(** *** disk.go *)

Definition normalizeDeviceName (name : string) : string :=
  if (5 <=? String.length name)%nat && String.eqb (substring 0 5 name) "/dev/"
  then substring 5 (String.length name - 5) name
  else name.

Definition normalizeDeviceList (devices : list string) : list string :=
  normalizeDeviceName <$> devices.

(** The counters of gopsutil's [disk.IOCountersStat] the collector reads,
    all [uint64]. *)
Record IOCountersStat : Type := mkIOCounters {
  cReadCount : Z; cWriteCount : Z; cReadTime : Z; cWriteTime : Z; cIoTime : Z
}.

Record DiskCollector : Type := mkDiskCollector {
  diskPrevStats : gmap string DiskIOStats;
  includeDevices : list string;
  excludeDevices : list string;
  diskFirstRun : bool
}.

Definition NewDiskCollector (includeDevices excludeDevices : list string) : DiskCollector :=
  mkDiskCollector ∅ (normalizeDeviceList includeDevices) (normalizeDeviceList excludeDevices)
                  true.

Definition getIOTime (goos : GOOS) (counter : IOCountersStat) : Z :=
  match goos with
  | windows =>
      if cIoTime counter =? 0 then wrap_uint64 (cReadTime counter + cWriteTime counter)
      else cIoTime counter
  | _ => cIoTime counter
  end.

Definition diskStatsOf (goos : GOOS) (now : Time) (counter : IOCountersStat) : DiskIOStats :=
  mkDisk (cReadCount counter) (cWriteCount counter) (cReadTime counter) (cWriteTime counter)
         (getIOTime goos counter) now.

(** One round of the loop of [Collect] over the counters: the result map
    and [prevStats] after it. *)
Definition collectDevice (goos : GOOS) (now : Time) (d : DiskCollector)
    (deviceName : string) (counter : IOCountersStat)
    (acc : gmap string DiskStats * gmap string DiskIOStats)
  : gmap string DiskStats * gmap string DiskIOStats :=
  let '(result, prevStatsMap) := acc in
  if negb (shouldMonitor (includeDevices d) (excludeDevices d) deviceName) then acc
  else
    let currentStats := diskStatsOf goos now counter in
    if diskFirstRun d then (result, <[deviceName := currentStats]> prevStatsMap)
    else
      match prevStatsMap !! deviceName with
      | None => (result, <[deviceName := currentStats]> prevStatsMap)
      | Some prevStats =>
          let utilization := CalculateDiskUtilization prevStats currentStats in
          let await := CalculateDiskAwait prevStats currentStats in
          let iops := CalculateDiskIOPS prevStats currentStats in
          (<[deviceName := mkDiskStats utilization await iops]> result,
           <[deviceName := currentStats]> prevStatsMap)
      end.

(** [ioCounters] is what [disk.IOCounters()] answers: an error message or
    a map from device name to counters, which the loop ranges over (each
    key once, in an order the language leaves open).  The result is [None]
    for the nil map. *)
Definition DiskCollect (goos : GOOS) (now : Time)
    (ioCounters : string + gmap string IOCountersStat) (d : DiskCollector)
  : DiskCollector * (option (gmap string DiskStats) * option string) :=
  match ioCounters with
  | inl err => (d, (None, Some ("failed to get disk I/O counters: " +:+ err)))
  | inr counters =>
      let '(result, prevStatsMap) :=
        map_fold (collectDevice goos now d) (∅, diskPrevStats d) counters in
      if diskFirstRun d then
        (mkDiskCollector prevStatsMap (includeDevices d) (excludeDevices d) false,
         (None, None))
      else
        (mkDiskCollector prevStatsMap (includeDevices d) (excludeDevices d) (diskFirstRun d),
         (Some result, None))
  end.

(** *** network.go *)

(** Name and byte counters of gopsutil's [net.IOCountersStat]. *)
Record NetCountersStat : Type := mkNetCounters {
  nName : string; nBytesSent : Z; nBytesRecv : Z
}.

Record NetworkCollector : Type := mkNetworkCollector {
  netPrevStats : gmap string NetworkIOStats;
  includeInterfaces : list string;
  excludeInterfaces : list string;
  netFirstRun : bool
}.

Definition NewNetworkCollector (includeInterfaces excludeInterfaces : list string)
  : NetworkCollector :=
  mkNetworkCollector ∅ includeInterfaces excludeInterfaces true.

Definition isLoopback (interfaceName : string) : bool :=
  existsb (fun lo => String.eqb interfaceName lo) ["lo"; "lo0"; "Loopback"].

Definition collectInterface (now : Time) (n : NetworkCollector)
    (acc : gmap string NetStats * gmap string NetworkIOStats) (counter : NetCountersStat)
  : gmap string NetStats * gmap string NetworkIOStats :=
  let '(result, prevStatsMap) := acc in
  let interfaceName := nName counter in
  if isLoopback interfaceName then acc
  else if negb (shouldMonitor (includeInterfaces n) (excludeInterfaces n) interfaceName)
  then acc
  else
    let currentStats := mkNet (nBytesSent counter) (nBytesRecv counter) now in
    if netFirstRun n then (result, <[interfaceName := currentStats]> prevStatsMap)
    else
      match prevStatsMap !! interfaceName with
      | None => (result, <[interfaceName := currentStats]> prevStatsMap)
      | Some prevStats =>
          let bandwidth := CalculateNetworkBandwidth prevStats currentStats in
          (<[interfaceName := mkNetStats bandwidth]> result,
           <[interfaceName := currentStats]> prevStatsMap)
      end.

(** [ioCounters] is what [net.IOCounters(true)] answers: an error message
    or one entry per interface. *)
Definition NetworkCollect (now : Time) (ioCounters : string + list NetCountersStat)
    (n : NetworkCollector)
  : NetworkCollector * (option (gmap string NetStats) * option string) :=
  match ioCounters with
  | inl err => (n, (None, Some ("failed to get network I/O counters: " +:+ err)))
  | inr counters =>
      let '(result, prevStatsMap) :=
        foldl (collectInterface now n) (∅, netPrevStats n) counters in
      if netFirstRun n then
        (mkNetworkCollector prevStatsMap (includeInterfaces n) (excludeInterfaces n) false,
         (None, None))
      else
        (mkNetworkCollector prevStatsMap (includeInterfaces n) (excludeInterfaces n)
                            (netFirstRun n),
         (Some result, None))
  end.

(** *** manager.go, with its collectors *)

Record Manager : Type := mkManager {
  cpu : CPUCollector;
  disk : DiskCollector;
  network : NetworkCollector;
  metricsChan : Chan
}.

Definition NewManager (cfg : Config.Config) (metricsChan : Chan) : Manager :=
  mkManager NewCPUCollector
            (NewDiskCollector (Config.IncludeDisks cfg) (Config.ExcludeDisks cfg))
            (NewNetworkCollector (Config.IncludeNetworks cfg) (Config.ExcludeNetworks cfg))
            metricsChan.

(** What the system answers during one cycle: the clock of [collectOnce]
    and, for each collector, its own reading of the clock and of the
    counters. *)
Record Readings : Type := mkReadings {
  rNow : Time;
  rCPUNow : Time;
  rCPUTimes : string + list TimesStat;
  rMemory : string + VirtualMemoryStat;
  rDiskNow : Time;
  rDiskCounters : string + gmap string IOCountersStat;
  rNetNow : Time;
  rNetCounters : string + list NetCountersStat
}.

(** The answer of a [Collect], as the task of [collectOnce] takes it. *)
Definition sampleOf {A : Type} (answer : A * option string) : collected A :=
  match answer.2 with
  | Some err => Failed err
  | None => Collected answer.1
  end.

(** [Manager.collectOnce] with the four calls of [Collect] it starts;
    [Collector.collectOnce] is what it does with their answers.  The four
    tasks work on four different collectors, so their order does not
    matter. *)
Definition Manager_collectOnce (goos : GOOS) (r : Readings) (m : Manager)
  : Manager * list LogEntry * option string :=
  let '(cpu', cpuAnswer) := CPUCollect goos (rCPUNow r) (rCPUTimes r) (cpu m) in
  let memAnswer := MemoryCollect (rMemory r) in
  let '(disk', diskAnswer) := DiskCollect goos (rDiskNow r) (rDiskCounters r) (disk m) in
  let '(network', netAnswer) := NetworkCollect (rNetNow r) (rNetCounters r) (network m) in
  let smp :=
    mkSamples (sampleOf (cpuAnswer.1, cpuAnswer.2)) (sampleOf memAnswer)
              (sampleOf diskAnswer) (sampleOf netAnswer) in
  let '(metricsChan', logs, err) := collectOnce (rNow r) smp (metricsChan m) in
  (mkManager cpu' disk' network' metricsChan', logs, err).

(** The calls of [collectOnce] that [Start] makes, the baseline call first
    and then one per tick; an error of a call is logged and the loop goes
    on. *)
Definition Manager_cycles (goos : GOOS) (readings : list Readings) (m : Manager) : Manager :=
  foldl (fun m r => (Manager_collectOnce goos r m).1.1) m readings.

End Collectors.

(** * Vocabulary of the statements

    Predicates and sample inputs the theorems are stated with.  None of it
    is code of the repository. *)

Module MetricsTerms.

Import Metrics.

Section Monotone.

Context {F : Type} `{Float64 F}.


(** A percentage: between 0 and 100. *)
Definition isPercent (x : F) : bool := (of_Z 0 <=? x)%f64 && (x <=? of_Z 100)%f64.

End Monotone.

(** The CPU snapshots of the worked example, and two instants a second
    apart. *)
Definition cpuPrevExample (t : Time) : CPUTimeStats float :=
  mkCPU 100%float 50%float 800%float 10%float 0%float 0%float 0%float 0%float 0%float t.

Definition cpuCurrExample (t : Time) : CPUTimeStats float :=
  mkCPU 110%float 60%float 810%float 15%float 0%float 0%float 0%float 0%float 0%float t.

Definition someInstant : Time := mkTime 63839318400000000000 (Some 5000000000).

Definition secondLater : Time := mkTime 63839318401000000000 (Some 6000000000).








(** Zero, a finite number or an infinity of sign [s]. *)
Definition signedSF (s : bool) (x : spec_float) : Prop :=
  match x with
  | S754_zero s' | S754_infinity s' | S754_finite s' _ _ => s' = s
  | S754_nan => False
  end.



End MetricsTerms.

Module ServerTerms.

Import Server.


(** [i] splits [[0, n)] into the indices where [f] is false and those where
    it is true. *)
Definition splitsAt (n : Z) (f : Z -> bool) (i : Z) : Prop :=
  0 <= i <= n
  /\ (forall k, 0 <= k < i -> f k = false)
  /\ (forall k, i <= k < n -> f k = true).

(** The range of a query, on timestamps in Unix seconds; an absent bound
    does not restrict. *)
Definition lowerOk (timeFrom : option Time) (t : Z) : Prop :=
  match timeFrom with Some f => Unix f <= t | None => True end.

Definition upperOk (timeTo : option Time) (t : Z) : Prop :=
  match timeTo with Some u => t <= Unix u | None => True end.

Definition inRange (timeFrom timeTo : option Time) (t : Z) : Prop :=
  lowerOk timeFrom t /\ upperOk timeTo t.

#[export] Instance lowerOk_dec timeFrom t : Decision (lowerOk timeFrom t).
Proof. destruct timeFrom; cbn; apply _. Defined.

#[export] Instance upperOk_dec timeTo t : Decision (upperOk timeTo t).
Proof. destruct timeTo; cbn; apply _. Defined.

#[export] Instance inRange_dec timeFrom timeTo t : Decision (inRange timeFrom timeTo t).
Proof. apply _. Defined.




(** A one-column store. *)
Definition singleColumn (fileID columnName : string) (ts : list Z) (vals : list float)
  : CSVDataService :=
  mkService ∅ {[ fileID := mkColumnData ts {[ columnName := vals ]} ]}.


(** How many points a query returned. *)
Definition pointCount (res : result (list DataPoint)) : option nat :=
  match res with Ok pts => Some (length pts) | _ => None end.

(** Four rows at 10 s, 20 s, 30 s and 40 s, the second value missing. *)
Definition rows4 : CSVDataService :=
  singleColumn "f" "Val" [10; 20; 30; 40] [1%float; PrimFloat.nan; 3%float; 4%float].

(** The values of the raw samples [[pStart, pEnd)] that are numbers. *)
Definition bucketValues (values : list float) (pStart pEnd : Z) : list float :=
  filter (fun v => PrimFloat.is_nan v = false)
         (take (Z.to_nat (pEnd - pStart)) (drop (Z.to_nat pStart) values)).

(** The sum from 0, in order, over the count. *)
Definition average (vs : list float) : float :=
  (foldl PrimFloat.add 0 vs / float64_of_Z (Z.of_nat (length vs)))%float.

(** What a bucket contributes: nothing when it is empty or holds no number,
    else the average of its numbers at the timestamp of its first sample. *)
Definition bucketPoint (timestamps : list Z) (values : list float) (pStart pEnd : Z)
  : option DataPoint :=
  if decide (pEnd <= pStart) then None
  else
    match bucketValues values pStart pEnd with
    | [] => None
    | vs => Some (mkDataPoint (timeUnix (timestampAt timestamps pStart)) (average vs))
    end.

(** 2002 rows; only the last one carries a value. *)
Definition rows2002 : CSVDataService :=
  singleColumn "f" "Val" (seqZ 0 2002) (replicate 2001 PrimFloat.nan ++ [5%float]).

(** 2002 rows, row [i] carrying the value [i]. *)
Definition ramp2002 : CSVDataService :=
  singleColumn "f" "Val" (seqZ 0 2002) (float64_of_Z <$> seqZ 0 2002).

(** Twenty files registered, none loaded. *)
Definition registered20 : CSVDataService :=
  foldl (fun s i => RegisterFile s ("file_" +:+ pretty i) ("file_" +:+ pretty i) "dummy.csv")
        NewCSVDataService (seqZ 0 20).

(** A parser that answers with the one-row file of the repository's
    tests, whatever the path. *)
Definition parseOneRow (id name path : string) : error + (ColumnData * CSVFile) :=
  inr (mkColumnData [1672531200] {[ "Val" := [1%float] ]},
       mkCSVFile id name path ["Timestamp"; "Val"] 1
                 (timeUnix 1672531200) (timeUnix 1672531200) false).

End ServerTerms.

Module ExporterTerms.

Import Metrics.
Import Exporter.

(** A record encoder to run the examples with. *)
Definition joinRecord (record : list string) : string :=
  foldr (fun cell rest => cell +:+ "," +:+ rest) "" record.

(** The rotation test of the repository: an oversized output file and a
    rotated file left by an earlier run. *)
Definition testExporter : CSVExporter :=
  mkExporter "out/overwrite_test.csv" "row" 1 true [] [] (DefaultMaxOutputFileSize + 1)
             "out/overwrite_test.csv" 0.

Definition testFS : FS :=
  {[ "out/overwrite_test.csv" := "header";
     "out/overwrite_test_1.csv" := "existing data 1" ]}.

Definition testSnapshot : Snapshot :=
  mkSnapshot MetricsTerms.someInstant 50 1 70
             {[ "sda" := mkDiskStats 20 10 150 ]} {[ "eth0" := mkNetStats 20000000 ]}.

End ExporterTerms.

Module CollectorTerms.

Import Metrics.
Import Collector.

(** The channel of [runCollect]: [make(chan *metrics.Snapshot, 10)]. *)
Definition queueCapacity : nat := 10.

(** Four collectors that answered, and a queue with every slot taken. *)
Definition okSamples : Samples :=
  mkSamples (Collected (50%float, 1%float)) (Collected 70%float)
            (Collected (Some {[ "sda" := mkDiskStats 20 10 150 ]}))
            (Collected (Some {[ "eth0" := mkNetStats 20000000 ]})).

Definition fullQueue : Chan :=
  mkChan (replicate 10 (merge MetricsTerms.someInstant okSamples)) queueCapacity.

End CollectorTerms.

Module FloatTerms.

(** Zero or a finite number: neither an infinity nor NaN. *)
Definition finiteSF (x : spec_float) : Prop :=
  match x with
  | S754_zero _ | S754_finite _ _ _ => True
  | _ => False
  end.

(** An infinity or a finite number other than zero, of sign [s]. *)
Definition nonzeroSF (s : bool) (x : spec_float) : Prop :=
  match x with
  | S754_infinity s' | S754_finite s' _ _ => s' = s
  | _ => False
  end.

End FloatTerms.

Module StoreTerms.

Import Server.

(** Column data is held for exactly the entries marked loaded. *)
Definition dataForLoaded (s : CSVDataService) : Prop :=
  forall id, is_Some (columnData s !! id)
             <-> exists f, files s !! id = Some f /\ IsLoaded f = true.

(** A call of the service.  The two loading calls carry what
    [processCSVFile] answers at the time of the call. *)
Inductive call : Type :=
  | CallLoadFile (processCSVFile : string -> string -> string -> error + (ColumnData * CSVFile))
                 (id name path : string)
  | CallLoadFileContent
      (processCSVFile : string -> string -> string -> error + (ColumnData * CSVFile))
      (id : string)
  | CallRegisterFile (id name path : string)
  | CallDeleteFile (id : string)
  | CallDeleteAll.

Definition perform (s : CSVDataService) (c : call) : CSVDataService :=
  match c with
  | CallLoadFile processCSVFile id name path => (LoadFile processCSVFile s id name path).1
  | CallLoadFileContent processCSVFile id => (LoadFileContent processCSVFile s id).1
  | CallRegisterFile id name path => RegisterFile s id name path
  | CallDeleteFile id => (DeleteFile s id).1
  | CallDeleteAll => DeleteAll s
  end.

(** The store after a sequence of calls on a new service, one call at a
    time. *)
Definition after (calls : list call) : CSVDataService :=
  foldl perform NewCSVDataService calls.

End StoreTerms.

Module HandlersTerms.

Import GoStrings Handlers.

(** Letters, digits, dash, underscore and space. *)
Definition safeChar (c : ascii) : bool :=
  between "a" "z" c || between "A" "Z" c || between "0" "9" c
  || Ascii.eqb c "-" || Ascii.eqb c "_" || Ascii.eqb c " ".

End HandlersTerms.

Module IngestTerms.

Import Server ServerIngest.

(** What [encoding/csv] guarantees with [FieldsPerRecord] left at 0: every
    record it returns without error has as many fields as the first one. *)
Definition readerWellFormed (src : CSVSource) : Prop :=
  forall header, headerResult src = inr header ->
    Forall (fun r => match r with
                     | inr record => length record = length header
                     | inl _ => True
                     end) (rowResults src).

(** How often [name] occurs in [names]. *)
Definition occurrences (name : string) (names : list string) : nat :=
  length (filter (fun n => n = name) names).

(** The instant a record is kept under: that of its first cell, unless it
    did not parse (the zero instant). *)
Definition keptTime (parseTimestamp : string -> Time) (record : list string) : option Time :=
  cell ← head record;
  let t := parseTimestamp cell in
  if IsZero t then None else Some t.

(** The columns [p] holds are those named [names], each with one value per
    kept row and occurrence of its name. *)
Record aligned (names : list string) (p : Parsed) (kept : list Time) : Prop := mkAligned {
  aligned_timestamps : timestamps p = Unix <$> kept;
  aligned_rowCount : rowCount p = Z.of_nat (length kept);
  aligned_length : forall name,
    length (default [] (valueCols p !! name)) = (occurrences name names * length kept)%nat;
  aligned_names : forall name, is_Some (valueCols p !! name) <-> name ∈ names
}.

(** The first and the last of the kept instants, by the wall clock. *)
Record bounded (p : Parsed) (kept : list Time) : Prop := mkBounded {
  bounded_min : minTime p ∈ kept;
  bounded_max : maxTime p ∈ kept;
  bounded_all : Forall (fun t => wall_ns (minTime p) <= wall_ns t <= wall_ns (maxTime p)) kept
}.

(** A sample environment: a parser of two instants in the first layout, a
    parser of two numbers, and a file of three rows, the second with a
    first cell that is no instant. *)
Definition sampleTimeParse (layout value : string) : option Time :=
  if negb (String.eqb layout "2006-01-02 15:04:05") then None
  else if String.eqb value "2023-01-01 00:00:00" then Some (timeUnix 1672531200)
  else if String.eqb value "2023-01-01 00:00:01" then Some (timeUnix 1672531201)
  else None.

Definition sampleParseFloat (s : string) : option float :=
  if String.eqb s "1.0" then Some 1%float
  else if String.eqb s "2.5" then Some 2.5%float
  else None.

Definition sampleFile (path : string) : CSVSource :=
  mkSource (inr 100) None (inr ["Timestamp"; "Val"])
           [ inr ["2023-01-01 00:00:00"; "1.0"];
             inr ["not a time"; "2.5"];
             inr ["2023-01-01 00:00:01"; "N/A"] ].


(** A file whose first column is called Time. *)
Definition sampleFileTime (path : string) : CSVSource :=
  mkSource (inr 100) None (inr ["Time"; "Val"]) [ inr ["2023-01-01 00:00:00"; "1.0"] ].

End IngestTerms.

Module ExporterRunTerms.

Import Metrics Exporter ExporterRun.

(** The snapshots among the events. *)
Definition snapshotsOf (events : list (event * Faults)) : list Snapshot :=
  omap (fun ev => match ev.1 with Received s => Some s | _ => None end) events.

(** No event is the end of the loop. *)
Definition running (events : list (event * Faults)) : Prop :=
  Forall (fun ev => match ev.1 with Received _ | FlushTick => True | _ => False end) events.

(** The last event ends the loop. *)
Definition ending (ev : event) : Prop :=
  match ev with CtxDone | ChanClosed => True | _ => False end.

Definition concatAll (parts : list string) : string := foldr String.append "" parts.

(** The exporter with the column order of a header written from [first]. *)
Definition headed (first : Snapshot) (e : CSVExporter) : CSVExporter :=
  setIfaceOrder (sortedKeys (Networks first)) (setDeviceOrder (sortedKeys (Disks first)) e).

(** What a new exporter writes for a sequence of snapshots: the header of
    the first one, then a row for each, in the columns of that header. *)
Definition outputOf (csvEncode : list string -> string) (formatFloat : float -> string)
    (formatTime : Time -> string) (e : CSVExporter) (snapshots : list Snapshot) : string :=
  match snapshots with
  | [] => ""
  | first :: _ =>
      csvEncode (headerOf first)
      +:+ concatAll (csvEncode <$> (buildRow formatFloat formatTime (headed first e) <$> snapshots))
  end.

(** The size [writeSnapshot] counts for these rows. *)
Definition countedBytes (formatFloat : float -> string) (formatTime : Time -> string)
    (e : CSVExporter) (snapshots : list Snapshot) : Z :=
  match snapshots with
  | [] => 0
  | first :: _ =>
      foldr (fun row n => rowBytes row + n) 0
            (buildRow formatFloat formatTime (headed first e) <$> snapshots)
  end.

End ExporterRunTerms.

Module CollectorsTerms.

Import Metrics Collector Collectors.

(** Neither negative nor NaN. *)
Definition nonNegative (x : float) : bool := (0 <=? x)%float.

(** The name passes the filter of the collector. *)
Definition monitoredDevice (d : DiskCollector) (name : string) : bool :=
  shouldMonitor (includeDevices d) (excludeDevices d) name.

Definition monitoredInterface (n : NetworkCollector) (name : string) : bool :=
  negb (isLoopback name)
  && shouldMonitor (includeInterfaces n) (excludeInterfaces n) name.

(** The three metrics of a device between two of its snapshots. *)
Definition diskStatsBetween (prev current : DiskIOStats) : DiskStats :=
  mkDiskStats (CalculateDiskUtilization prev current) (CalculateDiskAwait prev current)
              (CalculateDiskIOPS prev current).

Definition netStatsOf (now : Time) (counter : NetCountersStat) : NetworkIOStats :=
  mkNet (nBytesSent counter) (nBytesRecv counter) now.

(** The entry of an interface in the answer of the system. *)
Definition counterOf (counters : list NetCountersStat) (name : string)
  : option NetCountersStat :=
  find (fun counter => String.eqb (nName counter) name) counters.

(** What [Collect] reports for a device, and the snapshot it keeps of it:
    a device is reported when it is in the answer of the system, passes
    the filter and has a snapshot from an earlier call; its snapshot is
    replaced when it is in the answer and passes the filter. *)
Definition reportedDevice (goos : GOOS) (now : Time) (d : DiskCollector)
    (counters : gmap string IOCountersStat) (name : string) : option DiskStats :=
  if diskFirstRun d then None
  else
    counter ← counters !! name;
    prevStats ← diskPrevStats d !! name;
    if monitoredDevice d name
    then Some (diskStatsBetween prevStats (diskStatsOf goos now counter))
    else None.

Definition baselineDevice (goos : GOOS) (now : Time) (d : DiskCollector)
    (counters : gmap string IOCountersStat) (name : string) : option DiskIOStats :=
  match counters !! name with
  | Some counter =>
      if monitoredDevice d name then Some (diskStatsOf goos now counter)
      else diskPrevStats d !! name
  | None => diskPrevStats d !! name
  end.

Definition reportedInterface (now : Time) (n : NetworkCollector)
    (counters : list NetCountersStat) (name : string) : option NetStats :=
  if netFirstRun n then None
  else
    counter ← counterOf counters name;
    prevStats ← netPrevStats n !! name;
    if monitoredInterface n name
    then Some (mkNetStats (CalculateNetworkBandwidth prevStats (netStatsOf now counter)))
    else None.

Definition baselineInterface (now : Time) (n : NetworkCollector)
    (counters : list NetCountersStat) (name : string) : option NetworkIOStats :=
  match counterOf counters name with
  | Some counter =>
      if monitoredInterface n name then Some (netStatsOf now counter)
      else netPrevStats n !! name
  | None => netPrevStats n !! name
  end.

(** The answers of the four collectors in a cycle, as [collectOnce] takes
    them. *)
Definition samplesOf (goos : GOOS) (r : Readings) (m : Manager) : Samples :=
  let cpuAnswer := (CPUCollect goos (rCPUNow r) (rCPUTimes r) (cpu m)).2 in
  mkSamples (sampleOf (cpuAnswer.1, cpuAnswer.2)) (sampleOf (MemoryCollect (rMemory r)))
            (sampleOf (DiskCollect goos (rDiskNow r) (rDiskCounters r) (disk m)).2)
            (sampleOf (NetworkCollect (rNetNow r) (rNetCounters r) (network m)).2).

(** The channel after one more snapshot. *)
Definition sent (ch : Chan) (s : Snapshot) : Chan := mkChan (buf ch ++ [s]) (cap ch).

(** No device of the reading passes the filter of the configuration, and
    likewise no interface. *)
Definition noDeviceMonitored (cfg : Config.Config) (r : Readings) : Prop :=
  forall counters name,
    rDiskCounters r = inr counters -> is_Some (counters !! name) ->
    monitoredDevice (NewDiskCollector (Config.IncludeDisks cfg) (Config.ExcludeDisks cfg))
                    name = false.

Definition noInterfaceMonitored (cfg : Config.Config) (r : Readings) : Prop :=
  forall counters counter,
    rNetCounters r = inr counters -> counter ∈ counters ->
    monitoredInterface
      (NewNetworkCollector (Config.IncludeNetworks cfg) (Config.ExcludeNetworks cfg))
      (nName counter) = false.

(** A configuration that only sets the four filter lists, a reading of one
    disk and two interfaces, and a later one. *)
Definition testConfig (includeDisks excludeDisks includeNetworks excludeNetworks : list string)
  : Config.Config :=
  Config.mkConfig (30 * Config.Second) "out.csv" 100 (5 * Config.Second)
                  includeDisks excludeDisks includeNetworks excludeNetworks
                  "info" "" "" false.

Definition testTimes (idle : float) : TimesStat :=
  mkTimes 10 5 idle 1 0 0 0 0 0.

Definition testReadings (second : Z) (ops bytes : Z) : Readings :=
  let now := mkTime (second * 1000000000) None in
  mkReadings now now (inr [testTimes 100]) (inr (mkVM 512 1024))
             now (inr {[ "sda" := mkIOCounters ops ops ops ops ops ]})
             now (inr [mkNetCounters "lo" bytes bytes; mkNetCounters "eth0" bytes bytes]).

End CollectorsTerms.

Module ConfigTerms.

Import GoStrings Config.

(** A byte of ASCII that [TrimSpace] leaves in place. *)
Definition plainByte (c : ascii) : bool := (byte c <? RuneSelf) && negb (asciiSpace c).

(** A name as the filter flags list them: it has no comma, and its first
    and last bytes are ASCII characters other than spaces. *)
Definition plainName (name : string) : bool :=
  let bytes := list_ascii_of_string name in
  match head bytes, last bytes with
  | Some first, Some final =>
      plainByte first && plainByte final && forallb (fun c => negb (Ascii.eqb c ",")) bytes
  | _, _ => false
  end.

(** A comma or one of the ASCII spaces. *)
Definition blankByte (c : ascii) : bool := Ascii.eqb c "," || asciiSpace c.

Definition noSeparator (s : string) : Prop :=
  Forall (fun c => isSeparator c = false) (list_ascii_of_string s).

(** The directory [ensureOutputDir] looks at: what is in front of the last
    slash or backslash of the path, and the current directory when the
    path has neither. *)
Definition parentOf (path dir : string) : Prop :=
  (noSeparator path /\ dir = ".")
  \/ exists (sep : ascii) (file : string),
       isSeparator sep = true /\ noSeparator file /\ path = dir +:+ String sep file.

(** The conditions of [Validate] before it looks at the directory. *)
Definition wellFormed (LoadLocation : string -> option string) (c : Config) : Prop :=
  1 * Second <= SamplingInterval c <= 1 * Hour
  /\ OutputPath c <> ""
  /\ 1 <= BufferSize c
  /\ 1 * Second <= FlushInterval c
  /\ LogLevel c ∈ ["debug"; "info"; "warn"; "error"]
  /\ (Timezone c = "" \/ LoadLocation (Timezone c) = None).

Definition testConfig (outputPath : string) : Config :=
  mkConfig (30 * Second) outputPath 100 (5 * Second) [] [] [] [] "info" "" "" false.

(** A file system with a directory [/data] and nothing else, the empty
    path naming nothing. *)
Definition testStat (path : string) : statResult :=
  if String.eqb path "/data" then StatInfo true
  else StatError true ("stat " +:+ path +:+ ": no such file or directory").

End ConfigTerms.

(** * Theorems *)

(** ** The delta engine *)

Module MetricsSpec.

Import Metrics.
Import MetricsTerms.

(** *** Facts about binary64 comparison *)

Lemma float_lt_zero_not_le (x : float) :
  (0 <? x)%float = true -> (x <=? 0)%float = false.
Proof.
  rewrite ltb_spec, leb_spec.
  change (Prim2SF 0) with (S754_zero false).
  destruct (Prim2SF x) as [s | s | | s m e]; try destruct s; cbn; congruence.
Qed.

(** *** Modular arithmetic of the unsigned counters *)

Lemma wrap_uint64_idem (z : Z) : wrap_uint64 (wrap_uint64 z) = wrap_uint64 z.
Proof. unfold wrap_uint64. apply Z.mod_mod. lia. Qed.


Lemma wrap_uint64_delta_sum (a b c d : Z) :
  wrap_uint64 (wrap_uint64 (wrap_uint64 (a - b) + wrap_uint64 (c - d)) * 8)
  = ((a - b + c - d) * 8) mod 2 ^ 64.
Proof.
  unfold wrap_uint64.
  rewrite Z.mul_mod_idemp_l by lia.
  rewrite <- (Z.mul_mod_idemp_l (_ + _)) by lia.
  rewrite <- Z.add_mod by lia.
  rewrite Z.mul_mod_idemp_l by lia.
  f_equal. lia.
Qed.

(** C1: with a prior sample, CalculateCPUUtilization is
    100 * (1 - dIdle/dTotal) when dTotal > 0 and 0 when dTotal <= 0, the
    total being the sum of the seven named buckets; on the worked example
    dTotal = 35, dIdle = 10 and the result is 100 * 25 / 35, within 1e-6 of
    71.428571. *)
Theorem C1_cpu_utilization_formula (prev current : CPUTimeStats float) :
  IsZero (cpuTimestamp prev) = false ->
  let total (s : CPUTimeStats float) :=
    (User s + System s + Idle s + IOWait s + Irq s + SoftIrq s + Steal s)%float in
  let deltaTotal := (total current - total prev)%float in
  let deltaIdle := (Idle current - Idle prev)%float in
  ((0 <? deltaTotal)%float = true ->
     CalculateCPUUtilization prev current = (100 * (1 - deltaIdle / deltaTotal))%float)
  /\ ((deltaTotal <=? 0)%float = true -> CalculateCPUUtilization prev current = 0%float)
  /\ (forall tp tc : Time, IsZero tp = false ->
        let p := cpuPrevExample tp in
        let c := cpuCurrExample tc in
        (total c - total p)%float = 35%float
        /\ (Idle c - Idle p)%float = 10%float
        /\ CalculateCPUUtilization p c = (100 * 25 / 35)%float
        /\ (PrimFloat.abs (CalculateCPUUtilization p c - 71428571 / 1000000) <? 1 / 1000000)%float
           = true).
Proof.
  intros Hprior total deltaTotal deltaIdle.
  unfold CalculateCPUUtilization. rewrite Hprior.
  change (cpuTotal current) with (total current).
  change (cpuTotal prev) with (total prev).
  cbn -[total]. unfold PrimFloat.zero.
  fold deltaTotal. fold deltaIdle.
  split; [| split].
  - intros Hpos. rewrite (float_lt_zero_not_le _ Hpos). reflexivity.
  - intros Hle. rewrite Hle. reflexivity.
  - intros tp tc Hz. unfold CalculateCPUUtilization. cbn -[IsZero]. rewrite Hz.
    repeat split; vm_compute; reflexivity.
Qed.

Lemma C1_cpu_utilization_formula_witness :
  IsZero (cpuTimestamp (cpuPrevExample someInstant)) = false
  /\ CalculateCPUUtilization (cpuPrevExample someInstant) (cpuCurrExample secondLater)
     = (100 * (1 - 10 / 35))%float.
Proof.
  split; [reflexivity |].
  apply (C1_cpu_utilization_formula (cpuPrevExample someInstant) (cpuCurrExample secondLater));
    reflexivity.
Defined.

(** C9: with no prior sample every function of the delta engine returns its
    baseline: 0, and -1 for the CPU wait. *)
Theorem C9_no_prior_sample_baseline
    (prevCPU currCPU : CPUTimeStats float) (prevDisk currDisk : DiskIOStats)
    (prevNet currNet : NetworkIOStats) :
  IsZero (cpuTimestamp prevCPU) = true ->
  IsZero (diskTimestamp prevDisk) = true ->
  IsZero (netTimestamp prevNet) = true ->
  CalculateCPUUtilization prevCPU currCPU = 0%float
  /\ CalculateCPUIOWait prevCPU currCPU = (-1)%float
  /\ CalculateDiskUtilization prevDisk currDisk = 0%float
  /\ CalculateDiskAwait prevDisk currDisk = 0%float
  /\ CalculateDiskIOPS prevDisk currDisk = 0%float
  /\ CalculateNetworkBandwidth prevNet currNet = 0%float.
Proof.
  intros Hc Hd Hn.
  unfold CalculateCPUUtilization, CalculateCPUIOWait, CalculateDiskUtilization,
    CalculateDiskAwait, CalculateDiskIOPS, CalculateNetworkBandwidth.
  rewrite Hc, Hd, Hn. repeat split; reflexivity.
Qed.

Lemma C9_no_prior_sample_baseline_witness :
  CalculateCPUIOWait (cpuPrevExample zeroTime) (cpuCurrExample someInstant) = (-1)%float
  /\ CalculateNetworkBandwidth (F := float) (mkNet 0 0 zeroTime) (mkNet 2000 2024 someInstant)
     = 0%float.
Proof.
  pose proof (C9_no_prior_sample_baseline
                (cpuPrevExample zeroTime) (cpuCurrExample someInstant)
                (mkDisk 0 0 0 0 0 zeroTime) (mkDisk 5 5 50 50 100 someInstant)
                (mkNet 0 0 zeroTime) (mkNet 2000 2024 someInstant)
                eq_refl eq_refl eq_refl) as (_ & Hw & _ & _ & _ & Hn).
  exact (conj Hw Hn).
Defined.

(** C10: with a prior sample and a positive time delta the bandwidth is
    float64(((dSent + dRecv) * 8) mod 2^64) / dt, the deltas taken in
    unsigned 64-bit arithmetic; so a counter that went down gives a huge
    positive value, not 0. *)
Theorem C10_network_bandwidth_wraps (prev current : NetworkIOStats) :
  IsZero (netTimestamp prev) = false ->
  let deltaTime : float := Seconds (Sub (netTimestamp current) (netTimestamp prev)) in
  (0 <? deltaTime)%float = true ->
  CalculateNetworkBandwidth prev current
  = (float64_of_Z (((BytesSent current - BytesSent prev
                     + BytesRecv current - BytesRecv prev) * 8) mod 2 ^ 64)
     / deltaTime)%float
  /\ (exists p c : NetworkIOStats,
        is_uint64 (BytesSent p) /\ is_uint64 (BytesRecv p)
        /\ is_uint64 (BytesSent c) /\ is_uint64 (BytesRecv c)
        /\ IsZero (netTimestamp p) = false
        /\ Sub (netTimestamp c) (netTimestamp p) = 1000000000
        /\ BytesSent c < BytesSent p
        /\ CalculateNetworkBandwidth p c = float64_of_Z (2 ^ 64 - 4000)
        /\ (float64_of_Z (10 ^ 19) <? CalculateNetworkBandwidth p c)%float = true).
Proof.
  intros Hprior deltaTime Hpos. split.
  - unfold CalculateNetworkBandwidth. rewrite Hprior.
    cbv zeta. fold deltaTime.
    change (fle deltaTime (of_Z 0)) with (deltaTime <=? 0)%float.
    rewrite (float_lt_zero_not_le _ Hpos).
    rewrite wrap_uint64_delta_sum. reflexivity.
  - exists (mkNet 1000 1000 someInstant), (mkNet 500 1000 secondLater).
    unfold is_uint64. cbn -[Z.pow CalculateNetworkBandwidth float64_of_Z].
    repeat split; try lia; vm_compute; reflexivity.
Qed.

Lemma C10_network_bandwidth_wraps_witness :
  CalculateNetworkBandwidth (F := float) (mkNet 1000 1000 someInstant) (mkNet 2000 2024 secondLater)
  = 16192%float.
Proof.
  destruct (C10_network_bandwidth_wraps
              (mkNet 1000 1000 someInstant) (mkNet 2000 2024 secondLater)
              eq_refl eq_refl) as [Heq _].
  rewrite Heq. vm_compute. reflexivity.
Defined.

End MetricsSpec.

(** ** Binary64 rounding

    What the conversions, the division and the multiplication of
    [SpecFloat] keep of the sign of their operands. *)

Module RoundingSpec.

Import MetricsTerms.

(** *** Signs through the rounding of [SpecFloat] *)

Lemma shr_1_half (mrs : shr_record) :
  0 <= shr_m mrs -> shr_m (shr_1 mrs) = shr_m mrs / 2.
Proof.
  destruct mrs as [m r s]. cbn [shr_m]. intros Hm.
  destruct m as [| p | p]; [reflexivity | | lia].
  destruct p as [p | p |]; cbn [shr_1 shr_m].
  - rewrite Pos2Z.inj_xI. rewrite Z.mul_comm, Z.div_add_l by lia. reflexivity.
  - rewrite Pos2Z.inj_xO. rewrite Z.mul_comm, Z.div_mul by lia. reflexivity.
  - reflexivity.
Qed.

Lemma iter_shr_1_nonneg (p : positive) (mrs : shr_record) :
  0 <= shr_m mrs -> 0 <= shr_m (SpecFloat.iter_pos shr_1 p mrs).
Proof.
  revert mrs. induction p as [p IH | p IH |]; intros mrs Hm; cbn [SpecFloat.iter_pos].
  - apply IH, IH. rewrite shr_1_half by assumption. apply Z.div_pos; lia.
  - apply IH, IH. assumption.
  - rewrite shr_1_half by assumption. apply Z.div_pos; lia.
Qed.

Lemma iter_shr_1_div (p : positive) (mrs : shr_record) :
  0 <= shr_m mrs -> shr_m (SpecFloat.iter_pos shr_1 p mrs) = shr_m mrs / 2 ^ Zpos p.
Proof.
  revert mrs. induction p as [p IH | p IH |]; intros mrs Hm; cbn [SpecFloat.iter_pos].
  - assert (H1 : 0 <= shr_m (shr_1 mrs)) by (rewrite shr_1_half by assumption; apply Z.div_pos; lia).
    rewrite IH by (apply iter_shr_1_nonneg; assumption).
    rewrite IH by assumption. rewrite shr_1_half by assumption.
    rewrite !Z.div_div by lia. f_equal.
    rewrite Pos2Z.inj_xI. rewrite Z.pow_add_r, Z.pow_mul_r by lia.
    change (2 ^ 2) with 4. change (2 ^ 1) with 2.
    replace (4 ^ Z.pos p) with (2 ^ Z.pos p * 2 ^ Z.pos p).
    + lia.
    + rewrite <- Z.pow_add_r by lia. replace (Z.pos p + Z.pos p) with (2 * Z.pos p) by lia.
      rewrite Z.pow_mul_r by lia. reflexivity.
  - rewrite IH by (apply iter_shr_1_nonneg; assumption).
    rewrite IH by assumption.
    rewrite Z.div_div by lia. f_equal.
    rewrite Pos2Z.inj_xO. rewrite <- Z.pow_add_r by lia. f_equal. lia.
  - rewrite shr_1_half by assumption. reflexivity.
Qed.

Lemma shr_nonneg (mrs : shr_record) (e n : Z) :
  0 <= shr_m mrs -> 0 <= shr_m (fst (shr mrs e n)).
Proof.
  intros Hm. destruct n as [| p | p]; cbn [shr fst]; try assumption.
  apply iter_shr_1_nonneg. assumption.
Qed.

Lemma shr_record_of_loc_m (m : Z) (l : location) : shr_m (shr_record_of_loc m l) = m.
Proof. destruct l as [| []]; reflexivity. Qed.

Lemma shr_fexp_nonneg (m e : Z) (l : location) :
  0 <= m -> 0 <= shr_m (fst (shr_fexp prec emax m e l)).
Proof.
  intros Hm. unfold shr_fexp. apply shr_nonneg. rewrite shr_record_of_loc_m. assumption.
Qed.

Lemma round_nearest_even_nonneg (m : Z) (l : location) :
  0 <= m -> 0 <= round_nearest_even m l.
Proof.
  intros Hm. destruct l as [| []]; cbn [round_nearest_even]; try lia.
  destruct (Z.even m); lia.
Qed.

(** Rounding a non-negative mantissa keeps the sign and never yields NaN. *)
Lemma binary_round_aux_signed (sx : bool) (mx ex : Z) (lx : location) :
  0 <= mx -> signedSF sx (binary_round_aux prec emax sx mx ex lx).
Proof.
  intros Hm. unfold binary_round_aux.
  pose proof (shr_fexp_nonneg mx ex lx Hm) as H1.
  destruct (shr_fexp prec emax mx ex lx) as [mrs' e']. cbn [fst] in H1.
  pose proof (shr_fexp_nonneg _ e' loc_Exact
                (round_nearest_even_nonneg _ (loc_of_shr_record mrs') H1)) as H2.
  destruct (shr_fexp prec emax _ e' loc_Exact) as [mrs'' e'']. cbn [fst] in H2.
  destruct (shr_m mrs'') as [| m | m]; [reflexivity | | lia].
  destruct (e'' <=? emax - prec); reflexivity.
Qed.

Lemma binary_round_signed (sx : bool) (mx : positive) (ex : Z) :
  signedSF sx (binary_round prec emax sx mx ex).
Proof.
  unfold binary_round. destruct (shl_align mx ex _) as [mz ez].
  apply binary_round_aux_signed. lia.
Qed.

Lemma binary_normalize_signed (m e : Z) :
  0 <= m -> signedSF false (binary_normalize prec emax m e false).
Proof.
  intros Hm. destruct m as [| p | p]; [reflexivity | | lia].
  apply binary_round_signed.
Qed.

Lemma SFldexp_signed (s : bool) (x : spec_float) (e : Z) :
  signedSF s x -> signedSF s (SFldexp prec emax x e).
Proof.
  destruct x as [s' | s' | | s' m ex]; cbn [signedSF SFldexp]; try tauto.
  intros ->. apply binary_round_signed.
Qed.

Lemma SFmul_signed (x y : spec_float) (m : positive) (e : Z) :
  signedSF false x -> y = S754_finite false m e ->
  signedSF false (SFmul prec emax x y).
Proof.
  intros Hx ->. destruct x as [s | s | | s mx ex]; cbn [signedSF] in Hx; subst; cbn [SFmul xorb].
  - reflexivity.
  - reflexivity.
  - contradiction.
  - apply binary_round_aux_signed. lia.
Qed.

Lemma SFdiv_signed (x : spec_float) (m : positive) (e : Z) :
  signedSF false x ->
  signedSF false (SFdiv prec emax x (S754_finite false m e)).
Proof.
  intros Hx. destruct x as [s | s | | s mx ex]; cbn [signedSF] in Hx; subst; cbn [SFdiv xorb].
  - reflexivity.
  - reflexivity.
  - contradiction.
  - unfold SFdiv_core_binary.
    set (m' := match _ - _ - _ with Z0 => _ | Zpos _ => _ | Zneg _ => _ end).
    assert (Hm' : 0 <= m').
    { unfold m'. destruct (_ - _ - _) as [| p | p]; try lia.
      apply Z.shiftl_nonneg. lia. }
    pose proof (Z_div_mod m' (Zpos m) ltac:(lia)) as Hdiv.
    destruct (Z.div_eucl m' (Zpos m)) as [q r].
    apply binary_round_aux_signed.
    destruct Hdiv as [Heq Hr]. nia.
Qed.


(** *** Conversions of positive integers are finite and not zero *)

Lemma digits2_pos_bounds (p : positive) :
  2 ^ (Zpos (digits2_pos p) - 1) <= Zpos p < 2 ^ Zpos (digits2_pos p).
Proof.
  induction p as [p IH | p IH |]; cbn [digits2_pos].
  - rewrite Pos2Z.inj_succ, Pos2Z.inj_xI.
    replace (Z.succ (Z.pos (digits2_pos p)) - 1) with (Z.succ (Z.pos (digits2_pos p) - 1)) by lia.
    rewrite !Z.pow_succ_r by lia.
    destruct IH as [IHl IHu]. revert IHl IHu.
    generalize (2 ^ (Z.pos (digits2_pos p) - 1)) (2 ^ Z.pos (digits2_pos p)). lia.
  - rewrite Pos2Z.inj_succ. change (Z.pos p~0) with (2 * Z.pos p).
    replace (Z.succ (Z.pos (digits2_pos p)) - 1) with (Z.succ (Z.pos (digits2_pos p) - 1)) by lia.
    rewrite !Z.pow_succ_r by lia.
    destruct IH as [IHl IHu]. revert IHl IHu.
    generalize (2 ^ (Z.pos (digits2_pos p) - 1)) (2 ^ Z.pos (digits2_pos p)). lia.
  - cbn. lia.
Qed.

Lemma digits2_pos_le (p : positive) (n : Z) :
  0 <= n -> Zpos p < 2 ^ n -> Zpos (digits2_pos p) <= n.
Proof.
  intros Hn Hp. pose proof (digits2_pos_bounds p) as [Hlow _].
  destruct (Z.le_gt_cases (Zpos (digits2_pos p)) n) as [Hle | Hgt]; [assumption |].
  assert (2 ^ n <= 2 ^ (Zpos (digits2_pos p) - 1)) by (apply Z.pow_le_mono_r; lia).
  lia.
Qed.

Lemma iter_xO_value (p k : positive) : Zpos (Pos.iter xO p k) = Zpos p * 2 ^ Zpos k.
Proof.
  revert p. induction k as [| k IH] using Pos.peano_ind; intros p.
  - cbn. lia.
  - rewrite Pos.iter_succ, Pos2Z.inj_xO, IH, Pos2Z.inj_succ, Z.pow_succ_r by lia. lia.
Qed.

(** The shift [shr_fexp] applies to a positive mantissa stops short of its
    digits: the result is positive, the exponent grows by the digits above
    the precision. *)
Lemma shr_fexp_pos (p : positive) (e : Z) (l : location) :
  -1074 <= e ->
  0 < shr_m (fst (shr_fexp prec emax (Zpos p) e l)) <= Zpos p
  /\ e <= snd (shr_fexp prec emax (Zpos p) e l)
          <= e + Z.max 0 (Zpos (digits2_pos p) - 53).
Proof.
  intros He. unfold shr_fexp, fexp, emin. cbn [Zdigits2].
  change (3 - emax - prec) with (-1074). change prec with 53.
  pose proof (digits2_pos_bounds p) as [Hlow Hup].
  set (d := Zpos (digits2_pos p)) in *.
  destruct (Z.max (d + e - 53) (-1074) - e) as [| k | k] eqn:Hn; cbn [shr fst snd].
  - rewrite shr_record_of_loc_m. lia.
  - assert (Hk : Zpos k = d - 53) by lia.
    rewrite iter_shr_1_div by (rewrite shr_record_of_loc_m; lia).
    rewrite shr_record_of_loc_m. split; [split |].
    + apply Z.div_str_pos. split; [lia |].
      apply Z.le_trans with (2 ^ (d - 1)); [apply Z.pow_le_mono_r; lia | assumption].
    + apply Z.div_le_upper_bound; [lia |].
      assert (1 <= 2 ^ Zpos k) by (apply Z.pow_le_mono_r with (b := 0); lia).
      nia.
    + lia.
  - rewrite shr_record_of_loc_m. lia.
Qed.

Lemma round_nearest_even_bounds (m : Z) (l : location) :
  m <= round_nearest_even m l <= m + 1.
Proof.
  destruct l as [| []]; cbn [round_nearest_even]; try lia.
  destruct (Z.even m); lia.
Qed.

Lemma binary_round_aux_finite (sx : bool) (p : positive) (ex : Z) :
  -1074 <= ex <= 0 -> Zpos p < 2 ^ 200 ->
  exists m e, binary_round_aux prec emax sx (Zpos p) ex loc_Exact = S754_finite sx m e.
Proof.
  intros Hex Hp. unfold binary_round_aux.
  pose proof (shr_fexp_pos p ex loc_Exact ltac:(lia)) as [[H1 H1'] H1e].
  pose proof (digits2_pos_le p 200 ltac:(lia) Hp) as Hd.
  destruct (shr_fexp prec emax (Zpos p) ex loc_Exact) as [mrs' e']. cbn [fst snd] in *.
  pose proof (round_nearest_even_bounds (shr_m mrs') (loc_of_shr_record mrs')) as Hr.
  destruct (round_nearest_even (shr_m mrs') (loc_of_shr_record mrs')) as [| q | q] eqn:Hq;
    [lia | | lia].
  pose proof (shr_fexp_pos q e' loc_Exact ltac:(lia)) as [[H2 _] H2e].
  assert (Hq200 : Zpos q < 2 ^ 201).
  { apply Z.le_lt_trans with (2 ^ 200); [lia |]. apply Z.pow_lt_mono_r; lia. }
  pose proof (digits2_pos_le q 201 ltac:(lia) Hq200) as Hdq.
  destruct (shr_fexp prec emax (Zpos q) e' loc_Exact) as [mrs'' e'']. cbn [fst snd] in *.
  destruct (shr_m mrs'') as [| m | m]; [lia | | lia].
  exists m, e''.
  replace (e'' <=? emax - prec) with true; [reflexivity |].
  symmetry. apply Z.leb_le. change (emax - prec) with 971. lia.
Qed.

(** The conversion of a positive 64-bit integer is a positive finite
    number. *)
Lemma binary_normalize_finite (z : Z) :
  0 < z < 2 ^ 64 ->
  exists m e, binary_normalize prec emax z 0 false = S754_finite false m e.
Proof.
  intros Hz. destruct z as [| p | p]; [lia | | lia].
  cbn [binary_normalize]. unfold binary_round.
  pose proof (digits2_pos_le p 64 ltac:(lia) ltac:(lia)) as Hd.
  assert (Hfexp : -1074 <= fexp prec emax (Zpos (digits2_pos p) + 0)
                  /\ -52 <= fexp prec emax (Zpos (digits2_pos p) + 0)).
  { unfold fexp, emin. change (3 - emax - prec) with (-1074). change prec with 53. lia. }
  unfold shl_align.
  destruct (fexp prec emax (Zpos (digits2_pos p) + 0) - 0) as [| k | k] eqn:Hk.
  - apply binary_round_aux_finite; [lia |].
    apply Z.lt_trans with (2 ^ 64); [lia | apply Z.pow_lt_mono_r; lia].
  - apply binary_round_aux_finite; [lia |].
    apply Z.lt_trans with (2 ^ 64); [lia | apply Z.pow_lt_mono_r; lia].
  - apply binary_round_aux_finite; [lia |].
    rewrite iter_xO_value.
    assert (Zpos k <= 52) by lia.
    assert (2 ^ Zpos k <= 2 ^ 52) by (apply Z.pow_le_mono_r; lia).
    assert (0 < 2 ^ Zpos k) by (apply Z.pow_pos_nonneg; lia).
    apply Z.lt_le_trans with (2 ^ 64 * 2 ^ 52); [nia |].
    rewrite <- Z.pow_add_r by lia. apply Z.pow_le_mono_r; lia.
Qed.

(** *** From [SpecFloat] to the machine numbers *)

(** An integer below 2^63 converts as the processor converts it. *)
Lemma float64_of_Z_small (z : Z) :
  0 <= z < 2 ^ 63 -> Prim2SF (float64_of_Z z) = binary_normalize prec emax z 0 false.
Proof.
  intros Hz. unfold float64_of_Z.
  assert (Heq : binary_normalize prec emax z 0 false
                = Prim2SF (of_uint63 (Uint63.of_Z z))).
  { rewrite of_uint63_spec, Uint63.of_Z_spec.
    rewrite Z.mod_small; [reflexivity |]. exact Hz. }
  rewrite Heq, SF2Prim_Prim2SF. reflexivity.
Qed.

(** The conversion of a non-negative integer is never negative and never
    NaN. *)
Lemma float64_of_Z_signed (z : Z) :
  0 <= z -> signedSF false (Prim2SF (float64_of_Z z)).
Proof.
  intros Hz. unfold float64_of_Z.
  pose proof (binary_normalize_signed z 0 Hz) as Hs.
  destruct (binary_normalize prec emax z 0 false) as [s | s | | s m e];
    cbn [signedSF] in Hs; subst.
  - reflexivity.
  - reflexivity.
  - contradiction.
  - cbn [SF2Prim]. rewrite Z_ldexp_spec, of_uint63_spec.
    apply SFldexp_signed, binary_normalize_signed.
    pose proof (Uint63.to_Z_bounded (Uint63.of_Z (Z.pos m))). lia.
Qed.

(** A busy fraction times one hundred: zero, finite or infinite, and not
    negative. *)
Lemma ratio_times_100_signed (a b : Z) :
  0 <= a -> 0 < b < 2 ^ 63 ->
  signedSF false (Prim2SF (float64_of_Z a / float64_of_Z b * 100)%float).
Proof.
  intros Ha Hb.
  rewrite FloatAxioms.mul_spec, FloatAxioms.div_spec.
  rewrite (float64_of_Z_small b) by lia.
  destruct (binary_normalize_finite b) as (m & e & ->).
  { split; [lia |]. apply Z.lt_trans with (2 ^ 63); [lia | reflexivity]. }
  eapply SFmul_signed.
  - apply SFdiv_signed, float64_of_Z_signed. exact Ha.
  - reflexivity.
Qed.

(** What is not above 100, not negative and not NaN is a percentage. *)
Lemma signed_not_above_100 (x : float) :
  signedSF false (Prim2SF x) -> (100 <? x)%float = false ->
  (0 <=? x)%float = true /\ (x <=? 100)%float = true.
Proof.
  rewrite FloatAxioms.ltb_spec, !FloatAxioms.leb_spec.
  change (Prim2SF 100) with (S754_finite false 7036874417766400 (-46)).
  change (Prim2SF 0) with (S754_zero false).
  destruct (Prim2SF x) as [s | s | | s m e]; cbn [signedSF]; intros Hs Hlt; subst.
  - split; reflexivity.
  - discriminate.
  - contradiction.
  - split; [reflexivity |].
    unfold SFltb, SFleb in *. cbn [SFcompare] in *.
    rewrite (Z.compare_antisym e (-46)) in Hlt.
    destruct (e ?= -46) eqn:He; cbn [CompOpp] in Hlt; try reflexivity; try discriminate.
    pose proof (Pos.compare_cont_antisym m 7036874417766400 Eq) as Hanti.
    change (CompOpp Eq) with Eq in Hanti. rewrite <- Hanti in Hlt.
    destruct (Pos.compare_cont Eq m 7036874417766400); cbn [CompOpp] in Hlt;
      try reflexivity; discriminate.
Qed.

End RoundingSpec.

Module PercentSpec.

Import Metrics.
Import MetricsTerms.
Import RoundingSpec.

(** *** Exact arithmetic *)








(** *** Binary64 *)

Lemma Milliseconds_Sub_bound (t u : Time) : Milliseconds (Sub t u) < 2 ^ 63.
Proof.
  assert (Hs : forall d, saturate d <= 2 ^ 63 - 1).
  { intros d. unfold saturate, minDuration, maxDuration.
    destruct (Z.ltb_spec d (- 2 ^ 63)); [lia |].
    destruct (Z.ltb_spec (2 ^ 63 - 1) d); lia. }
  unfold Milliseconds.
  assert (Hq : forall d, d <= 2 ^ 63 - 1 -> Z.quot d 1000000 < 2 ^ 63).
  { intros d Hd. destruct (Z.le_gt_cases 0 d) as [Hpos | Hneg].
    - rewrite Z.quot_div_nonneg by lia.
      apply Z.le_lt_trans with d; [| lia].
      apply Z.div_le_upper_bound; lia.
    - apply Z.le_lt_trans with 0; [| lia].
      apply Z.quot_le_upper_bound; lia. }
  apply Hq. unfold Sub. destruct (mono_ns t), (mono_ns u); apply Hs.
Qed.

(** In binary64, for every pair of snapshots, CalculateDiskUtilization is
    a percentage. *)
Lemma disk_utilization_percent (prev current : DiskIOStats) :
  isPercent (CalculateDiskUtilization (F := float) prev current) = true.
Proof.
  unfold CalculateDiskUtilization.
  destruct (IsZero (diskTimestamp prev)); [reflexivity |].
  pose proof (Milliseconds_Sub_bound (diskTimestamp current) (diskTimestamp prev)) as Hms.
  destruct (Z.leb_spec (Milliseconds (Sub (diskTimestamp current) (diskTimestamp prev))) 0)
    as [Hle | Hpos]; [reflexivity |].
  cbv zeta. cbn [of_Z flt fdiv fmul ieee].
  set (u := (float64_of_Z _ / float64_of_Z _ * float64_of_Z 100)%float).
  destruct (100 <? u)%float eqn:Hu.
  - change (float64_of_Z 100 <? u)%float with (100 <? u)%float. rewrite Hu. reflexivity.
  - change (float64_of_Z 100 <? u)%float with (100 <? u)%float. rewrite Hu.
    destruct (signed_not_above_100 u) as [H0 H100]; [| exact Hu |].
    + apply ratio_times_100_signed; [| lia].
      unfold wrap_uint64. apply Z.mod_pos_bound. lia.
    + unfold isPercent. cbn [of_Z fle ieee].
      change (float64_of_Z 0) with 0%float. change (float64_of_Z 100) with 100%float.
      rewrite H0, H100. reflexivity.
Qed.






End PercentSpec.

Module StoreSpec.

Import Server.
Import ServerTerms.

(** *** sort.Search *)




Lemma splitsAt_unique (n : Z) (f : Z -> bool) (i j : Z) :
  splitsAt n f i -> splitsAt n f j -> i = j.
Proof.
  intros (Hi & Hil & Hih) (Hj & Hjl & Hjh).
  destruct (Z.lt_trichotomy i j) as [Hlt | [Heq | Hgt]]; [| assumption |].
  - specialize (Hih i ltac:(lia)). specialize (Hjl i ltac:(lia)). congruence.
  - specialize (Hjh j ltac:(lia)). specialize (Hil j ltac:(lia)). congruence.
Qed.

(** *** Slices *)

Lemma index_lookup {A : Type} (l : list A) (i : Z) :
  0 <= i -> index l i = l !! Z.to_nat i.
Proof. intros Hi. unfold index. destruct (Z.ltb_spec i 0); [lia | reflexivity]. Qed.


Section Between.

Context {A : Type} (P : A -> Prop) `{!forall x, Decision (P x)}.


Lemma filter_every (l : list A) : Forall P l -> filter P l = l.
Proof.
  induction 1 as [| x l Hx _ IH]; [reflexivity |].
  rewrite filter_cons_True by assumption. f_equal. exact IH.
Qed.



End Between.

(** *** The two searches of [GetColumnData] *)





(** *** The branch that returns every point *)


Lemma Forall_sublist {A : Type} (P : A -> Prop) (l1 l2 : list A) :
  l1 `sublist_of` l2 -> Forall P l2 -> Forall P l1.
Proof.
  induction 1 as [| x l1 l2 Hsub IH | x l1 l2 Hsub IH]; intros Hall.
  - constructor.
  - apply Forall_cons in Hall as [Hx Hall]. constructor; auto.
  - apply Forall_cons in Hall as [_ Hall]. auto.
Qed.




(** *** The query on a range of at most [maxPoints] points *)

Section Query.

Variables (ts : list Z) (timeFrom timeTo : option Time).
Hypothesis Hsorted : Sorted Z.le ts.
Hypothesis Hfits : Z.of_nat (length ts) < 2 ^ 63.





Let r : Z := startIndex ts timeFrom.
Let e : Z := endIndex ts timeTo.




Variable vals : list float.
Hypothesis Hlen : length vals = length ts.



End Query.






End StoreSpec.

Module DownsampleSpec.

Import Server.
Import ServerTerms.
Import StoreSpec.

(** *** Buckets, as the specification words them *)

Lemma bucketSum_slice (vals : list float) :
  forall (k : nat) (pStart : Z) (sum : float) (count : Z),
    0 <= pStart -> pStart + Z.of_nat k <= Z.of_nat (length vals) ->
    bucketSum vals (seqZ pStart (Z.of_nat k)) sum count
    = Some (foldl PrimFloat.add sum (bucketValues vals pStart (pStart + Z.of_nat k)),
            count + Z.of_nat (length (bucketValues vals pStart (pStart + Z.of_nat k)))).
Proof.
  unfold bucketValues.
  induction k as [| k IH]; intros pStart sum count Hp Hk.
  - replace (Z.to_nat (pStart + Z.of_nat 0 - pStart)) with 0%nat by lia.
    rewrite take_0, seqZ_nil by lia. cbn. rewrite Z.add_0_r. reflexivity.
  - rewrite seqZ_cons by lia.
    replace (Z.pred (Z.of_nat (S k))) with (Z.of_nat k) by lia.
    destruct (lookup_lt_is_Some_2 vals (Z.to_nat pStart)) as [v Hv]; [lia |].
    replace (Z.to_nat (pStart + Z.of_nat (S k) - pStart)) with (S k) by lia.
    rewrite (drop_S _ _ _ Hv). cbn [take bucketSum].
    rewrite index_lookup by lia. rewrite Hv. cbn [mbind option_bind].
    specialize (IH (Z.succ pStart)).
    replace (Z.to_nat (Z.succ pStart + Z.of_nat k - Z.succ pStart)) with k in IH by lia.
    replace (Z.to_nat (Z.succ pStart)) with (S (Z.to_nat pStart)) in IH by lia.
    destruct (PrimFloat.is_nan v) eqn:Hnan; cbn [negb].
    + rewrite filter_cons_False by congruence. apply IH; lia.
    + rewrite filter_cons_True by assumption. rewrite IH by lia.
      cbn [foldl length]. do 2 f_equal. lia.
Qed.

Lemma omap_cons {A B : Type} (f : A -> option B) (x : A) (l : list A) :
  omap f (x :: l) = match f x with Some y => y :: omap f l | None => omap f l end.
Proof. reflexivity. Qed.

(** The loop over the buckets yields, bucket by bucket, what the
    specification says a bucket contributes. *)
Lemma downsample_buckets (ts : list Z) (vals : list float) (startIdx endIdx : Z)
    (bucketSize : float) (buckets : list Z) :
  length vals = length ts ->
  Forall (fun i => 0 <= bucketStart startIdx bucketSize i
                   /\ bucketEnd startIdx endIdx bucketSize i <= Z.of_nat (length ts)) buckets ->
  downsample ts vals startIdx endIdx bucketSize buckets
  = Some (omap (fun i => bucketPoint ts vals (bucketStart startIdx bucketSize i)
                                     (bucketEnd startIdx endIdx bucketSize i)) buckets).
Proof.
  intros Hlen Hall. induction Hall as [| i buckets [Hs He] _ IH]; [reflexivity |].
  cbn [downsample]. rewrite omap_cons. cbn beta.
  set (pStart := bucketStart startIdx bucketSize i) in *.
  set (pEnd := bucketEnd startIdx endIdx bucketSize i) in *.
  unfold bucketPoint at 1.
  destruct (Z.leb_spec pEnd pStart) as [Hle | Hlt].
  - rewrite decide_True by assumption. exact IH.
  - rewrite decide_False by lia.
    destruct (lookup_lt_is_Some_2 ts (Z.to_nat pStart)) as [t Ht]; [lia |].
    unfold timestampAt. rewrite index_lookup by lia. rewrite Ht. cbn [mbind option_bind default].
    replace (pEnd - pStart) with (Z.of_nat (Z.to_nat (pEnd - pStart))) by lia.
    rewrite bucketSum_slice by lia.
    replace (pStart + Z.of_nat (Z.to_nat (pEnd - pStart))) with pEnd by lia.
    cbn [mbind option_bind]. rewrite IH. cbn [mbind option_bind].
    destruct (bucketValues vals pStart pEnd) as [| v vs] eqn:Hvs.
    + reflexivity.
    + replace (0 <? 0 + Z.of_nat (length (v :: vs))) with true
        by (symmetry; apply Z.ltb_lt; cbn [length]; lia).
      unfold average. rewrite Z.add_0_l. reflexivity.
Qed.

(** When no value is NaN every bucket that is not empty contributes. *)
Lemma bucketPoint_all_numbers (ts : list Z) (vals : list float) (pStart pEnd : Z) :
  Forall (fun v => PrimFloat.is_nan v = false) vals ->
  0 <= pStart < pEnd -> pEnd <= Z.of_nat (length vals) ->
  is_Some (bucketPoint ts vals pStart pEnd).
Proof.
  intros Hnum Hp He. unfold bucketPoint, bucketValues.
  rewrite decide_False by lia.
  rewrite filter_every.
  - destruct (lookup_lt_is_Some_2 vals (Z.to_nat pStart)) as [v Hv]; [lia |].
    rewrite (drop_S _ _ _ Hv).
    replace (Z.to_nat (pEnd - pStart)) with (S (Z.to_nat (pEnd - pStart - 1))) by lia.
    cbn [take]. eauto.
  - eapply Forall_sublist; [| exact Hnum].
    etrans; [apply sublist_take | apply sublist_drop].
Qed.

Lemma length_omap_all {A B : Type} (f : A -> option B) (l : list A) :
  Forall (fun x => is_Some (f x)) l -> length (omap f l) = length l.
Proof.
  induction 1 as [| x l [y Hy] _ IH]; [reflexivity |].
  rewrite omap_cons, Hy. cbn [length]. f_equal. exact IH.
Qed.

(** A full-range query over 2500 rows none of whose values is NaN returns
    exactly 2000 points. *)
Lemma query_2500_rows (s : CSVDataService) (fileID columnName : string)
    (colsData : ColumnData) (values : list float) :
  columnData s !! fileID = Some colsData ->
  Values colsData !! columnName = Some values ->
  length (Timestamps colsData) = 2500%nat -> length values = 2500%nat ->
  Forall (fun v => PrimFloat.is_nan v = false) values ->
  exists pts, GetColumnData s fileID columnName None None = Ok pts
              /\ length pts = 2000%nat.
Proof.
  intros Hcd Hvals Hts Hlen Hnum.
  unfold GetColumnData. rewrite Hcd, Hvals. cbn [startIndex endIndex]. rewrite Hts.
  change (Z.of_nat 2500 <=? 0) with false.
  change (Z.of_nat 2500 - 0 <=? maxPoints) with false. cbv iota zeta.
  change (float64_of_Z (Z.of_nat 2500 - 0) / float64_of_Z maxPoints)%float with 1.25%float.
  assert (Hb : Forall (fun i => 0 <= bucketStart 0 1.25 i < bucketEnd 0 (Z.of_nat 2500) 1.25 i
                                /\ bucketEnd 0 (Z.of_nat 2500) 1.25 i <= 2500)
                      (seqZ 0 maxPoints)).
  { apply (bool_decide_unpack _). vm_compute. exact I. }
  rewrite downsample_buckets.
  - eexists. split; [reflexivity |].
    rewrite length_omap_all; [vm_compute; reflexivity |].
    eapply Forall_impl; [exact Hb |]. intros i [Hi He]. cbn beta in *.
    apply bucketPoint_all_numbers; [assumption | lia | lia].
  - lia.
  - rewrite Hts. eapply Forall_impl; [exact Hb |]. intros i [Hi He]. cbn beta in *. lia.
Qed.

(** *** The last sample of a range of 2002 points *)

(** C4 fails on the code by a rounding slip: for a range of 2002 points the
    bucket size 2002/2000 rounds down, 2000 times it is just under 2002,
    and the last bucket ends at index 2001.  The last raw sample belongs to
    no bucket: a column whose only number is its last value yields no point
    at all, and on the ramp the last point is the lone sample 2000. *)
Theorem C4_last_sample_in_no_bucket :
  let bucketSize := (float64_of_Z 2002 / float64_of_Z maxPoints)%float in
  bucketEnd 0 2002 bucketSize (maxPoints - 1) = 2001
  /\ forallb (fun i => bucketEnd 0 2002 bucketSize i <=? 2001) (seqZ 0 maxPoints) = true
  /\ bucketValues (replicate 2001 PrimFloat.nan ++ [5%float]) 2001 2002 = [5%float]
  /\ GetColumnData rows2002 "f" "Val" None None = Ok []
  /\ pointCount (GetColumnData ramp2002 "f" "Val" None None) = Some 2000%nat
  /\ (match GetColumnData ramp2002 "f" "Val" None None with
      | Ok pts => last pts
      | _ => None
      end) = Some (mkDataPoint (timeUnix 2000) 2000%float).
Proof.
  cbv zeta. split; [| split; [| split; [| split; [| split]]]]; vm_compute; reflexivity.
Qed.

End DownsampleSpec.

Module CapacitySpec.

Import Server.
Import ServerTerms.

(** *** The count of loaded entries *)

Lemma loadedCount_bounds (s : CSVDataService) :
  0 <= loadedCount s <= Z.of_nat (size (files s)).
Proof.
  unfold loadedCount.
  apply (map_fold_weak_ind (fun (r : Z) (m : gmap string CSVFile) => 0 <= r <= Z.of_nat (size m))).
  - rewrite map_size_empty. lia.
  - intros i f m r Hi Hr. rewrite map_size_insert_None by assumption.
    destruct (IsLoaded f); lia.
Qed.

Section Cap.

Variable processCSVFile : string -> string -> string -> error + (ColumnData * CSVFile).

(** With [MaxFiles] entries loaded, [LoadFile] fails and changes nothing. *)
Lemma LoadFile_at_cap (s : CSVDataService) (id name path : string) :
  MaxFiles <= loadedCount s ->
  LoadFile processCSVFile s id name path = (s, Some ErrMaxFiles).
Proof.
  intros Hcap. pose proof (loadedCount_bounds s) as Hb. unfold LoadFile.
  destruct (Z.leb_spec MaxFiles (Z.of_nat (size (files s)))); [reflexivity | lia].
Qed.

(** With [MaxFiles] entries loaded, [LoadFileContent] of an entry that is
    not loaded fails and changes nothing. *)
Lemma LoadFileContent_at_cap (s : CSVDataService) (id : string) (fileMeta : CSVFile) :
  files s !! id = Some fileMeta -> IsLoaded fileMeta = false ->
  MaxFiles <= loadedCount s ->
  LoadFileContent processCSVFile s id = (s, Some ErrMaxLoaded).
Proof.
  intros Hid Hl Hcap. unfold LoadFileContent. rewrite Hid, Hl.
  destruct (Z.leb_spec MaxFiles (loadedCount s)); [reflexivity | lia].
Qed.

(** A call that returns an error leaves both maps as they were. *)
Lemma LoadFile_error_unchanged (s : CSVDataService) (id name path : string) (err : error) :
  snd (LoadFile processCSVFile s id name path) = Some err ->
  fst (LoadFile processCSVFile s id name path) = s.
Proof.
  unfold LoadFile. destruct (MaxFiles <=? Z.of_nat (size (files s))); [reflexivity |].
  destruct (processCSVFile id name path) as [e | [cols meta]]; [reflexivity |].
  destruct (MaxFiles <=? loadedCount s); [reflexivity | discriminate].
Qed.

Lemma LoadFileContent_error_unchanged (s : CSVDataService) (id : string) (err : error) :
  snd (LoadFileContent processCSVFile s id) = Some err ->
  fst (LoadFileContent processCSVFile s id) = s.
Proof.
  unfold LoadFileContent. destruct (files s !! id) as [fileMeta |]; [| reflexivity].
  destruct (IsLoaded fileMeta); [reflexivity |].
  destruct (MaxFiles <=? loadedCount s); [reflexivity |].
  destruct (processCSVFile id (Name fileMeta) (Path fileMeta)) as [e | [cols meta]];
    [reflexivity | discriminate].
Qed.

(** [LoadFileContent] counts loaded entries only: below the cap it loads,
    however many entries are registered. *)
Lemma LoadFileContent_below_cap (s : CSVDataService) (id : string) (fileMeta : CSVFile)
    (parsedCols : ColumnData) (newMeta : CSVFile) :
  files s !! id = Some fileMeta -> IsLoaded fileMeta = false ->
  loadedCount s < MaxFiles ->
  processCSVFile id (Name fileMeta) (Path fileMeta) = inr (parsedCols, newMeta) ->
  LoadFileContent processCSVFile s id
  = (mkService (<[id := setIsLoaded true newMeta]> (files s))
               (<[id := parsedCols]> (columnData s)), None).
Proof.
  intros Hid Hl Hcap Hproc. unfold LoadFileContent. rewrite Hid, Hl.
  destruct (Z.leb_spec MaxFiles (loadedCount s)); [lia |].
  rewrite Hproc. reflexivity.
Qed.

(** [LoadFile] loads while the map holds fewer than [MaxFiles] entries of
    either kind. *)
Lemma LoadFile_below_size (s : CSVDataService) (id name path : string)
    (parsedCols : ColumnData) (fileMeta : CSVFile) :
  Z.of_nat (size (files s)) < MaxFiles ->
  processCSVFile id name path = inr (parsedCols, fileMeta) ->
  LoadFile processCSVFile s id name path
  = (mkService (<[id := setIsLoaded true fileMeta]> (files s))
               (<[id := parsedCols]> (columnData s)), None).
Proof.
  intros Hsize Hproc. pose proof (loadedCount_bounds s) as Hb. unfold LoadFile.
  destruct (Z.leb_spec MaxFiles (Z.of_nat (size (files s)))); [lia |].
  rewrite Hproc.
  destruct (Z.leb_spec MaxFiles (loadedCount s)); [lia | reflexivity].
Qed.

End Cap.

(** C5 fails on the code for [LoadFile]: its first check compares the size
    of the whole file map, registered entries included, with the cap.  With
    twenty entries registered and none loaded it refuses to load a file,
    whatever the parser would return, while [LoadFileContent], which counts
    loaded entries, loads one of the twenty. *)
Theorem C5_LoadFile_counts_registered_entries
    (processCSVFile : string -> string -> string -> error + (ColumnData * CSVFile))
    (id name path : string) :
  size (files registered20) = 20%nat
  /\ loadedCount registered20 = 0
  /\ LoadFile processCSVFile registered20 id name path = (registered20, Some ErrMaxFiles)
  /\ Error ErrMaxFiles = "maximum number of files reached (20), please delete some files first"
  /\ (forall parsedCols newMeta,
        processCSVFile "file_0" "file_0" "dummy.csv" = inr (parsedCols, newMeta) ->
        snd (LoadFileContent processCSVFile registered20 "file_0") = None).
Proof.
  split; [vm_compute; reflexivity |].
  split; [vm_compute; reflexivity |].
  split; [vm_compute; reflexivity |].
  split; [vm_compute; reflexivity |].
  intros parsedCols newMeta Hproc.
  rewrite (LoadFileContent_below_cap processCSVFile registered20 "file_0"
             (mkCSVFile "file_0" "file_0" "dummy.csv" [] 0 zeroTime zeroTime false)
             parsedCols newMeta); [reflexivity | | | |].
  - vm_compute. reflexivity.
  - reflexivity.
  - vm_compute. reflexivity.
  - exact Hproc.
Qed.

Lemma C5_LoadFile_counts_registered_entries_witness :
  LoadFile parseOneRow registered20 "overflow" "overflow" "dummy.csv"
  = (registered20, Some ErrMaxFiles)
  /\ snd (LoadFileContent parseOneRow registered20 "file_0") = None.
Proof.
  destruct (C5_LoadFile_counts_registered_entries parseOneRow "overflow" "overflow" "dummy.csv")
    as (_ & _ & Hload & _ & Hcontent).
  split; [exact Hload |]. eapply Hcontent. reflexivity.
Defined.

(** *** Delete *)

(** C6, as stated, fails: deleting an id the store does not know returns
    the error "file not found". *)
Lemma C6_delete_unknown_returns_error :
  files NewCSVDataService !! "nonexistent_id" = None
  /\ DeleteFile NewCSVDataService "nonexistent_id"
     = (NewCSVDataService, Some (ErrFileNotFound "nonexistent_id"))
  /\ Error (ErrFileNotFound "nonexistent_id") = "file not found: nonexistent_id".
Proof. split; [| split]; reflexivity. Qed.

(** C6 (amended): for an id the store does not hold, DeleteFile returns the
    error "file not found" and leaves the store as it was; the delete
    handler drops that error and answers 204.  For an id the store holds,
    DeleteFile returns no error and removes the metadata entry and the
    columnar data of that id, and of no other. *)
Theorem C6_delete_file (s : CSVDataService) (id : string) :
  (files s !! id = None ->
     DeleteFile s id = (s, Some (ErrFileNotFound id))
     /\ handleDeleteFile s id = (s, StatusNoContent))
  /\ (forall fileMeta, files s !! id = Some fileMeta ->
        exists s', DeleteFile s id = (s', None)
                   /\ handleDeleteFile s id = (s', StatusNoContent)
                   /\ files s' !! id = None
                   /\ columnData s' !! id = None
                   /\ (forall other, other <> id ->
                         files s' !! other = files s !! other
                         /\ columnData s' !! other = columnData s !! other)).
Proof.
  split.
  - intros Hnone. unfold handleDeleteFile, DeleteFile. rewrite Hnone. split; reflexivity.
  - intros fileMeta Hsome. unfold handleDeleteFile, DeleteFile. rewrite Hsome.
    eexists. split; [reflexivity |]. split; [reflexivity |]. cbn [files columnData].
    split; [apply lookup_delete_eq |]. split; [apply lookup_delete_eq |].
    intros other Hne. split; apply lookup_delete_ne; congruence.
Qed.

Lemma C6_delete_file_witness :
  DeleteFile (RegisterFile NewCSVDataService "a" "a.csv" "/tmp/a.csv") "b"
  = (RegisterFile NewCSVDataService "a" "a.csv" "/tmp/a.csv", Some (ErrFileNotFound "b")).
Proof.
  destruct (C6_delete_file (RegisterFile NewCSVDataService "a" "a.csv" "/tmp/a.csv") "b")
    as [Hunknown _].
  apply Hunknown. vm_compute. reflexivity.
Defined.

End CapacitySpec.

Module ExporterSpec.

Import Metrics.
Import MetricsTerms.
Import Exporter.
Import ExporterTerms.

(** *** Paths of rotated files *)

Lemma string_app_cons (c : ascii) (s1 s2 : string) :
  String c s1 +:+ s2 = String c (s1 +:+ s2).
Proof. reflexivity. Qed.

Lemma string_length_app (s1 s2 : string) :
  String.length (s1 +:+ s2) = (String.length s1 + String.length s2)%nat.
Proof.
  induction s1 as [| c s1 IH]; [reflexivity |].
  rewrite string_app_cons. cbn [String.length]. rewrite IH. reflexivity.
Qed.

Lemma string_app_inv_tail (s1 s2 tail : string) :
  s1 +:+ tail = s2 +:+ tail -> s1 = s2.
Proof.
  revert s2. induction s1 as [| c s1 IH]; intros [| d s2] Heq.
  - reflexivity.
  - apply (f_equal String.length) in Heq.
    change ("" +:+ tail) with tail in Heq.
    rewrite string_app_cons in Heq. cbn [String.length] in Heq.
    rewrite string_length_app in Heq. lia.
  - apply (f_equal String.length) in Heq.
    change ("" +:+ tail) with tail in Heq.
    rewrite string_app_cons in Heq. cbn [String.length] in Heq.
    rewrite string_length_app in Heq. lia.
  - rewrite !string_app_cons in Heq. injection Heq as -> Heq. f_equal. apply IH. exact Heq.
Qed.

Lemma rotatedPath_inj (base ext : string) (n m : Z) :
  rotatedPath base n ext = rotatedPath base m ext -> n = m.
Proof.
  unfold rotatedPath. intros Heq.
  apply String.app_inj in Heq. apply String.app_inj in Heq.
  apply string_app_inv_tail in Heq. apply (inj pretty) in Heq. exact Heq.
Qed.

Lemma wrap_int64_small (z : Z) : is_int64 z -> wrap_int64 z = z.
Proof.
  unfold is_int64, wrap_int64. intros Hz. rewrite Z.mod_small by lia. lia.
Qed.

(** *** The search for an unused name *)

Section Search.

Variables (base ext : string).

(** A file the search has already passed plays no part in what follows. *)
Lemma findFreePath_delete (fs : FS) (j : Z) :
  forall (fuel : nat) (index : Z),
    j <= index -> 0 <= index -> index + Z.of_nat fuel < 2 ^ 63 ->
    findFreePath fuel (delete (rotatedPath base j ext) fs) base ext index
    = findFreePath fuel fs base ext index.
Proof.
  induction fuel as [| fuel IH]; intros index Hj H0 Hfit; [reflexivity |].
  cbn [findFreePath].
  rewrite wrap_int64_small by (unfold is_int64; lia).
  rewrite lookup_delete_ne by (intros Heq; apply rotatedPath_inj in Heq; lia).
  destruct (fs !! rotatedPath base (index + 1) ext); [| reflexivity].
  apply IH; lia.
Qed.

(** With more fuel than there are files the search ends, at the first
    index above the current one whose path is unused. *)
Lemma findFreePath_first :
  forall (fuel : nat) (fs : FS) (index : Z),
    0 <= index -> index + Z.of_nat fuel < 2 ^ 63 -> (size fs < fuel)%nat ->
    exists n,
      findFreePath fuel fs base ext index = Some (n, rotatedPath base n ext)
      /\ index < n <= index + Z.of_nat (size fs) + 1
      /\ fs !! rotatedPath base n ext = None
      /\ (forall k, index < k < n -> is_Some (fs !! rotatedPath base k ext)).
Proof.
  induction fuel as [| fuel IH]; intros fs index H0 Hfit Hsize; [lia |].
  cbn [findFreePath].
  rewrite wrap_int64_small by (unfold is_int64; lia).
  destruct (fs !! rotatedPath base (index + 1) ext) as [content |] eqn:Hlook.
  - destruct (IH (delete (rotatedPath base (index + 1) ext) fs) (index + 1))
      as (n & Hfind & Hn & Hfree & Hused).
    + lia.
    + lia.
    + rewrite map_size_delete_Some by eauto.
      assert (size fs <> 0)%nat by (intros Hz; apply map_size_empty_inv in Hz; subst fs;
                                    rewrite lookup_empty in Hlook; discriminate).
      lia.
    + rewrite map_size_delete_Some in Hn by eauto.
      assert (size fs <> 0)%nat by (intros Hz; apply map_size_empty_inv in Hz; subst fs;
                                    rewrite lookup_empty in Hlook; discriminate).
      rewrite findFreePath_delete in Hfind by lia.
      exists n. split; [exact Hfind |]. split; [lia |]. split.
      * rewrite lookup_delete_ne in Hfree
          by (intros Heq; apply rotatedPath_inj in Heq; lia).
        exact Hfree.
      * intros k Hk. destruct (decide (k = index + 1)) as [-> | Hne]; [eauto |].
        specialize (Hused k ltac:(lia)).
        rewrite lookup_delete_ne in Hused
          by (intros Heq; apply rotatedPath_inj in Heq; lia).
        exact Hused.
  - exists (index + 1). split; [reflexivity |]. split; [lia |]. split; [exact Hlook |].
    intros k Hk. lia.
Qed.

End Search.

(** *** The header *)

(** [sortedKeys] is the keys of the map in lexicographic order. *)
Lemma sortedKeys_sorted {A : Type} (m : gmap string A) :
  Sorted String.le (sortedKeys m) /\ sortedKeys m ≡ₚ (map_to_list m).*1.
Proof.
  unfold sortedKeys. split.
  - apply Sorted_merge_sort. apply _.
  - apply merge_sort_Permutation.
Qed.

(** *** Rotation *)

Section Rotation.

Variable csvEncode : list string -> string.


(** What [rotateFile] returns once the search has found its path. *)
Lemma rotateFile_runs (fuel : nat) (e : CSVExporter) (fs : FS) (snapshot : Snapshot) (n : Z) :
  let ext := Ext (basePath e) in
  let base := TrimSuffix (basePath e) ext in
  let fs1 := <[file e := default "" (fs !! file e) +:+ buffered e]> fs in
  findFreePath fuel fs1 base ext (fileIndex e) = Some (n, rotatedPath base n ext) ->
  rotateFile csvEncode fuel noFaults e fs snapshot
  = Some (mkExporter (rotatedPath base n ext) (csvEncode (headerOf snapshot)) (recordCount e)
                     true (sortedKeys (Disks snapshot)) (sortedKeys (Networks snapshot))
                     0 (basePath e) n,
          <[rotatedPath base n ext := ""]> fs1, None).
Proof.
  intros ext base fs1 Hfind.
  unfold rotateFile, flush. cbn [flushFails closeFails openFails noFaults].
  cbn [basePath fileIndex setBuffered]. fold ext. fold base. fold fs1.
  rewrite Hfind. unfold writeHeader, csvWrite. cbn [writeFails noFaults].
  reflexivity.
Qed.

Variable formatFloat : float -> string.
Variable formatTime : Time -> string.

(** Below the size limit [writeSnapshot] appends the row to the current
    file's buffer and touches no file. *)
Lemma writeSnapshot_below_limit (fuel : nat) (e : CSVExporter) (fs : FS) (snapshot : Snapshot) :
  headerWritten e = true -> currentSize e < DefaultMaxOutputFileSize ->
  let row := buildRow formatFloat formatTime e snapshot in
  writeSnapshot csvEncode formatFloat formatTime fuel noFaults e fs snapshot
  = Some (setCurrentSize (wrap_int64 (currentSize e + rowBytes row))
                         (setBuffered (buffered e +:+ csvEncode row) e),
          fs, None).
Proof.
  intros Hhdr Hsize row. unfold writeSnapshot. rewrite Hhdr.
  destruct (Z.leb_spec DefaultMaxOutputFileSize (currentSize e)) as [Hge | _]; [lia |].
  reflexivity.
Qed.

(** At the size limit [writeSnapshot] rotates first: the row, built for the
    columns of the file just closed, follows the new header in the new
    file, and the size count restarts from the row. *)
Lemma writeSnapshot_rotates_at_limit (fuel : nat) (e : CSVExporter) (fs : FS)
    (snapshot : Snapshot) :
  headerWritten e = true -> DefaultMaxOutputFileSize <= currentSize e ->
  is_Some (fs !! file e) ->
  0 <= fileIndex e -> fileIndex e + Z.of_nat fuel < 2 ^ 63 ->
  (size fs < fuel)%nat ->
  let ext := Ext (basePath e) in
  let base := TrimSuffix (basePath e) ext in
  let row := buildRow formatFloat formatTime e snapshot in
  exists (n : Z) (e' : CSVExporter) (fs' : FS),
    writeSnapshot csvEncode formatFloat formatTime fuel noFaults e fs snapshot
    = Some (e', fs', None)
    /\ fileIndex e < n
    /\ fs !! rotatedPath base n ext = None
    /\ file e' = rotatedPath base n ext
    /\ buffered e' = csvEncode (headerOf snapshot) +:+ csvEncode row
    /\ currentSize e' = wrap_int64 (0 + rowBytes row)
    /\ fs' !! file e = Some (default "" (fs !! file e) +:+ buffered e).
Proof.
  intros Hhdr Hsize Hopen H0 Hfit Hfuel ext base row.
  set (fs1 := <[file e := default "" (fs !! file e) +:+ buffered e]> fs).
  destruct (findFreePath_first base ext fuel fs1 (fileIndex e))
    as (n & Hfind & Hn & Hfree & _); [assumption | assumption | |].
  { unfold fs1. rewrite map_size_insert_Some by exact Hopen. exact Hfuel. }
  assert (Hnew : rotatedPath base n ext <> file e).
  { intros Heq. rewrite Heq in Hfree. unfold fs1 in Hfree.
    rewrite lookup_insert_eq in Hfree. discriminate. }
  exists n. eexists. eexists. split.
  { unfold writeSnapshot. rewrite Hhdr.
    destruct (Z.leb_spec DefaultMaxOutputFileSize (currentSize e)) as [_ | Hlt]; [| lia].
    rewrite (rotateFile_runs fuel e fs snapshot n Hfind).
    cbn [mbind option_bind]. unfold csvWrite. cbn [writeFails noFaults].
    reflexivity. }
  split; [lia |].
  split.
  { unfold fs1 in Hfree. rewrite lookup_insert_ne in Hfree by congruence. exact Hfree. }
  split; [reflexivity |].
  split; [reflexivity |].
  split; [reflexivity |].
  rewrite lookup_insert_ne by exact Hnew. apply lookup_insert_eq.
Qed.

End Rotation.


End ExporterSpec.

Module CollectorSpec.

Import Metrics.
Import MetricsTerms.
Import Collector.
Import CollectorTerms.

(** C8: a cycle whose merged snapshot has an empty disk map or an empty
    network map enqueues nothing and returns no error; otherwise the send
    does not wait: with a free slot the snapshot is appended to the queue,
    and with the queue full (capacity 10 included) the queue is left as it
    was, the drop is logged as a warning and returned as an error. *)
Theorem C8_collectOnce_publishes_without_waiting (now : Time) (smp : Samples) (ch : Chan) :
  let snapshot := merge now smp in
  let ch' := fst (fst (collectOnce now smp ch)) in
  let logs := snd (fst (collectOnce now smp ch)) in
  let err := snd (collectOnce now smp ch) in
  (size (Disks snapshot) = 0%nat \/ size (Networks snapshot) = 0%nat ->
     ch' = ch /\ err = None)
  /\ (size (Disks snapshot) <> 0%nat -> size (Networks snapshot) <> 0%nat ->
      ((length (buf ch) < cap ch)%nat ->
         ch' = mkChan (buf ch ++ [snapshot]) (cap ch) /\ err = None)
      /\ ((cap ch <= length (buf ch))%nat ->
          ch' = ch /\ err = Some "metrics channel full"
          /\ last logs = Some (mkLog Warn "Metrics channel full, dropping snapshot"))
      /\ (cap ch = queueCapacity -> length (buf ch) = queueCapacity ->
          ch' = ch /\ err = Some "metrics channel full")).
Proof.
  intros snapshot ch' logs err. subst ch' logs err. unfold collectOnce. fold snapshot.
  split.
  - intros [Hd | Hn].
    + rewrite (bool_decide_eq_true_2 _ Hd). cbn. split; reflexivity.
    + rewrite (bool_decide_eq_true_2 _ Hn), orb_true_r. cbn. split; reflexivity.
  - intros Hd Hn.
    rewrite (bool_decide_eq_false_2 _ Hd), (bool_decide_eq_false_2 _ Hn). cbn [orb].
    unfold trySend.
    split; [| split].
    + intros Hfree. apply Nat.ltb_lt in Hfree. rewrite Hfree. cbn. split; reflexivity.
    + intros Hfull. apply Nat.ltb_ge in Hfull. rewrite Hfull. cbn.
      split; [reflexivity |]. split; [reflexivity |]. apply last_snoc.
    + intros Hcap Hlen. assert (Hfull : (cap ch <= length (buf ch))%nat) by lia.
      apply Nat.ltb_ge in Hfull. rewrite Hfull. cbn. split; reflexivity.
Qed.

Lemma C8_collectOnce_publishes_without_waiting_witness :
  collectOnce secondLater okSamples fullQueue
  = (fullQueue, [mkLog Warn "Metrics channel full, dropping snapshot"],
     Some "metrics channel full").
Proof.
  destruct (C8_collectOnce_publishes_without_waiting secondLater okSamples fullQueue)
    as [_ Hsend].
  destruct Hsend as (_ & Hfull & _).
  - vm_compute. discriminate.
  - vm_compute. discriminate.
  - destruct Hfull as (Hch & Herr & Hlog); [vm_compute; lia |].
    vm_compute. reflexivity.
Defined.

End CollectorSpec.

(** ** Binary64: conversions and rates *)

Module FloatSpec.

Import MetricsTerms FloatTerms RoundingSpec.

(** *** Mantissas of the conversions *)

Lemma digits2_pos_unique (p : positive) (n : Z) :
  2 ^ (n - 1) <= Zpos p < 2 ^ n -> Zpos (digits2_pos p) = n.
Proof.
  intros [Hl Hu]. pose proof (digits2_pos_bounds p) as [Hl' Hu'].
  destruct (Z.lt_trichotomy (Zpos (digits2_pos p)) n) as [Hlt | [Heq | Hgt]];
    [| assumption |].
  - assert (2 ^ Zpos (digits2_pos p) <= 2 ^ (n - 1)) by (apply Z.pow_le_mono_r; lia). lia.
  - assert (2 ^ n <= 2 ^ (Zpos (digits2_pos p) - 1)) by (apply Z.pow_le_mono_r; lia). lia.
Qed.

(** Dropping the digits above the 53rd leaves exactly 53. *)
Lemma shift_to_53 (q : positive) :
  53 <= Zpos (digits2_pos q) ->
  2 ^ 52 <= Zpos q / 2 ^ (Zpos (digits2_pos q) - 53) < 2 ^ 53.
Proof.
  intros Hd. pose proof (digits2_pos_bounds q) as [Hl Hu].
  set (d := Zpos (digits2_pos q)) in *.
  assert (Hk : 0 < 2 ^ (d - 53)) by (apply Z.pow_pos_nonneg; lia).
  assert (H52 : 2 ^ (d - 1) = 2 ^ (d - 53) * 2 ^ 52)
    by (rewrite <- Z.pow_add_r by lia; f_equal; lia).
  assert (H53 : 2 ^ d = 2 ^ (d - 53) * 2 ^ 53)
    by (rewrite <- Z.pow_add_r by lia; f_equal; lia).
  split.
  - apply Z.div_le_lower_bound; lia.
  - apply Z.div_lt_upper_bound; lia.
Qed.

Lemma shr_fexp_normal (q : positive) (e : Z) (l : location) :
  53 <= Zpos (digits2_pos q) -> -1074 <= Zpos (digits2_pos q) + e - 53 ->
  shr_m (fst (shr_fexp prec emax (Zpos q) e l)) = Zpos q / 2 ^ (Zpos (digits2_pos q) - 53)
  /\ snd (shr_fexp prec emax (Zpos q) e l) = e + (Zpos (digits2_pos q) - 53).
Proof.
  intros Hd He. unfold shr_fexp, fexp, emin. cbn [Zdigits2].
  change (3 - emax - prec) with (-1074). change prec with 53.
  set (d := Zpos (digits2_pos q)) in *.
  replace (Z.max (d + e - 53) (-1074) - e) with (d - 53) by lia.
  destruct (d - 53) as [| k | k] eqn:Hk; cbn [shr fst snd].
  - rewrite shr_record_of_loc_m. rewrite Z.div_1_r. split; lia.
  - rewrite iter_shr_1_div by (rewrite shr_record_of_loc_m; lia).
    rewrite shr_record_of_loc_m. split; reflexivity.
  - lia.
Qed.

(** Rounding a mantissa of at least 53 digits in the normal range gives a
    number in canonical form. *)
Lemma binary_round_aux_valid (sx : bool) (q : positive) (e : Z) (l : location) :
  53 <= Zpos (digits2_pos q) -> -1074 <= Zpos (digits2_pos q) + e - 53 ->
  valid_binary (binary_round_aux prec emax sx (Zpos q) e l) = true
  /\ (Zpos (digits2_pos q) + e - 53 < 971 ->
      exists m e', binary_round_aux prec emax sx (Zpos q) e l = S754_finite sx m e').
Proof.
  intros Hd He. unfold binary_round_aux.
  destruct (shr_fexp_normal q e l Hd He) as [Hm1 He1].
  pose proof (shift_to_53 q Hd) as Hb1.
  destruct (shr_fexp prec emax (Zpos q) e l) as [mrs' e1]. cbn [fst snd] in Hm1, He1.
  rewrite <- Hm1 in Hb1.
  pose proof (round_nearest_even_bounds (shr_m mrs') (loc_of_shr_record mrs')) as Hr.
  destruct (round_nearest_even (shr_m mrs') (loc_of_shr_record mrs')) as [| r | r];
    [lia | | lia].
  pose proof (digits2_pos_bounds r) as [Hrl Hru].
  assert (Hdr : 53 <= Zpos (digits2_pos r)).
  { destruct (Z.le_gt_cases 53 (Zpos (digits2_pos r))) as [H | H]; [assumption |].
    assert (2 ^ Zpos (digits2_pos r) <= 2 ^ 52) by (apply Z.pow_le_mono_r; lia). lia. }
  assert (Hdr' : Zpos (digits2_pos r) <= 54).
  { apply digits2_pos_le; [lia |]. change (2 ^ 54) with (2 * 2 ^ 53). lia. }
  destruct (shr_fexp_normal r e1 loc_Exact Hdr ltac:(lia)) as [Hm2 He2].
  pose proof (shift_to_53 r Hdr) as Hb2.
  destruct (shr_fexp prec emax (Zpos r) e1 loc_Exact) as [mrs'' e2]. cbn [fst snd] in Hm2, He2.
  rewrite <- Hm2 in Hb2.
  destruct (shr_m mrs'') as [| m | m]; [lia | | lia].
  assert (Hdm : Zpos (digits2_pos m) = 53) by (apply digits2_pos_unique; exact Hb2).
  split.
  - destruct (e2 <=? emax - prec) eqn:Hle; [| reflexivity].
    cbn [SpecFloat.valid_binary]. unfold bounded, canonical_mantissa. rewrite Hle, andb_true_r.
    apply Z.eqb_eq. unfold fexp, emin.
    change (3 - emax - prec) with (-1074). change prec with 53. lia.
  - intros Hfin. exists m, e2.
    replace (e2 <=? emax - prec) with true; [reflexivity |].
    symmetry. apply Z.leb_le. change (emax - prec) with 971. lia.
Qed.

(** An integer of at most 64 bits converts to a finite number in canonical
    form. *)
Lemma binary_round_valid (sx : bool) (p : positive) :
  Zpos p < 2 ^ 64 ->
  valid_binary (binary_round prec emax sx p 0) = true
  /\ exists m e, binary_round prec emax sx p 0 = S754_finite sx m e.
Proof.
  intros Hp. unfold binary_round, shl_align.
  pose proof (digits2_pos_le p 64 ltac:(lia) Hp) as Hd.
  pose proof (digits2_pos_bounds p) as [Hl Hu].
  set (d := Zpos (digits2_pos p)) in *.
  assert (Hf : fexp prec emax (d + 0) = d - 53).
  { unfold fexp, emin. change (3 - emax - prec) with (-1074). change prec with 53. lia. }
  rewrite Hf.
  destruct (d - 53 - 0) as [| k | k] eqn:Hk.
  - destruct (binary_round_aux_valid sx p 0 loc_Exact) as [Hv Hfin]; [fold d; lia .. |].
    split; [exact Hv | apply Hfin; fold d; lia].
  - destruct (binary_round_aux_valid sx p 0 loc_Exact) as [Hv Hfin]; [fold d; lia .. |].
    split; [exact Hv | apply Hfin; fold d; lia].
  - assert (Hq : Zpos (digits2_pos (Pos.iter xO p k)) = 53).
    { apply digits2_pos_unique. rewrite iter_xO_value.
      assert (Hk' : Zpos k = 53 - d) by lia. rewrite Hk'.
      assert (0 < 2 ^ (53 - d)) by (apply Z.pow_pos_nonneg; lia).
      assert (2 ^ (53 - 1) = 2 ^ (d - 1) * 2 ^ (53 - d))
        by (rewrite <- Z.pow_add_r by lia; f_equal; lia).
      assert (2 ^ 53 = 2 ^ d * 2 ^ (53 - d))
        by (rewrite <- Z.pow_add_r by lia; f_equal; lia).
      split; nia. }
    destruct (binary_round_aux_valid sx (Pos.iter xO p k) (d - 53) loc_Exact)
      as [Hv Hfin]; [lia | lia |].
    split; [exact Hv | apply Hfin; lia].
Qed.

(** *** What [float64(n)] is *)

Lemma float64_of_Z_spec (z : Z) :
  - 2 ^ 64 < z < 2 ^ 64 ->
  Prim2SF (float64_of_Z z) = binary_normalize prec emax z 0 false.
Proof.
  intros Hz. unfold float64_of_Z. apply Prim2SF_SF2Prim.
  destruct z as [| p | p]; cbn [binary_normalize].
  - reflexivity.
  - apply binary_round_valid. lia.
  - apply binary_round_valid. lia.
Qed.

Lemma float64_of_Z_finite (z : Z) :
  - 2 ^ 64 < z < 2 ^ 64 -> finiteSF (Prim2SF (float64_of_Z z)).
Proof.
  intros Hz. rewrite float64_of_Z_spec by assumption.
  destruct z as [| p | p]; cbn [binary_normalize].
  - exact I.
  - destruct (binary_round_valid false p) as [_ (m & e & ->)]; [lia | exact I].
  - destruct (binary_round_valid true p) as [_ (m & e & ->)]; [lia | exact I].
Qed.

Lemma float64_of_Z_positive (z : Z) :
  0 < z < 2 ^ 64 -> exists m e, Prim2SF (float64_of_Z z) = S754_finite false m e.
Proof.
  intros Hz. rewrite float64_of_Z_spec by lia.
  destruct z as [| p | p]; [lia | | lia]. cbn [binary_normalize].
  destruct (binary_round_valid false p) as [_ H]; [lia | exact H].
Qed.

(** *** Arithmetic that cannot yield NaN *)

Lemma signedSF_not_nan (s : bool) (x : spec_float) : signedSF s x -> x <> S754_nan.
Proof. destruct x; cbn; congruence. Qed.

Lemma binary_normalize_not_nan (m e : Z) : binary_normalize prec emax m e false <> S754_nan.
Proof.
  destruct m as [| p | p]; cbn [binary_normalize].
  - discriminate.
  - eapply signedSF_not_nan, binary_round_signed.
  - eapply signedSF_not_nan, binary_round_signed.
Qed.

Lemma SFdiv_finite_not_nan (x : spec_float) (s : bool) (m : positive) (e : Z) :
  finiteSF x -> SFdiv prec emax x (S754_finite s m e) <> S754_nan.
Proof.
  destruct x as [sx | sx | | sx mx ex]; cbn [finiteSF SFdiv]; try tauto; intros _.
  - discriminate.
  - unfold SFdiv_core_binary.
    set (m' := match _ - _ - _ with Z0 => _ | Zpos _ => _ | Zneg _ => _ end).
    assert (Hm' : 0 <= m').
    { unfold m'. destruct (_ - _ - _) as [| p | p]; try lia.
      apply Z.shiftl_nonneg. lia. }
    pose proof (Z_div_mod m' (Zpos m) ltac:(lia)) as Hdiv.
    destruct (Z.div_eucl m' (Zpos m)) as [q r].
    eapply signedSF_not_nan, binary_round_aux_signed.
    destruct Hdiv as [Heq Hr]. nia.
Qed.

Lemma SFadd_finite_not_nan (x y : spec_float) :
  finiteSF x -> y <> S754_nan -> SFadd prec emax x y <> S754_nan.
Proof.
  destruct x as [sx | sx | | sx mx ex]; cbn [finiteSF]; try tauto; intros _ Hy;
    destruct y as [sy | sy | | sy my ey]; cbn [SFadd]; try congruence.
  - destruct sx, sy; discriminate.
  - apply binary_normalize_not_nan.
Qed.

(** What is not NaN and not at most zero is positive. *)
Lemma not_le_zero_positive (x : float) :
  Prim2SF x <> S754_nan -> (x <=? 0)%float = false -> nonzeroSF false (Prim2SF x).
Proof.
  rewrite FloatAxioms.leb_spec. change (Prim2SF 0) with (S754_zero false).
  destruct (Prim2SF x) as [s | s | | s m e]; cbn; try congruence.
  - destruct s; [discriminate | reflexivity].
  - destruct s; [discriminate | reflexivity].
Qed.

Lemma SFdiv_by_positive (x y : spec_float) :
  finiteSF x -> signedSF false x -> nonzeroSF false y ->
  signedSF false (SFdiv prec emax x y).
Proof.
  intros Hf Hx Hy.
  destruct y as [sy | sy | | sy my ey]; cbn [nonzeroSF] in Hy; try contradiction; subst.
  - destruct x as [sx | sx | | sx mx ex]; cbn [finiteSF signedSF] in *; try contradiction;
      subst; reflexivity.
  - apply SFdiv_signed. exact Hx.
Qed.

Lemma signed_nonneg (x : float) : signedSF false (Prim2SF x) -> (0 <=? x)%float = true.
Proof.
  rewrite FloatAxioms.leb_spec. change (Prim2SF 0) with (S754_zero false).
  destruct (Prim2SF x) as [s | s | | s m e]; cbn; try tauto; intros ->; reflexivity.
Qed.

Lemma float64_of_Z_nonneg (z : Z) :
  0 <= z < 2 ^ 64 ->
  finiteSF (Prim2SF (float64_of_Z z)) /\ signedSF false (Prim2SF (float64_of_Z z)).
Proof.
  intros Hz. split; [apply float64_of_Z_finite; lia | apply float64_of_Z_signed; lia].
Qed.

(** *** Durations *)

Lemma Sub_bounds (t u : Time) : - 2 ^ 63 <= Sub t u < 2 ^ 63.
Proof.
  assert (Hs : forall d, - 2 ^ 63 <= saturate d < 2 ^ 63).
  { intros d. unfold saturate, minDuration, maxDuration.
    destruct (Z.ltb_spec d (- 2 ^ 63)); [lia |].
    destruct (Z.ltb_spec (2 ^ 63 - 1) d); lia. }
  unfold Sub. destruct (mono_ns t), (mono_ns u); apply Hs.
Qed.

Lemma Seconds_not_nan (d : Z) :
  - 2 ^ 63 <= d < 2 ^ 63 -> Prim2SF (Metrics.Seconds (F := float) d) <> S754_nan.
Proof.
  intros Hd. unfold Metrics.Seconds. cbn [fadd fdiv of_Z ieee].
  rewrite FloatAxioms.add_spec, FloatAxioms.div_spec.
  pose proof (Z.quot_rem' d 1000000000) as Hqr.
  pose proof (Z.rem_bound_abs d 1000000000 ltac:(lia)) as Hrem.
  assert (Hq : - 2 ^ 64 < Z.quot d 1000000000 < 2 ^ 64) by lia.
  assert (Hr : - 2 ^ 64 < Z.rem d 1000000000 < 2 ^ 64) by lia.
  apply SFadd_finite_not_nan; [apply float64_of_Z_finite; exact Hq |].
  destruct (float64_of_Z_positive 1000000000) as (m & e & ->); [lia |].
  apply SFdiv_finite_not_nan, float64_of_Z_finite. exact Hr.
Qed.

(** A count over a positive elapsed time: never negative, never NaN. *)
Lemma rate_nonneg (n d : Z) :
  0 <= n < 2 ^ 64 -> - 2 ^ 63 <= d < 2 ^ 63 ->
  (Metrics.Seconds (F := float) d <=? 0)%float = false ->
  (0 <=? float64_of_Z n / Metrics.Seconds (F := float) d)%float = true.
Proof.
  intros Hn Hd Hpos. apply signed_nonneg. rewrite FloatAxioms.div_spec.
  destruct (float64_of_Z_nonneg n Hn) as [Hf Hs].
  apply SFdiv_by_positive; [assumption | assumption |].
  apply not_le_zero_positive; [apply Seconds_not_nan; assumption | assumption].
Qed.

Lemma wrap_uint64_bounds (z : Z) : 0 <= wrap_uint64 z < 2 ^ 64.
Proof. unfold wrap_uint64. apply Z.mod_pos_bound. lia. Qed.

End FloatSpec.

(** ** The rates of the delta engine *)

Module RatesSpec.

Import Metrics MetricsTerms FloatTerms RoundingSpec FloatSpec.

(** X1: CalculateDiskAwait, in binary64 and on every pair of snapshots,
    returns a number that is neither negative nor NaN. *)
Theorem disk_await_never_negative (prev current : DiskIOStats) :
  (0 <=? CalculateDiskAwait (F := float) prev current)%float = true.
Proof.
  unfold CalculateDiskAwait.
  destruct (IsZero (diskTimestamp prev)); [reflexivity |].
  cbv zeta. cbn [of_Z fdiv ieee].
  set (ops := wrap_uint64 (wrap_uint64 _ + wrap_uint64 _)).
  set (time := wrap_uint64 (wrap_uint64 _ + wrap_uint64 _)).
  destruct (Z.eqb_spec ops 0) as [Hz | Hnz]; [reflexivity |].
  pose proof (wrap_uint64_bounds (wrap_uint64 (ReadCount current - ReadCount prev)
                                  + wrap_uint64 (WriteCount current - WriteCount prev))) as Ho.
  fold ops in Ho.
  apply signed_nonneg. rewrite FloatAxioms.div_spec.
  destruct (float64_of_Z_positive ops) as (m & e & ->); [lia |].
  apply SFdiv_signed, float64_of_Z_signed.
  apply wrap_uint64_bounds.
Qed.

(** X2: CalculateDiskIOPS likewise. *)
Theorem disk_iops_never_negative (prev current : DiskIOStats) :
  (0 <=? CalculateDiskIOPS (F := float) prev current)%float = true.
Proof.
  unfold CalculateDiskIOPS.
  destruct (IsZero (diskTimestamp prev)); [reflexivity |].
  cbv zeta. cbn [of_Z fdiv fle ieee].
  change (float64_of_Z 0) with 0%float.
  destruct (Seconds (Sub (diskTimestamp current) (diskTimestamp prev)) <=? 0)%float eqn:Hdt;
    [reflexivity |].
  apply rate_nonneg; [apply wrap_uint64_bounds | apply Sub_bounds | exact Hdt].
Qed.

(** X3: CalculateNetworkBandwidth likewise. *)
Theorem network_bandwidth_never_negative (prev current : NetworkIOStats) :
  (0 <=? CalculateNetworkBandwidth (F := float) prev current)%float = true.
Proof.
  unfold CalculateNetworkBandwidth.
  destruct (IsZero (netTimestamp prev)); [reflexivity |].
  cbv zeta. cbn [of_Z fdiv fle ieee].
  change (float64_of_Z 0) with 0%float.
  destruct (Seconds (Sub (netTimestamp current) (netTimestamp prev)) <=? 0)%float eqn:Hdt;
    [reflexivity |].
  apply rate_nonneg; [apply wrap_uint64_bounds | apply Sub_bounds | exact Hdt].
Qed.

End RatesSpec.

(** ** The store under sequences of calls *)

Module StoreInvariants.

Import Server ServerTerms StoreTerms.

(** *** Counting loaded entries *)

Lemma loadedCount_files (s s' : CSVDataService) :
  files s = files s' -> loadedCount s = loadedCount s'.
Proof. unfold loadedCount. intros ->. reflexivity. Qed.

Lemma loadedCount_insert_None (m : gmap string CSVFile) (cd cd' : gmap string ColumnData)
    (id : string) (f : CSVFile) :
  m !! id = None ->
  loadedCount (mkService (<[id := f]> m) cd)
  = (if IsLoaded f then loadedCount (mkService m cd') + 1 else loadedCount (mkService m cd')).
Proof.
  intros Hnone. unfold loadedCount. cbn [files].
  rewrite map_fold_insert_L; [reflexivity | | assumption].
  intros j1 j2 z1 z2 y _ _ _. destruct (IsLoaded z1), (IsLoaded z2); lia.
Qed.

Lemma loadedCount_delete (m : gmap string CSVFile) (cd cd' : gmap string ColumnData)
    (id : string) (f : CSVFile) :
  m !! id = Some f ->
  loadedCount (mkService m cd)
  = (if IsLoaded f then loadedCount (mkService (delete id m) cd') + 1
     else loadedCount (mkService (delete id m) cd')).
Proof.
  intros Hsome.
  rewrite (loadedCount_files (mkService m cd) (mkService (<[id := f]> (delete id m)) cd))
    by (cbn [files]; symmetry; apply insert_delete_id; assumption).
  apply loadedCount_insert_None, lookup_delete_eq.
Qed.

Lemma loadedCount_insert_le (m : gmap string CSVFile) (cd cd' : gmap string ColumnData)
    (id : string) (f : CSVFile) :
  loadedCount (mkService (<[id := f]> m) cd) <= loadedCount (mkService m cd') + 1.
Proof.
  destruct (m !! id) as [f0 |] eqn:Hid.
  - rewrite (loadedCount_files _ (mkService (<[id := f]> (delete id m)) cd))
      by (cbn [files]; symmetry; apply insert_delete_eq).
    rewrite (loadedCount_insert_None _ cd cd') by apply lookup_delete_eq.
    rewrite (loadedCount_delete m cd' cd' id f0 Hid).
    destruct (IsLoaded f), (IsLoaded f0); lia.
  - rewrite (loadedCount_insert_None _ cd cd') by assumption. destruct (IsLoaded f); lia.
Qed.

Lemma loadedCount_delete_le (m : gmap string CSVFile) (cd cd' : gmap string ColumnData)
    (id : string) :
  loadedCount (mkService (delete id m) cd) <= loadedCount (mkService m cd').
Proof.
  destruct (m !! id) as [f0 |] eqn:Hid.
  - rewrite (loadedCount_delete m cd' cd id f0 Hid). destruct (IsLoaded f0); lia.
  - rewrite delete_id by assumption.
    rewrite (loadedCount_files (mkService m cd) (mkService m cd')) by reflexivity. lia.
Qed.

Lemma perform_cap (s : CSVDataService) (c : call) :
  loadedCount s <= MaxFiles -> loadedCount (perform s c) <= MaxFiles.
Proof.
  intros Hs. destruct s as [m cd].
  destruct c as [pcf id name path | pcf id | id name path | id |]; cbn [perform].
  - unfold LoadFile. cbn [files columnData].
    destruct (MaxFiles <=? Z.of_nat (size m)); [assumption |].
    destruct (pcf id name path) as [e | [cols meta]]; [assumption |].
    destruct (Z.leb_spec MaxFiles (loadedCount (mkService m cd))); [assumption |].
    cbn [fst].
    pose proof (loadedCount_insert_le m (<[id := cols]> cd) cd id (setIsLoaded true meta)). lia.
  - unfold LoadFileContent. cbn [files columnData].
    destruct (m !! id) as [f |]; [| assumption].
    destruct (IsLoaded f); [assumption |].
    destruct (Z.leb_spec MaxFiles (loadedCount (mkService m cd))); [assumption |].
    destruct (pcf id (Name f) (Path f)) as [e | [cols meta]]; [assumption |].
    cbn [fst].
    pose proof (loadedCount_insert_le m (<[id := cols]> cd) cd id (setIsLoaded true meta)). lia.
  - unfold RegisterFile. cbn [files columnData].
    destruct (m !! id) eqn:Hid; [assumption |].
    rewrite (loadedCount_insert_None m cd cd) by assumption. cbn [IsLoaded]. assumption.
  - unfold DeleteFile. cbn [files columnData]. destruct (m !! id); [| assumption].
    cbn [fst]. pose proof (loadedCount_delete_le m (delete id cd) cd id). lia.
  - vm_compute. discriminate.
Qed.

Lemma perform_dataForLoaded (s : CSVDataService) (c : call) :
  dataForLoaded s -> dataForLoaded (perform s c).
Proof.
  intros Hs.
  assert (Hload : forall id cols meta,
            dataForLoaded (mkService (<[id := setIsLoaded true meta]> (files s))
                                     (<[id := cols]> (columnData s)))).
  { intros id cols meta id'. cbn [files columnData].
    destruct (decide (id = id')) as [-> | Hne].
    - rewrite !lookup_insert_eq. split; [eauto | intros _; eauto].
    - rewrite !lookup_insert_ne by assumption. apply Hs. }
  destruct c as [pcf id name path | pcf id | id name path | id |]; cbn [perform].
  - unfold LoadFile. destruct (MaxFiles <=? Z.of_nat (size (files s))); [assumption |].
    destruct (pcf id name path) as [e | [cols meta]]; [assumption |].
    destruct (MaxFiles <=? loadedCount s); [assumption | apply Hload].
  - unfold LoadFileContent. destruct (files s !! id) as [f |]; [| assumption].
    destruct (IsLoaded f); [assumption |].
    destruct (MaxFiles <=? loadedCount s); [assumption |].
    destruct (pcf id (Name f) (Path f)) as [e | [cols meta]]; [assumption | apply Hload].
  - unfold RegisterFile. destruct (files s !! id) eqn:Hid; [assumption |].
    intros id'. cbn [files columnData].
    destruct (decide (id = id')) as [-> | Hne].
    + rewrite lookup_insert_eq. split.
      * intros Hd. apply Hs in Hd. destruct Hd as (f & Hf & _). congruence.
      * intros (f & Hf & Hl). inversion Hf; subst. discriminate.
    + rewrite lookup_insert_ne by assumption. apply Hs.
  - unfold DeleteFile. destruct (files s !! id) eqn:Hid; [| assumption].
    intros id'. cbn [fst files columnData].
    destruct (decide (id = id')) as [-> | Hne].
    + rewrite !lookup_delete_eq. split.
      * intros [x Hx]. discriminate.
      * intros (f & Hf & _). discriminate.
    + rewrite !lookup_delete_ne by assumption. apply Hs.
  - intros id'. cbn. rewrite !lookup_empty. split.
    + intros [x Hx]. discriminate.
    + intros (f & Hf & _). discriminate.
Qed.

Lemma after_snoc (calls : list call) (c : call) :
  after (calls ++ [c]) = perform (after calls) c.
Proof. unfold after. rewrite foldl_snoc. reflexivity. Qed.

(** X4: however the calls of the service follow each other (one at a
    time), at most MaxFiles = 20 entries are ever loaded. *)
Theorem loaded_files_never_exceed_cap (calls : list call) :
  loadedCount (after calls) <= MaxFiles.
Proof.
  induction calls as [| c calls IH] using rev_ind.
  - vm_compute. discriminate.
  - rewrite after_snoc. apply perform_cap, IH.
Qed.

(** X5: however the calls follow each other, the service holds column data
    for exactly the entries it marks as loaded. *)
Theorem data_held_exactly_for_loaded (calls : list call) :
  dataForLoaded (after calls).
Proof.
  induction calls as [| c calls IH] using rev_ind.
  - intros id. cbn. rewrite !lookup_empty. split.
    + intros [x Hx]. discriminate.
    + intros (f & Hf & _). discriminate.
  - rewrite after_snoc. apply perform_dataForLoaded, IH.
Qed.

(** *** Loading twice *)

(** X6: once LoadFileContent has succeeded for an id, calling it again
    succeeds and changes nothing, whatever the file now holds. *)
Theorem LoadFileContent_again
    (processCSVFile processCSVFile' : string -> string -> string -> error + (ColumnData * CSVFile))
    (s : CSVDataService) (id : string) :
  (LoadFileContent processCSVFile s id).2 = None ->
  LoadFileContent processCSVFile' (LoadFileContent processCSVFile s id).1 id
  = ((LoadFileContent processCSVFile s id).1, None).
Proof.
  unfold LoadFileContent at 1 3 4.
  destruct (files s !! id) as [f |] eqn:Hid; [| discriminate].
  destruct (IsLoaded f) eqn:Hl.
  - intros _. cbn [fst]. unfold LoadFileContent. rewrite Hid, Hl. reflexivity.
  - destruct (MaxFiles <=? loadedCount s); [discriminate |].
    destruct (processCSVFile id (Name f) (Path f)) as [e | [cols meta]]; [discriminate |].
    intros _. cbn [fst]. unfold LoadFileContent. cbn [files].
    rewrite lookup_insert_eq. reflexivity.
Qed.

Lemma LoadFileContent_again_witness :
  let s := RegisterFile NewCSVDataService "a" "a" "a.csv" in
  LoadFileContent (fun _ _ _ => inl (ErrProcess "failed to stat file"))
                  (LoadFileContent parseOneRow s "a").1 "a"
  = ((LoadFileContent parseOneRow s "a").1, None).
Proof.
  apply (LoadFileContent_again parseOneRow (fun _ _ _ => inl (ErrProcess "failed to stat file"))
           (RegisterFile NewCSVDataService "a" "a" "a.csv") "a").
  vm_compute. reflexivity.
Defined.

(** *** The size of an answer *)

Lemma rawPoints_length (ts : list Z) (vals : list float) (idxs : list Z) (pts : list DataPoint) :
  rawPoints ts vals idxs = Some pts -> (length pts <= length idxs)%nat.
Proof.
  revert pts. induction idxs as [| i idxs IH]; intros pts; cbn [rawPoints].
  - intros [= <-]. cbn. lia.
  - destruct (index vals i) as [v |]; [| discriminate]. cbn [mbind option_bind].
    destruct (PrimFloat.is_nan v).
    + intros H. apply IH in H. cbn. lia.
    + destruct (index ts i) as [t |]; [| discriminate]. cbn [mbind option_bind].
      destruct (rawPoints ts vals idxs) as [pts' |]; [| discriminate]. cbn [mbind option_bind].
      intros [= <-]. specialize (IH pts' eq_refl). cbn. lia.
Qed.

Lemma downsample_length (ts : list Z) (vals : list float) (startIdx endIdx : Z)
    (bucketSize : float) (buckets : list Z) (pts : list DataPoint) :
  downsample ts vals startIdx endIdx bucketSize buckets = Some pts ->
  (length pts <= length buckets)%nat.
Proof.
  revert pts. induction buckets as [| i buckets IH]; intros pts; cbn [downsample].
  - intros [= <-]. cbn. lia.
  - cbv zeta. destruct (_ <=? _).
    + intros H. apply IH in H. cbn. lia.
    + destruct (index ts _) as [t |]; [| discriminate]. cbn [mbind option_bind].
      destruct (bucketSum vals _ _ _) as [[sum count] |]; [| discriminate].
      cbn [mbind option_bind].
      destruct (downsample ts vals startIdx endIdx bucketSize buckets) as [pts' |];
        [| discriminate].
      cbn [mbind option_bind]. specialize (IH pts' eq_refl).
      destruct (0 <? count); intros [= <-]; cbn; lia.
Qed.

(** X7: a query never answers with more than maxPoints = 2000 points. *)
Theorem query_at_most_maxPoints (s : CSVDataService) (fileID columnName : string)
    (timeFrom timeTo : option Time) (pts : list DataPoint) :
  GetColumnData s fileID columnName timeFrom timeTo = Ok pts ->
  (length pts <= 2000)%nat.
Proof.
  unfold GetColumnData.
  destruct (columnData s !! fileID) as [colsData |]; [| discriminate].
  destruct (Values colsData !! columnName) as [values |]; [| discriminate].
  cbv zeta.
  destruct (_ <=? startIndex _ _); [intros [= <-]; cbn; lia |].
  destruct (Z.leb_spec (endIndex (Timestamps colsData) timeTo
                        - startIndex (Timestamps colsData) timeFrom) maxPoints) as [Hle | Hgt].
  - destruct (rawPoints _ _ _) as [pts' |] eqn:Hraw; [| discriminate].
    intros [= <-]. apply rawPoints_length in Hraw.
    rewrite length_seqZ in Hraw. unfold maxPoints in Hle. lia.
  - destruct (downsample _ _ _ _ _ _) as [pts' |] eqn:Hds; [| discriminate].
    intros [= <-]. apply downsample_length in Hds.
    rewrite length_seqZ in Hds. unfold maxPoints in Hds. lia.
Qed.

Lemma query_at_most_maxPoints_witness :
  (length [mkDataPoint (timeUnix 10) 1%float; mkDataPoint (timeUnix 30) 3%float;
           mkDataPoint (timeUnix 40) 4%float] <= 2000)%nat.
Proof.
  apply (query_at_most_maxPoints rows4 "f" "Val" None None).
  vm_compute. reflexivity.
Defined.

End StoreInvariants.

(** ** Names of uploaded files *)

Module HandlersSpec.

Import GoStrings Handlers HandlersTerms.

Lemma safeRune_safe (r c : ascii) : safeRune r = Some c -> safeChar c = true.
Proof.
  intros H. destruct r as [[] [] [] [] [] [] [] []]; vm_compute in H;
    try discriminate; injection H as <-; reflexivity.
Qed.

Lemma safeChar_ascii (c : ascii) : safeChar c = true -> byte c < RuneSelf.
Proof.
  intros H. destruct c as [[] [] [] [] [] [] [] []]; vm_compute in H;
    try discriminate; reflexivity.
Qed.

Lemma omap_safeRune_safe (l : list ascii) : Forall (fun c => safeChar c = true) (omap safeRune l).
Proof.
  induction l as [| r l IH]; [constructor |].
  change (omap safeRune (r :: l))
    with (match safeRune r with Some c => c :: omap safeRune l | None => omap safeRune l end).
  destruct (safeRune r) as [c |] eqn:Hr; [| assumption].
  constructor; [eapply safeRune_safe; eassumption | assumption].
Qed.

(** On ASCII bytes a loop of [TrimSpace] never asks for the Unicode
    fallback; it drops a run of spaces and leaves a rest that does not start
    with one. *)
Lemma skipSpaces_ascii (s : list ascii) :
  Forall (fun c => byte c < RuneSelf) s ->
  exists spaces rest,
    s = spaces ++ rest /\ skipSpaces s = (false, rest)
    /\ (forall c, head rest = Some c -> asciiSpace c = false).
Proof.
  induction 1 as [| c s Hc Hs IH]; cbn [skipSpaces].
  - exists [], []. split; [reflexivity |]. split; [reflexivity | discriminate].
  - destruct (Z.leb_spec RuneSelf (byte c)) as [Hge | _]; [lia |].
    destruct (asciiSpace c) eqn:Hsp.
    + destruct IH as (spaces & rest & -> & Heq & Hhead). exists (c :: spaces), rest.
      split; [reflexivity |]. split; assumption.
    + exists [], (c :: s). split; [reflexivity |]. split; [reflexivity |].
      intros c' [= <-]. assumption.
Qed.

Lemma length_list_ascii_of_string (s : string) :
  length (list_ascii_of_string s) = String.length s.
Proof. induction s as [| c s IH]; cbn; congruence. Qed.

Lemma list_ascii_of_substring (n : nat) (s : string) :
  list_ascii_of_string (substring 0 n s) = take n (list_ascii_of_string s).
Proof.
  revert n. induction s as [| c s IH]; intros [| n]; cbn; try reflexivity.
  f_equal. apply IH.
Qed.

Section Sanitize.

Variable TrimFunc_IsSpace : list ascii -> list ascii.
Variable TrimRightFunc_IsSpace : list ascii -> list ascii.

Lemma TrimSpace_bytes_ascii (s : list ascii) :
  Forall (fun c => byte c < RuneSelf) s ->
  exists before after,
    s = before ++ TrimSpace_bytes TrimFunc_IsSpace TrimRightFunc_IsSpace s ++ after
    /\ (forall c, head (TrimSpace_bytes TrimFunc_IsSpace TrimRightFunc_IsSpace s) = Some c ->
          asciiSpace c = false).
Proof.
  intros Hs. unfold TrimSpace_bytes.
  destruct (skipSpaces_ascii s Hs) as (before & s1 & -> & -> & Hhead1).
  apply Forall_app in Hs as [_ Hs1].
  destruct (skipSpaces_ascii (reverse s1)) as (after & r & Hrev & -> & Hhead2).
  { apply Forall_reverse. assumption. }
  assert (Hs1' : s1 = reverse r ++ reverse after).
  { rewrite <- (reverse_involutive s1), Hrev, reverse_app. reflexivity. }
  exists before, (reverse after). split; [rewrite Hs1' at 1; reflexivity |].
  intros c Hc. apply Hhead1. rewrite Hs1'.
  destruct (reverse r); [discriminate | exact Hc].
Qed.

(** X8: whatever the name, sanitizeFilename answers with one to fifty bytes,
    each a letter, a digit, dash, underscore or space, and the first one
    not a space. *)
Theorem sanitizeFilename_safe (name : string) :
  let safe := sanitizeFilename TrimFunc_IsSpace TrimRightFunc_IsSpace name in
  safe <> ""
  /\ (String.length safe <= 50)%nat
  /\ Forall (fun c => safeChar c = true) (list_ascii_of_string safe)
  /\ (forall c, head (list_ascii_of_string safe) = Some c -> c <> " "%char).
Proof.
  unfold sanitizeFilename, Map, TrimSpace.
  set (l := omap safeRune _).
  rewrite list_ascii_of_string_of_list_ascii.
  pose proof (omap_safeRune_safe (list_ascii_of_string
                (Exporter.TrimSuffix (Base name) (Exporter.Ext (Base name))))) as Hl.
  fold l in Hl.
  destruct (TrimSpace_bytes_ascii l) as (before & after & Hsplit & Hhead).
  { eapply Forall_impl; [exact Hl | exact safeChar_ascii]. }
  set (t := TrimSpace_bytes TrimFunc_IsSpace TrimRightFunc_IsSpace l) in *.
  assert (Ht : Forall (fun c => safeChar c = true) t).
  { rewrite Hsplit in Hl. apply Forall_app in Hl as [_ Hl]. apply Forall_app in Hl as [Hl _].
    exact Hl. }
  assert (Hsp : forall c, head t = Some c -> c <> " "%char).
  { intros c Hc ->. apply Hhead in Hc. discriminate. }
  cbv zeta.
  destruct (String.eqb_spec (string_of_list_ascii t) "") as [Hempty | Hne].
  - split; [discriminate |]. split; [cbn; lia |].
    split; [repeat constructor | intros c [= <-]; discriminate].
  - destruct (Nat.ltb_spec 50 (String.length (string_of_list_ascii t))) as [Hlong | Hshort].
    + split; [| split; [| split]].
      * intros Heq. apply (f_equal list_ascii_of_string) in Heq.
        rewrite list_ascii_of_substring, list_ascii_of_string_of_list_ascii in Heq.
        rewrite <- length_list_ascii_of_string, list_ascii_of_string_of_list_ascii in Hlong.
        destruct t; cbn in *; [lia | discriminate].
      * rewrite <- length_list_ascii_of_string, list_ascii_of_substring, length_take. lia.
      * rewrite list_ascii_of_substring, list_ascii_of_string_of_list_ascii.
        apply Forall_take. exact Ht.
      * rewrite list_ascii_of_substring, list_ascii_of_string_of_list_ascii.
        intros c Hc. apply Hsp. destruct t; [discriminate | exact Hc].
    + rewrite list_ascii_of_string_of_list_ascii.
      split; [exact Hne |]. split; [lia |]. split; [exact Ht | exact Hsp].
Qed.

End Sanitize.

End HandlersSpec.

(** ** Reading a file *)

Module IngestSpec.

Import Server ServerTerms ServerIngest IngestTerms.

Lemma index_app_r {A : Type} (l1 l2 : list A) (x : A) :
  index (l1 ++ x :: l2) (Z.of_nat (length l1)) = Some x.
Proof.
  unfold index. destruct (Z.ltb_spec (Z.of_nat (length l1)) 0) as [H | _]; [lia |].
  rewrite Nat2Z.id. apply list_lookup_middle. reflexivity.
Qed.

Lemma index_Some {A : Type} (l : list A) (i : Z) :
  0 <= i < Z.of_nat (length l) -> is_Some (index l i).
Proof.
  intros Hi. unfold index. destruct (Z.ltb_spec i 0) as [H | _]; [lia |].
  apply lookup_lt_is_Some. lia.
Qed.

Lemma occurrences_cons (name x : string) (names : list string) :
  occurrences name (x :: names)
  = ((if decide (x = name) then 1 else 0) + occurrences name names)%nat.
Proof.
  unfold occurrences. rewrite filter_cons. destruct (decide (x = name)); reflexivity.
Qed.

Section Parse.

Variable timeParse : string -> string -> option Time.
Variable ParseFloat : string -> option float.
Variable TrimFunc_IsSpace : list ascii -> list ascii.
Variable TrimRightFunc_IsSpace : list ascii -> list ascii.
Variable fileAt : string -> CSVSource.

Local Abbreviation appendValues := (appendValues ParseFloat TrimFunc_IsSpace TrimRightFunc_IsSpace).
Local Abbreviation addRow := (addRow timeParse ParseFloat TrimFunc_IsSpace TrimRightFunc_IsSpace).
Local Abbreviation readRows := (readRows timeParse ParseFloat TrimFunc_IsSpace TrimRightFunc_IsSpace).
Local Abbreviation parseTimestamp := (parseTimestamp timeParse TrimFunc_IsSpace TrimRightFunc_IsSpace).
Local Abbreviation processCSVFile :=
  (processCSVFile timeParse ParseFloat TrimFunc_IsSpace TrimRightFunc_IsSpace fileAt).

(** *** The loop over the columns of a record *)

(** Each header cell from the second on gets one more value; no other key
    appears. *)
Lemma appendValues_spec (done rest record : list string) (m m' : gmap string (list float)) :
  appendValues (done ++ rest) record (seqZ (Z.of_nat (length done)) (Z.of_nat (length rest))) m
  = Some m' ->
  (forall name, length (default [] (m' !! name))
                = (length (default [] (m !! name)) + occurrences name rest)%nat)
  /\ (forall name, is_Some (m' !! name) <-> is_Some (m !! name) \/ name ∈ rest).
Proof.
  revert done m. induction rest as [| x rest IH]; intros done m.
  - cbn. intros [= <-]. split.
    + intros name. unfold occurrences. cbn. lia.
    + intros name. rewrite elem_of_nil. tauto.
  - rewrite length_cons, Nat2Z.inj_succ, seqZ_cons by lia. cbn [appendValues].
    rewrite index_app_r. cbn [mbind option_bind].
    destruct (index record (Z.of_nat (length done))) as [cell |]; [| discriminate].
    cbn [mbind option_bind].
    replace (Z.succ (Z.of_nat (length done))) with (Z.of_nat (length (done ++ [x])))
      by (rewrite length_app; cbn; lia).
    replace (Z.pred (Z.succ (Z.of_nat (length rest)))) with (Z.of_nat (length rest)) by lia.
    replace (done ++ x :: rest) with ((done ++ [x]) ++ rest) by (rewrite <- app_assoc; reflexivity).
    intros H. apply IH in H as [Hlen Hdom]. split.
    + intros name. rewrite Hlen, occurrences_cons.
      destruct (decide (x = name)) as [-> | Hne].
      * rewrite lookup_insert_eq. cbn [default from_option id]. rewrite length_app. cbn. lia.
      * rewrite lookup_insert_ne by assumption. lia.
    + intros name. rewrite Hdom, elem_of_cons.
      destruct (decide (x = name)) as [-> | Hne].
      * rewrite lookup_insert_eq. split; [intros _; right; left; reflexivity | eauto].
      * rewrite lookup_insert_ne by assumption. split; [tauto |].
        intros [H | [H | H]]; [tauto | congruence | tauto].
Qed.

Lemma appendValues_runs (done rest record : list string) (m : gmap string (list float)) :
  length record = length (done ++ rest) ->
  is_Some (appendValues (done ++ rest) record
             (seqZ (Z.of_nat (length done)) (Z.of_nat (length rest))) m).
Proof.
  revert done m. induction rest as [| x rest IH]; intros done m Hlen.
  - cbn. eauto.
  - rewrite length_cons, Nat2Z.inj_succ, seqZ_cons by lia. cbn [appendValues].
    rewrite index_app_r. cbn [mbind option_bind].
    destruct (index_Some record (Z.of_nat (length done))) as [cell ->].
    { rewrite Hlen, length_app. cbn. lia. }
    cbn [mbind option_bind].
    replace (Z.succ (Z.of_nat (length done))) with (Z.of_nat (length (done ++ [x])))
      by (rewrite length_app; cbn; lia).
    replace (Z.pred (Z.succ (Z.of_nat (length rest)))) with (Z.of_nat (length rest)) by lia.
    replace (done ++ x :: rest) with ((done ++ [x]) ++ rest) by (rewrite <- app_assoc; reflexivity).
    apply IH. rewrite Hlen, <- app_assoc. reflexivity.
Qed.

(** *** The loop over the records *)

Lemma emptyColumns_lookup (header : list string) (name : string) :
  emptyColumns header !! name = (if decide (name ∈ drop 1 header) then Some [] else None).
Proof.
  unfold emptyColumns. generalize (drop 1 header) as names. intros names.
  induction names as [| x names IH] using rev_ind.
  - cbn. rewrite lookup_empty. destruct (decide (name ∈ [])) as [H | _]; [| reflexivity].
    apply elem_of_nil in H. contradiction.
  - rewrite foldl_snoc. destruct (decide (x = name)) as [-> | Hne].
    + rewrite lookup_insert_eq. destruct (decide (name ∈ names ++ [name])) as [_ | H];
        [reflexivity |]. exfalso. apply H. apply elem_of_app. right. apply list_elem_of_singleton.
      reflexivity.
    + rewrite lookup_insert_ne by assumption. rewrite IH.
      destruct (decide (name ∈ names)) as [Hin | Hnin];
        destruct (decide (name ∈ names ++ [x])) as [Hin' | Hnin']; try reflexivity.
      * exfalso. apply Hnin'. apply elem_of_app. left. assumption.
      * exfalso. apply elem_of_app in Hin' as [H | H]; [contradiction |].
        apply list_elem_of_singleton in H. congruence.
Qed.

Lemma aligned_start (h0 : string) (names : list string) (t u : Time) :
  aligned names (mkParsed [] (emptyColumns (h0 :: names)) 0 t u) [].
Proof.
  split; cbn [timestamps rowCount valueCols].
  - reflexivity.
  - reflexivity.
  - intros name. rewrite emptyColumns_lookup. change (drop 1 (h0 :: names)) with names.
    cbn [length]. rewrite Nat.mul_0_r.
    destruct (decide (name ∈ names)); reflexivity.
  - intros name. rewrite emptyColumns_lookup. change (drop 1 (h0 :: names)) with names.
    destruct (decide (name ∈ names)) as [Hin | Hnin]; split; eauto.
    + intros [x Hx]. discriminate.
    + contradiction.
Qed.

Lemma addRow_aligned (h0 : string) (names record : list string) (p p' : Parsed)
    (kept : list Time) :
  aligned names p kept ->
  addRow (h0 :: names) (Z.of_nat (length (h0 :: names))) p record = Some p' ->
  aligned names p' (kept ++ option_list (keptTime parseTimestamp record)).
Proof.
  intros [Hts Hrc Hlen Hdom]. unfold addRow, keptTime, index.
  destruct (Z.ltb_spec 0 0) as [H0 | _]; [lia |]. change (Z.to_nat 0) with 0%nat.
  rewrite <- head_lookup.
  destruct (head record) as [cell0 |]; [| discriminate]. cbn [mbind option_bind].
  destruct (IsZero (parseTimestamp cell0)).
  - intros [= <-]. cbn [option_list]. rewrite app_nil_r. split; assumption.
  - cbn [option_list].
    destruct (if rowCount p =? 0 then _ else _) as [minTime' maxTime'].
    replace (Z.of_nat (length (h0 :: names)) - 1) with (Z.of_nat (length names))
      by (cbn [length]; lia).
    pose proof (appendValues_spec [h0] names record (valueCols p)) as Hspec.
    cbn [length app] in Hspec. change (Z.of_nat 1) with 1 in Hspec.
    destruct (appendValues (h0 :: names) record (seqZ 1 (Z.of_nat (length names))) (valueCols p))
      as [cols' |]; [| discriminate].
    cbn [mbind option_bind]. intros [= <-].
    destruct (Hspec cols' eq_refl) as [Hlen' Hdom'].
    split; cbn [timestamps rowCount valueCols].
    + rewrite Hts, fmap_app. reflexivity.
    + rewrite Hrc, length_app. cbn. lia.
    + intros name. rewrite Hlen', Hlen, length_app. cbn. lia.
    + intros name. rewrite Hdom', Hdom. tauto.
Qed.

Lemma omap_keptTime_cons (record : list string) (records : list (list string)) :
  omap (keptTime parseTimestamp) (record :: records)
  = option_list (keptTime parseTimestamp record) ++ omap (keptTime parseTimestamp) records.
Proof.
  change (omap (keptTime parseTimestamp) (record :: records))
    with (match keptTime parseTimestamp record with
          | Some t => t :: omap (keptTime parseTimestamp) records
          | None => omap (keptTime parseTimestamp) records
          end).
  destruct (keptTime parseTimestamp record); reflexivity.
Qed.

(** When the loop ends without an error, every read gave a record, and the
    columns hold the rows whose first cell parsed, in the order read. *)
Lemma readRows_aligned (h0 : string) (names : list string) (reads : list (string + list string))
    (p p' : Parsed) (kept : list Time) :
  aligned names p kept ->
  readRows (h0 :: names) (Z.of_nat (length (h0 :: names))) reads p = Ok p' ->
  exists records,
    reads = inr <$> records
    /\ aligned names p' (kept ++ omap (keptTime parseTimestamp) records).
Proof.
  revert p kept. induction reads as [| [err | record] reads IH]; intros p kept Hal;
    cbn [ServerIngest.readRows].
  - intros [= <-]. exists []. cbn. rewrite app_nil_r. split; [reflexivity | assumption].
  - discriminate.
  - destruct (MaxRowsPerFile <=? rowCount p); [discriminate |].
    destruct (addRow (h0 :: names) (Z.of_nat (length (h0 :: names))) p record) as [p1 |] eqn:Hrow;
      [| discriminate].
    intros Hrest. apply (addRow_aligned _ _ _ _ _ _ Hal) in Hrow.
    destruct (IH _ _ Hrow Hrest) as (records & -> & Hal').
    exists (record :: records). split; [reflexivity |].
    rewrite omap_keptTime_cons, app_assoc. exact Hal'.
Qed.

(** On records as long as the header the loop never indexes out of
    range. *)
Lemma readRows_runs (h0 : string) (names : list string) (reads : list (string + list string))
    (p : Parsed) :
  Forall (fun r => match r with
                   | inr record => length record = length (h0 :: names)
                   | inl _ => True
                   end) reads ->
  readRows (h0 :: names) (Z.of_nat (length (h0 :: names))) reads p <> Panic.
Proof.
  intros Hall. revert p. induction Hall as [| [err | record] reads Hlen Hall IH]; intros p;
    cbn [ServerIngest.readRows]; try discriminate.
  destruct (MaxRowsPerFile <=? rowCount p); [discriminate |].
  assert (Hrow : is_Some (addRow (h0 :: names) (Z.of_nat (length (h0 :: names))) p record)).
  { unfold ServerIngest.addRow.
    destruct (index_Some record 0) as [cell0 ->]; [rewrite Hlen; cbn [length]; lia |].
    cbn [mbind option_bind].
    destruct (IsZero _); [eauto |].
    destruct (if rowCount p =? 0 then _ else _) as [minTime' maxTime'].
    replace (Z.of_nat (length (h0 :: names)) - 1) with (Z.of_nat (length names))
      by (cbn [length]; lia).
    destruct (appendValues_runs [h0] names record (valueCols p) Hlen) as [cols' Hcols].
    cbn [length app] in Hcols. change (Z.of_nat 1) with 1 in Hcols.
    rewrite Hcols. cbn [mbind option_bind]. eauto. }
  destruct Hrow as [p1 ->]. apply IH.
Qed.

(** *** The whole of [processCSVFile] *)

Lemma processCSVFile_Ok (id name path : string) (cols : ColumnData) (meta : CSVFile) :
  processCSVFile id name path = Ok (cols, meta) ->
  exists h0 names p,
    headerResult (fileAt path) = inr (h0 :: names)
    /\ readRows (h0 :: names) (Z.of_nat (length (h0 :: names))) (rowResults (fileAt path))
                (mkParsed [] (emptyColumns (h0 :: names)) 0 zeroTime zeroTime) = Ok p
    /\ rowCount p <> 0
    /\ cols = mkColumnData (timestamps p) (valueCols p)
    /\ meta = mkCSVFile id name path (h0 :: names) (rowCount p) (minTime p) (maxTime p) false.
Proof.
  unfold ServerIngest.processCSVFile.
  destruct (statResult (fileAt path)) as [err | size]; [discriminate |].
  destruct (MaxFileSize <? size); [discriminate |].
  destruct (openError (fileAt path)); [discriminate |].
  destruct (headerResult (fileAt path)) as [err | header]; [discriminate |].
  destruct (Z.ltb_spec (Z.of_nat (length header)) 2) as [Hlt | Hge]; [discriminate |].
  destruct header as [| h0 names]; [cbn in Hge; lia |].
  destruct (readRows _ _ _ _) as [p | e |] eqn:Hrows; [| discriminate | discriminate].
  destruct (Z.eqb_spec (rowCount p) 0) as [Hz | Hnz]; [discriminate |].
  intros [= <- <-]. exists h0, names, p. repeat (split; [reflexivity || assumption |]).
  reflexivity.
Qed.

Lemma occurrences_absent (name : string) (names : list string) :
  name ∉ names -> occurrences name names = 0%nat.
Proof.
  induction names as [| x names IH]; intros Hnin; [reflexivity |].
  apply not_elem_of_cons in Hnin as [Hne Hnin]. rewrite occurrences_cons.
  destruct (decide (x = name)) as [-> | _]; [congruence | auto].
Qed.

Lemma occurrences_NoDup (name : string) (names : list string) :
  NoDup names -> name ∈ names -> occurrences name names = 1%nat.
Proof.
  induction 1 as [| x names Hx Hnd IH]; intros Hin.
  - apply elem_of_nil in Hin. contradiction.
  - rewrite occurrences_cons. apply elem_of_cons in Hin as [-> | Hin].
    + destruct (decide (x = x)) as [_ | H]; [| congruence].
      rewrite occurrences_absent by assumption. reflexivity.
    + destruct (decide (x = name)) as [-> | _]; [contradiction | auto].
Qed.

(** X9: what processCSVFile returns is aligned: as many timestamps as the
    row count, which is positive; a column for each header cell after the
    first and for nothing else; in each column one value per row and per
    occurrence of its name in the header, so exactly one per row when the
    names differ. *)
Theorem processCSVFile_columns_aligned (id name path : string) (cols : ColumnData)
    (meta : CSVFile) :
  processCSVFile id name path = Ok (cols, meta) ->
  let names := drop 1 (Columns meta) in
  headerResult (fileAt path) = inr (Columns meta)
  /\ Z.of_nat (length (Timestamps cols)) = RowCount meta
  /\ 0 < RowCount meta
  /\ (forall column, is_Some (Values cols !! column) <-> column ∈ names)
  /\ (forall column values, Values cols !! column = Some values ->
        length values = (occurrences column names * length (Timestamps cols))%nat)
  /\ (NoDup names ->
      forall column values, Values cols !! column = Some values ->
        length values = length (Timestamps cols)).
Proof.
  intros Hok. destruct (processCSVFile_Ok _ _ _ _ _ Hok)
    as (h0 & names & p & Hheader & Hrows & Hnz & -> & ->).
  destruct (readRows_aligned _ _ _ _ _ _ (aligned_start h0 names zeroTime zeroTime) Hrows)
    as (records & _ & [Hts Hrc Hlen Hdom]).
  cbn [app] in *. cbn [Columns RowCount Timestamps Values]. change (drop 1 (h0 :: names)) with names.
  cbv zeta.
  assert (Hcount : length (timestamps p) = length (omap (keptTime parseTimestamp) records))
    by (rewrite Hts, length_fmap; reflexivity).
  split; [exact Hheader |]. split; [lia |]. split; [lia |]. split; [exact Hdom |].
  split.
  - intros column values Hcol. specialize (Hlen column). rewrite Hcol in Hlen. cbn in Hlen.
    rewrite Hlen, Hcount. reflexivity.
  - intros Hnd column values Hcol. specialize (Hlen column).
    assert (Hin : column ∈ names) by (apply Hdom; eauto).
    rewrite Hcol in Hlen. cbn in Hlen.
    rewrite Hlen, (occurrences_NoDup _ _ Hnd Hin), Hcount. lia.
Qed.

(** X10: the rows processCSVFile keeps are those whose first cell parses to
    an instant other than the zero instant, in the order of the file; a row
    whose first cell does not parse is left out whole. *)
Theorem processCSVFile_keeps_parsable_rows (id name path : string) (cols : ColumnData)
    (meta : CSVFile) :
  processCSVFile id name path = Ok (cols, meta) ->
  exists records,
    rowResults (fileAt path) = inr <$> records
    /\ Timestamps cols = Unix <$> omap (keptTime parseTimestamp) records
    /\ RowCount meta = Z.of_nat (length (omap (keptTime parseTimestamp) records))
    /\ ID meta = id /\ Name meta = name /\ Path meta = path /\ IsLoaded meta = false.
Proof.
  intros Hok. destruct (processCSVFile_Ok _ _ _ _ _ Hok)
    as (h0 & names & p & Hheader & Hrows & Hnz & -> & ->).
  destruct (readRows_aligned _ _ _ _ _ _ (aligned_start h0 names zeroTime zeroTime) Hrows)
    as (records & Hreads & [Hts Hrc _ _]).
  exists records. cbn [app] in *. cbn [Timestamps RowCount ID Name Path IsLoaded].
  repeat (split; [assumption || reflexivity |]). reflexivity.
Qed.

(** X11: on a reader that keeps its promise (every record as long as the
    header), processCSVFile never indexes a record or the header out of
    range. *)
Theorem processCSVFile_never_panics (id name path : string) :
  readerWellFormed (fileAt path) -> processCSVFile id name path <> Panic.
Proof.
  intros Hwf. unfold ServerIngest.processCSVFile.
  destruct (statResult (fileAt path)) as [err | size]; [discriminate |].
  destruct (MaxFileSize <? size); [discriminate |].
  destruct (openError (fileAt path)); [discriminate |].
  destruct (headerResult (fileAt path)) as [err | header] eqn:Hheader; [discriminate |].
  destruct (Z.ltb_spec (Z.of_nat (length header)) 2) as [Hlt | Hge]; [discriminate |].
  destruct header as [| h0 names]; [cbn in Hge; lia |].
  pose proof (readRows_runs h0 names (rowResults (fileAt path))
                (mkParsed [] (emptyColumns (h0 :: names)) 0 zeroTime zeroTime)
                (Hwf _ Hheader)) as Hruns.
  destruct (readRows _ _ _ _) as [p | e |]; [| discriminate | contradiction].
  destruct (rowCount p =? 0); discriminate.
Qed.



(** *** The first and the last instant *)

Section Bounds.

(** [time.Parse] answers with an instant that carries no monotonic clock
    reading. *)
Hypothesis timeParse_wall :
  forall layout value t, timeParse layout value = Some t -> mono_ns t = None.

Lemma parseTimestamp_wall (cell : string) : mono_ns (parseTimestamp cell) = None.
Proof.
  unfold ServerIngest.parseTimestamp.
  set (s := GoStrings.TrimSpace _ _ cell).
  assert (Hall : Forall (fun t => mono_ns t = None)
                        (omap (fun format => timeParse format s) formats)).
  { apply Forall_forall. intros t Ht. apply list_elem_of_omap in Ht as (f & _ & Hf).
    eapply timeParse_wall. exact Hf. }
  destruct (omap _ formats) as [| t ts]; [reflexivity |].
  apply Forall_cons in Hall as [Ht _]. exact Ht.
Qed.

Lemma addRow_bounded (h0 : string) (names record : list string) (p p' : Parsed)
    (kept : list Time) :
  aligned names p kept ->
  Forall (fun t => mono_ns t = None) kept ->
  kept = [] \/ bounded p kept ->
  addRow (h0 :: names) (Z.of_nat (length (h0 :: names))) p record = Some p' ->
  let kept' := kept ++ option_list (keptTime parseTimestamp record) in
  Forall (fun t => mono_ns t = None) kept' /\ (kept' = [] \/ bounded p' kept').
Proof.
  intros [_ Hrc _ _] Hwall Hb. unfold ServerIngest.addRow, keptTime, index.
  destruct (Z.ltb_spec 0 0) as [H0 | _]; [lia |]. change (Z.to_nat 0) with 0%nat.
  rewrite <- head_lookup.
  destruct (head record) as [cell0 |]; [| discriminate]. cbn [mbind option_bind].
  pose proof (parseTimestamp_wall cell0) as Ht.
  set (t := parseTimestamp cell0) in *.
  destruct (IsZero t).
  - intros [= <-]. cbn [option_list]. rewrite app_nil_r. split; assumption.
  - cbn [option_list]. intros Hrow. split.
    { apply Forall_app. split; [assumption | repeat constructor; assumption]. }
    right. revert Hrow.
    destruct (Z.eqb_spec (rowCount p) 0) as [Hzero | Hpos].
    + assert (kept = []) as -> by (destruct kept; [reflexivity | cbn in Hrc; lia]).
      destruct (appendValues _ _ _ _) as [cols' |]; [| discriminate].
      cbn [mbind option_bind]. intros [= <-]. cbn [app].
      split; cbn [minTime maxTime].
      * apply list_elem_of_singleton. reflexivity.
      * apply list_elem_of_singleton. reflexivity.
      * repeat constructor; lia.
    + destruct Hb as [-> | [Hmin Hmax Hall]]; [cbn in Hrc; lia |].
      destruct (appendValues _ _ _ _) as [cols' |]; [| discriminate].
      cbn [mbind option_bind]. intros [= <-].
      assert (Hmin' : mono_ns (minTime p) = None)
        by (eapply (proj1 (Forall_forall _ _) Hwall); exact Hmin).
      assert (Hmax' : mono_ns (maxTime p) = None)
        by (eapply (proj1 (Forall_forall _ _) Hwall); exact Hmax).
      unfold Before, After. rewrite Ht.
      assert (Hlo : wall_ns (minTime p) <= wall_ns (maxTime p)).
      { apply (proj1 (Forall_forall _ _) Hall) in Hmin. lia. }
      split; cbn [minTime maxTime].
      * destruct (Z.ltb_spec (wall_ns t) (wall_ns (minTime p))).
        -- apply elem_of_app. right. apply list_elem_of_singleton. reflexivity.
        -- apply elem_of_app. left. assumption.
      * destruct (Z.ltb_spec (wall_ns (maxTime p)) (wall_ns t)).
        -- apply elem_of_app. right. apply list_elem_of_singleton. reflexivity.
        -- apply elem_of_app. left. assumption.
      * apply Forall_app. split.
        -- eapply Forall_impl; [exact Hall |]. cbn beta. intros u Hu.
           destruct (Z.ltb_spec (wall_ns t) (wall_ns (minTime p)));
             destruct (Z.ltb_spec (wall_ns (maxTime p)) (wall_ns t)); lia.
        -- repeat constructor;
             destruct (Z.ltb_spec (wall_ns t) (wall_ns (minTime p)));
             destruct (Z.ltb_spec (wall_ns (maxTime p)) (wall_ns t)); lia.
Qed.

Lemma readRows_bounded (h0 : string) (names : list string) (reads : list (string + list string))
    (p p' : Parsed) (kept : list Time) :
  aligned names p kept ->
  Forall (fun t => mono_ns t = None) kept ->
  kept = [] \/ bounded p kept ->
  readRows (h0 :: names) (Z.of_nat (length (h0 :: names))) reads p = Ok p' ->
  exists kept', aligned names p' kept' /\ (kept' = [] \/ bounded p' kept').
Proof.
  revert p kept. induction reads as [| [err | record] reads IH]; intros p kept Hal Hwall Hb;
    cbn [ServerIngest.readRows].
  - intros [= <-]. exists kept. split; assumption.
  - discriminate.
  - destruct (MaxRowsPerFile <=? rowCount p); [discriminate |].
    destruct (addRow (h0 :: names) (Z.of_nat (length (h0 :: names))) p record) as [p1 |] eqn:Hrow;
      [| discriminate].
    intros Hrest.
    destruct (addRow_bounded _ _ _ _ _ _ Hal Hwall Hb Hrow) as [Hwall' Hb'].
    apply (addRow_aligned _ _ _ _ _ _ Hal) in Hrow.
    exact (IH _ _ Hrow Hwall' Hb' Hrest).
Qed.

Lemma Unix_mono (t u : Time) : wall_ns t <= wall_ns u -> Unix t <= Unix u.
Proof.
  intros Hle. unfold Unix.
  pose proof (Z.div_le_mono (wall_ns t) (wall_ns u) 1000000000 ltac:(lia) Hle). lia.
Qed.

(** X13: the MinTime and MaxTime processCSVFile reports are the least and
    the greatest of the instants it kept: both are among the stored
    timestamps and every stored timestamp lies between them. *)
Theorem processCSVFile_time_bounds (id name path : string) (cols : ColumnData)
    (meta : CSVFile) :
  processCSVFile id name path = Ok (cols, meta) ->
  Unix (MinTime meta) ∈ Timestamps cols
  /\ Unix (MaxTime meta) ∈ Timestamps cols
  /\ Forall (fun ts => Unix (MinTime meta) <= ts <= Unix (MaxTime meta)) (Timestamps cols).
Proof.
  intros Hok. destruct (processCSVFile_Ok _ _ _ _ _ Hok)
    as (h0 & names & p & Hheader & Hrows & Hnz & -> & ->).
  destruct (readRows_bounded _ _ _ _ _ _ (aligned_start h0 names zeroTime zeroTime)
              (Forall_nil_2 _) (or_introl eq_refl) Hrows)
    as (kept & [Hts Hrc _ _] & Hb).
  destruct Hb as [-> | [Hmin Hmax Hall]]; [cbn [length] in Hrc; lia |].
  cbn [MinTime MaxTime Timestamps]. rewrite Hts.
  split; [apply list_elem_of_fmap_2; exact Hmin |].
  split; [apply list_elem_of_fmap_2; exact Hmax |].
  apply Forall_fmap. eapply Forall_impl; [exact Hall |]. cbn beta.
  intros t [Hlo Hhi]. unfold compose. split; apply Unix_mono; assumption.
Qed.

End Bounds.

(** *** Listing the metrics *)

Lemma GetColumnData_column_not_found (s : CSVDataService) (id column : string)
    (cols : ColumnData) (timeFrom timeTo : option Time) :
  columnData s !! id = Some cols ->
  GetColumnData s id column timeFrom timeTo = Err (ErrColumnNotFound column)
  <-> Values cols !! column = None.
Proof.
  intros Hcols. unfold GetColumnData. rewrite Hcols.
  destruct (Values cols !! column) as [values |]; [| tauto].
  split; [| discriminate]. cbv zeta.
  destruct (_ <=? startIndex _ _); [discriminate |].
  destruct (_ <=? maxPoints).
  - destruct (rawPoints _ _ _); discriminate.
  - destruct (downsample _ _ _ _ _ _); discriminate.
Qed.

(** X14: on a store that holds what processCSVFile returned, GetMetricColumns
    lists the header cells other than "Timestamp", while a query finds a
    column exactly for the header cells after the first.  So every listed
    metric can be queried when the first header cell is "Timestamp" (and no
    later one is); a first cell of another name that no later cell repeats
    is listed, and querying it fails with "column not found". *)
Theorem listed_metrics_and_columns (s : CSVDataService) (id name path : string)
    (cols : ColumnData) (meta : CSVFile) (timeFrom timeTo : option Time) :
  processCSVFile id name path = Ok (cols, meta) ->
  files s !! id = Some (setIsLoaded true meta) ->
  columnData s !! id = Some cols ->
  let listed := filter (fun col => col <> "Timestamp") (Columns meta) in
  GetMetricColumns s id = inr listed
  /\ (forall column,
        GetColumnData s id column timeFrom timeTo = Err (ErrColumnNotFound column)
        <-> column ∉ drop 1 (Columns meta))
  /\ (head (Columns meta) = Some "Timestamp" ->
      forall column, column ∈ listed ->
        GetColumnData s id column timeFrom timeTo <> Err (ErrColumnNotFound column))
  /\ (forall h0, head (Columns meta) = Some h0 -> h0 <> "Timestamp" ->
        h0 ∉ drop 1 (Columns meta) ->
        h0 ∈ listed
        /\ GetColumnData s id h0 timeFrom timeTo = Err (ErrColumnNotFound h0)).
Proof.
  intros Hok Hfiles Hcols listed.
  destruct (processCSVFile_Ok _ _ _ _ _ Hok)
    as (h0 & names & p & Hheader & Hrows & Hnz & -> & ->).
  destruct (readRows_aligned _ _ _ _ _ _ (aligned_start h0 names zeroTime zeroTime) Hrows)
    as (records & _ & [_ _ _ Hdom]).
  cbn [Columns] in *. change (drop 1 (h0 :: names)) with names.
  assert (Hnf : forall column,
            GetColumnData s id column timeFrom timeTo = Err (ErrColumnNotFound column)
            <-> column ∉ names).
  { intros column. rewrite (GetColumnData_column_not_found s id column _ _ _ Hcols).
    cbn [Values]. rewrite <- Hdom, eq_None_not_Some. tauto. }
  split; [| split; [| split]].
  - unfold GetMetricColumns. rewrite Hfiles. reflexivity.
  - exact Hnf.
  - intros [= ->] column Hin. rewrite Hnf. intros Hnin. apply Hnin.
    unfold listed in Hin. apply list_elem_of_filter in Hin as [Hne Hin].
    apply elem_of_cons in Hin as [-> | Hin]; [congruence | exact Hin].
  - intros h [= <-] Hne Hnin. split; [| apply Hnf; exact Hnin].
    unfold listed. apply list_elem_of_filter. split; [exact Hne | apply list_elem_of_here].
Qed.

End Parse.

(** *** The sample file *)

Lemma processCSVFile_columns_aligned_witness :
  length (Timestamps (mkColumnData [1672531200; 1672531201]
                        {[ "Val" := [1%float; PrimFloat.nan] ]})) = 2%nat
  /\ forall column values,
       ({[ "Val" := [1%float; PrimFloat.nan] ]} : gmap string (list float)) !! column
       = Some values -> length values = 2%nat.
Proof.
  destruct (processCSVFile_columns_aligned sampleTimeParse sampleParseFloat
              (fun s => s) (fun s => s) sampleFile "id" "name" "sample.csv"
              (mkColumnData [1672531200; 1672531201] {[ "Val" := [1%float; PrimFloat.nan] ]})
              (mkCSVFile "id" "name" "sample.csv" ["Timestamp"; "Val"] 2
                         (timeUnix 1672531200) (timeUnix 1672531201) false))
    as (_ & _ & _ & _ & _ & Hlen).
  - vm_compute. reflexivity.
  - split; [reflexivity |]. apply Hlen. cbn [Columns drop]. repeat constructor.
    apply not_elem_of_nil.
Defined.

Lemma processCSVFile_keeps_parsable_rows_witness :
  exists records,
    rowResults (sampleFile "sample.csv") = inr <$> records
    /\ [1672531200; 1672531201]
       = Unix <$> omap (keptTime (ServerIngest.parseTimestamp sampleTimeParse
                                    (fun s => s) (fun s => s))) records.
Proof.
  destruct (processCSVFile_keeps_parsable_rows sampleTimeParse sampleParseFloat
              (fun s => s) (fun s => s) sampleFile "id" "name" "sample.csv"
              (mkColumnData [1672531200; 1672531201] {[ "Val" := [1%float; PrimFloat.nan] ]})
              (mkCSVFile "id" "name" "sample.csv" ["Timestamp"; "Val"] 2
                         (timeUnix 1672531200) (timeUnix 1672531201) false))
    as (records & Hrows & Hts & _).
  - vm_compute. reflexivity.
  - exists records. split; assumption.
Defined.

Lemma processCSVFile_never_panics_witness :
  ServerIngest.processCSVFile sampleTimeParse sampleParseFloat (fun s => s) (fun s => s)
    sampleFile "id" "name" "sample.csv" <> Panic.
Proof.
  apply processCSVFile_never_panics.
  intros header [= <-]. repeat constructor.
Defined.


Lemma processCSVFile_time_bounds_witness :
  Forall (fun ts => Unix (timeUnix 1672531200) <= ts <= Unix (timeUnix 1672531201))
         [1672531200; 1672531201].
Proof.
  destruct (processCSVFile_time_bounds sampleTimeParse sampleParseFloat
              (fun s => s) (fun s => s) sampleFile) with
    (id := "id") (name := "name") (path := "sample.csv")
    (cols := mkColumnData [1672531200; 1672531201] {[ "Val" := [1%float; PrimFloat.nan] ]})
    (meta := mkCSVFile "id" "name" "sample.csv" ["Timestamp"; "Val"] 2
                       (timeUnix 1672531200) (timeUnix 1672531201) false)
    as (_ & _ & Hall).
  - intros layout value t. unfold sampleTimeParse.
    destruct (negb _); [discriminate |].
    destruct (String.eqb value _); [intros [= <-]; reflexivity |].
    destruct (String.eqb value _); [intros [= <-]; reflexivity | discriminate].
  - vm_compute. reflexivity.
  - exact Hall.
Defined.

Lemma listed_metrics_and_columns_witness :
  GetColumnData
    (mkService {[ "id" := mkCSVFile "id" "name" "sample.csv" ["Time"; "Val"] 1
                            (timeUnix 1672531200) (timeUnix 1672531200) true ]}
               {[ "id" := mkColumnData [1672531200] {[ "Val" := [1%float] ]} ]})
    "id" "Time" None None
  = Err (ErrColumnNotFound "Time").
Proof.
  destruct (listed_metrics_and_columns sampleTimeParse sampleParseFloat
              (fun s => s) (fun s => s) sampleFileTime
              (mkService {[ "id" := mkCSVFile "id" "name" "sample.csv" ["Time"; "Val"] 1
                                      (timeUnix 1672531200) (timeUnix 1672531200) true ]}
                         {[ "id" := mkColumnData [1672531200] {[ "Val" := [1%float] ]} ]})
              "id" "name" "sample.csv"
              (mkColumnData [1672531200] {[ "Val" := [1%float] ]})
              (mkCSVFile "id" "name" "sample.csv" ["Time"; "Val"] 1
                         (timeUnix 1672531200) (timeUnix 1672531200) false)
              None None)
    as (_ & _ & _ & Hquirk).
  - vm_compute. reflexivity.
  - vm_compute. reflexivity.
  - vm_compute. reflexivity.
  - apply (Hquirk "Time"); [reflexivity | discriminate |].
    cbn [Columns drop]. intros Hin. apply list_elem_of_singleton in Hin. discriminate.
Defined.

End IngestSpec.

(** ** The loop of the exporter *)

Module ExporterRunSpec.

Import Metrics Exporter ExporterTerms ExporterRun ExporterRunTerms.

Lemma length_bind_const {A B : Type} (f : A -> list B) (n : nat) (l : list A) :
  (forall x, length (f x) = n) -> length (l ≫= f) = (n * length l)%nat.
Proof.
  intros Hf. induction l as [| x l IH]; cbn [mbind list_bind].
  - cbn. lia.
  - change (length (f x ++ (l ≫= f)) = (n * length (x :: l))%nat).
    rewrite length_app, Hf, IH. cbn [length]. lia.
Qed.

Lemma length_sortedKeys {A : Type} (m : gmap string A) : length (sortedKeys m) = size m.
Proof.
  destruct (ExporterSpec.sortedKeys_sorted m) as [_ Hperm].
  rewrite Hperm, length_fmap. apply length_map_to_list.
Qed.

Lemma length_headerOf (snapshot : Snapshot) :
  length (headerOf snapshot)
  = (4 + 3 * size (Disks snapshot) + size (Networks snapshot))%nat.
Proof.
  unfold headerOf. rewrite !length_app.
  rewrite (length_bind_const diskColumns 3) by reflexivity.
  rewrite (length_bind_const networkColumns 1) by reflexivity.
  rewrite !length_sortedKeys. cbn [length]. lia.
Qed.

Section Rows.

Variable csvEncode : list string -> string.
Variable formatFloat : float -> string.
Variable formatTime : Time -> string.

Local Abbreviation buildRow := (buildRow formatFloat formatTime).
Local Abbreviation writeSnapshot := (writeSnapshot csvEncode formatFloat formatTime).

Lemma length_buildRow (e : CSVExporter) (snapshot : Snapshot) :
  length (buildRow e snapshot)
  = (4 + 3 * length (deviceOrder e) + length (ifaceOrder e))%nat.
Proof.
  unfold Exporter.buildRow. rewrite !length_app.
  rewrite (length_bind_const _ 3) by (intros d; destruct (Disks snapshot !! d); reflexivity).
  rewrite (length_bind_const _ 1) by (intros d; destruct (Networks snapshot !! d); reflexivity).
  cbn [length]. lia.
Qed.

(** X15: once writeHeader has run on a snapshot, every row built afterwards
    (until the next header) has as many cells as that header, whatever
    devices and interfaces the later snapshots carry: 4, and 3 per disk and
    1 per interface of the snapshot the header was written from. *)
Theorem rows_have_the_cells_of_the_header (fl : Faults) (e : CSVExporter)
    (first later : Snapshot) :
  let e' := (writeHeader csvEncode fl e first).1 in
  deviceOrder e' = sortedKeys (Disks first)
  /\ ifaceOrder e' = sortedKeys (Networks first)
  /\ length (headerOf first)
     = (4 + 3 * size (Disks first) + size (Networks first))%nat
  /\ length (buildRow e' later) = length (headerOf first).
Proof.
  cbv zeta.
  assert (Horders : deviceOrder (writeHeader csvEncode fl e first).1 = sortedKeys (Disks first)
                    /\ ifaceOrder (writeHeader csvEncode fl e first).1
                       = sortedKeys (Networks first)).
  { unfold writeHeader, csvWrite. destruct (writeFails fl); split; reflexivity. }
  destruct Horders as [Hd Hi].
  split; [exact Hd |]. split; [exact Hi |]. split; [apply length_headerOf |].
  rewrite length_buildRow, length_headerOf, Hd, Hi, !length_sortedKeys. reflexivity.
Qed.

(** X16: when writeSnapshot rotates, the row it writes right after the new
    header was built before the rotation: it has the cells of the devices
    and interfaces of the file just closed (4, and 3 per old device, 1 per
    old interface), while the header in front of it has those of the
    snapshot; the rows after it follow the new header. *)
Theorem row_after_rotation_follows_old_columns (fuel : nat) (e : CSVExporter) (fs : FS)
    (snapshot : Snapshot) :
  headerWritten e = true -> DefaultMaxOutputFileSize <= currentSize e ->
  is_Some (fs !! file e) ->
  0 <= fileIndex e -> fileIndex e + Z.of_nat fuel < 2 ^ 63 ->
  (size fs < fuel)%nat ->
  exists (e' : CSVExporter) (fs' : FS),
    writeSnapshot fuel noFaults e fs snapshot = Some (e', fs', None)
    /\ file e' <> file e
    /\ fs' !! file e' = Some ""
    /\ buffered e' = csvEncode (headerOf snapshot) +:+ csvEncode (buildRow e snapshot)
    /\ length (headerOf snapshot)
       = (4 + 3 * size (Disks snapshot) + size (Networks snapshot))%nat
    /\ length (buildRow e snapshot)
       = (4 + 3 * length (deviceOrder e) + length (ifaceOrder e))%nat
    /\ deviceOrder e' = sortedKeys (Disks snapshot)
    /\ ifaceOrder e' = sortedKeys (Networks snapshot).
Proof.
  intros Hhdr Hsize Hopen H0 Hfit Hfuel.
  set (ext := Ext (basePath e)). set (base := TrimSuffix (basePath e) ext).
  set (fs1 := <[file e := default "" (fs !! file e) +:+ buffered e]> fs).
  destruct (ExporterSpec.findFreePath_first base ext fuel fs1 (fileIndex e))
    as (n & Hfind & Hn & Hfree & _); [assumption | assumption | |].
  { unfold fs1. rewrite map_size_insert_Some by exact Hopen. exact Hfuel. }
  assert (Hnew : rotatedPath base n ext <> file e).
  { intros Heq. rewrite Heq in Hfree. unfold fs1 in Hfree.
    rewrite lookup_insert_eq in Hfree. discriminate. }
  eexists. eexists. split.
  { unfold Exporter.writeSnapshot. rewrite Hhdr.
    destruct (Z.leb_spec DefaultMaxOutputFileSize (currentSize e)) as [_ | Hlt]; [| lia].
    rewrite (ExporterSpec.rotateFile_runs csvEncode fuel e fs snapshot n Hfind).
    cbn [mbind option_bind]. unfold csvWrite. cbn [writeFails noFaults].
    reflexivity. }
  cbn [file buffered deviceOrder ifaceOrder setCurrentSize setBuffered].
  split; [exact Hnew |].
  split; [apply lookup_insert_eq |].
  split; [reflexivity |].
  split; [apply length_headerOf |].
  split; [apply length_buildRow |].
  split; reflexivity.
Qed.

(** *** The loop of [Start] *)

Lemma string_app_nil_r (s : string) : s +:+ "" = s.
Proof.
  induction s as [| c s IH]; [reflexivity |].
  rewrite ExporterSpec.string_app_cons, IH. reflexivity.
Qed.

Lemma string_app_assoc (s1 s2 s3 : string) : (s1 +:+ s2) +:+ s3 = s1 +:+ (s2 +:+ s3).
Proof.
  induction s1 as [| c s1 IH]; [reflexivity |].
  rewrite !ExporterSpec.string_app_cons, IH. reflexivity.
Qed.

Lemma rowBytes_pos (row : list string) : 0 < rowBytes row.
Proof.
  unfold rowBytes.
  assert (H : forall n, 0 <= n ->
            0 <= foldl (fun n cell => n + (Z.of_nat (String.length cell) + 1)) n row).
  { induction row as [| cell row IH]; intros n Hn; cbn [foldl]; [assumption |].
    apply IH. lia. }
  specialize (H 0 ltac:(lia)). lia.
Qed.

(** What has been written so far: the content of the current file and what
    is buffered for it. *)
Local Abbreviation written e fs := (default "" (fs !! file e) +:+ buffered e).

Variable bufferSize : Z.

Local Abbreviation Start := (Start csvEncode formatFloat formatTime bufferSize).

Lemma flush_keeps_written (e : CSVExporter) (fs : FS) :
  exists e' fs',
    flush noFaults e fs = (e', fs', None)
    /\ e' = setBuffered "" e
    /\ fs' = <[file e := written e fs]> fs.
Proof. eexists. eexists. split; [reflexivity |]. split; reflexivity. Qed.

(** The sum of the size counts of the rows. *)
Local Abbreviation bytesOf rows := (foldr (fun row n => rowBytes row + n) 0 rows).

Lemma bytesOf_nonneg (rows : list (list string)) : 0 <= bytesOf rows.
Proof.
  induction rows as [| row rows IH]; cbn [foldr]; [lia |].
  pose proof (rowBytes_pos row). lia.
Qed.

Lemma snapshotsOf_received (snapshot : Snapshot) (fl : Faults) (events : list (event * Faults)) :
  snapshotsOf ((Received snapshot, fl) :: events) = snapshot :: snapshotsOf events.
Proof. reflexivity. Qed.

Lemma snapshotsOf_tick (fl : Faults) (events : list (event * Faults)) :
  snapshotsOf ((FlushTick, fl) :: events) = snapshotsOf events.
Proof. reflexivity. Qed.

Lemma buildRow_orders (e e0 : CSVExporter) (snapshot : Snapshot) :
  deviceOrder e = deviceOrder e0 -> ifaceOrder e = ifaceOrder e0 ->
  buildRow e snapshot = buildRow e0 snapshot.
Proof. intros Hd Hi. unfold Exporter.buildRow. rewrite Hd, Hi. reflexivity. Qed.

(** With the header written, no fault and the size count below the limit,
    the loop appends one encoded row per snapshot to what is written, in
    order, and touches no other file. *)
Lemma Start_running (fuel : nat) (e0 : CSVExporter) (events : list (event * Faults)) :
  forall (e : CSVExporter) (fs : FS),
    running events -> Forall (fun ev => ev.2 = noFaults) events ->
    deviceOrder e = deviceOrder e0 -> ifaceOrder e = ifaceOrder e0 ->
    headerWritten e = true -> 0 <= currentSize e ->
    currentSize e + bytesOf (buildRow e0 <$> snapshotsOf events) < DefaultMaxOutputFileSize ->
    exists e' fs',
      Start fuel events e fs = Some (Waiting e' fs')
      /\ file e' = file e
      /\ written e' fs'
         = written e fs +:+ concatAll (csvEncode <$> (buildRow e0 <$> snapshotsOf events))
      /\ (forall path, path <> file e -> fs' !! path = fs !! path).
Proof.
  induction events as [| [ev fl] events IH]; intros e fs Hrun Hfl Hd Hi Hhdr H0 Hsize.
  - exists e, fs. cbn. rewrite string_app_nil_r. repeat split; auto.
  - apply Forall_cons in Hrun as [Hev Hrun]. apply Forall_cons in Hfl as [Hfl0 Hfl].
    cbn [snd] in Hfl0. subst fl. cbn [fst] in Hev.
    destruct ev as [| | snapshot |]; try contradiction.
    + (* a snapshot *)
      rewrite snapshotsOf_received in *. rewrite !fmap_cons in *. cbn [foldr] in Hsize.
      pose proof (bytesOf_nonneg (buildRow e0 <$> snapshotsOf events)) as Hrest.
      pose proof (rowBytes_pos (buildRow e0 snapshot)) as Hrow.
      cbn [ExporterRun.Start].
      rewrite (ExporterSpec.writeSnapshot_below_limit csvEncode formatFloat formatTime fuel e fs
                 snapshot Hhdr) by lia.
      cbn [mbind option_bind]. rewrite (buildRow_orders e e0 snapshot Hd Hi).
      rewrite (ExporterSpec.wrap_int64_small (currentSize e + rowBytes (buildRow e0 snapshot)))
        by (unfold is_int64, DefaultMaxOutputFileSize in *; lia).
      set (e1 := setCurrentSize _ (setBuffered _ e)).
      assert (Hwritten : written e1 fs
                         = written e fs +:+ csvEncode (buildRow e0 snapshot)).
      { unfold e1. cbn [file buffered setCurrentSize setBuffered].
        rewrite string_app_assoc. reflexivity. }
      cbn [concatAll foldr]. fold (concatAll (csvEncode <$> (buildRow e0 <$> snapshotsOf events))).
      destruct (bufferSize <=? recordCount (setRecordCount _ e1)).
      * destruct (IH (setRecordCount 0 (setBuffered "" (setRecordCount
                        (wrap_int64 (recordCount e1 + 1)) e1)))
                     (<[file e := written e1 fs]> fs))
          as (e' & fs' & Hstart & Hfile & Hout & Hother);
          try assumption;
          try (unfold e1;
               cbn [deviceOrder ifaceOrder headerWritten currentSize setRecordCount
                    setBuffered setCurrentSize];
               first [assumption | lia]).
        exists e', fs'. split; [exact Hstart |]. split; [exact Hfile |]. split.
        -- rewrite Hout. cbn [file buffered setRecordCount setBuffered].
           unfold e1 at 1. cbn [file setCurrentSize setBuffered].
           rewrite lookup_insert_eq. cbn [default from_option id].
           rewrite string_app_nil_r, Hwritten, string_app_assoc. reflexivity.
        -- intros path Hne. rewrite Hother by exact Hne.
           apply lookup_insert_ne. congruence.
      * destruct (IH (setRecordCount (wrap_int64 (recordCount e1 + 1)) e1) fs)
          as (e' & fs' & Hstart & Hfile & Hout & Hother);
          try assumption;
          try (unfold e1;
               cbn [deviceOrder ifaceOrder headerWritten currentSize setRecordCount
                    setBuffered setCurrentSize];
               first [assumption | lia]).
        exists e', fs'. split; [exact Hstart |]. split; [exact Hfile |]. split.
        -- rewrite Hout. cbn [file buffered setRecordCount].
           rewrite Hwritten, string_app_assoc. reflexivity.
        -- exact Hother.
    + (* the flush ticker *)
      rewrite snapshotsOf_tick in *. cbn [ExporterRun.Start].
      destruct (0 <? recordCount e).
      * destruct (IH (setRecordCount 0 (setBuffered "" e)) (<[file e := written e fs]> fs))
          as (e' & fs' & Hstart & Hfile & Hout & Hother); try assumption.
        exists e', fs'. split; [exact Hstart |]. split; [exact Hfile |]. split.
        -- rewrite Hout. cbn [file buffered setRecordCount setBuffered].
           rewrite lookup_insert_eq. cbn [default from_option id].
           rewrite string_app_nil_r. reflexivity.
        -- intros path Hne. rewrite Hother by exact Hne.
           apply lookup_insert_ne. congruence.
      * apply IH; assumption.
Qed.

Lemma Start_app (fuel : nat) (events rest : list (event * Faults)) :
  forall (e e' : CSVExporter) (fs fs' : FS),
    Start fuel events e fs = Some (Waiting e' fs') ->
    Start fuel (events ++ rest) e fs = Start fuel rest e' fs'.
Proof.
  induction events as [| [ev fl] events IH]; intros e e' fs fs'.
  - cbn. intros [= <- <-]. reflexivity.
  - cbn [app ExporterRun.Start]. destruct ev as [| | snapshot |].
    + destruct (flush fl e fs) as [[e1 fs1] err]. discriminate.
    + destruct (flush fl e fs) as [[e1 fs1] err]. discriminate.
    + destruct (writeSnapshot fuel fl e fs snapshot) as [[[e1 fs1] err] |]; [| discriminate].
      cbn [mbind option_bind].
      destruct (bufferSize <=? _).
      * destruct (flush fl _ fs1) as [[e2 fs2] err2]. apply IH.
      * apply IH.
    + destruct (0 <? recordCount e).
      * destruct (flush fl e fs) as [[e2 fs2] err2]. apply IH.
      * apply IH.
Qed.

(** The first snapshot: the header, then the row in its columns. *)
Lemma writeSnapshot_first (fuel : nat) (e : CSVExporter) (fs : FS) (snapshot : Snapshot) :
  headerWritten e = false -> currentSize e < DefaultMaxOutputFileSize ->
  let row := buildRow (headed snapshot e) snapshot in
  writeSnapshot fuel noFaults e fs snapshot
  = Some (setCurrentSize (wrap_int64 (currentSize e + rowBytes row))
            (setBuffered ((buffered e +:+ csvEncode (headerOf snapshot)) +:+ csvEncode row)
               (setHeaderWritten true (headed snapshot e))),
          fs, None).
Proof.
  intros Hhdr Hsize row. unfold Exporter.writeSnapshot, writeHeader, csvWrite.
  rewrite Hhdr. cbn [writeFails noFaults].
  change (currentSize (setHeaderWritten true _)) with (currentSize e).
  destruct (Z.leb_spec DefaultMaxOutputFileSize (currentSize e)) as [Hge | _]; [lia |].
  reflexivity.
Qed.

(** From a state in which no header is written yet. *)
Lemma Start_fresh (fuel : nat) (events : list (event * Faults)) :
  forall (e : CSVExporter) (fs : FS),
    running events -> Forall (fun ev => ev.2 = noFaults) events ->
    headerWritten e = false -> 0 <= currentSize e ->
    currentSize e + countedBytes formatFloat formatTime e (snapshotsOf events)
      < DefaultMaxOutputFileSize ->
    exists e' fs',
      Start fuel events e fs = Some (Waiting e' fs')
      /\ file e' = file e
      /\ written e' fs'
         = written e fs +:+ outputOf csvEncode formatFloat formatTime e (snapshotsOf events)
      /\ (forall path, path <> file e -> fs' !! path = fs !! path).
Proof.
  induction events as [| [ev fl] events IH]; intros e fs Hrun Hfl Hhdr H0 Hsize.
  - exists e, fs. cbn. rewrite string_app_nil_r. repeat split; auto.
  - apply Forall_cons in Hrun as [Hev Hrun]. apply Forall_cons in Hfl as [Hfl0 Hfl].
    cbn [snd] in Hfl0. subst fl. cbn [fst] in Hev.
    destruct ev as [| | snapshot |]; try contradiction.
    + (* the first snapshot *)
      rewrite snapshotsOf_received in *. unfold outputOf, countedBytes in *.
      rewrite !fmap_cons in *. cbn [foldr] in Hsize.
      set (eh := headed snapshot e) in *.
      set (row := buildRow eh snapshot) in *.
      pose proof (bytesOf_nonneg (buildRow eh <$> snapshotsOf events)) as Hrest.
      pose proof (rowBytes_pos row) as Hrow.
      cbn [ExporterRun.Start].
      rewrite (writeSnapshot_first fuel e fs snapshot Hhdr) by lia.
      cbn [mbind option_bind]. fold eh. fold row.
      rewrite (ExporterSpec.wrap_int64_small (currentSize e + rowBytes row))
        by (unfold is_int64, DefaultMaxOutputFileSize in *; lia).
      set (e1 := setCurrentSize _ _).
      assert (Hwritten : default "" (fs !! file e) +:+ buffered e1
                = written e fs +:+ (csvEncode (headerOf snapshot) +:+ csvEncode row)).
      { unfold e1. cbn [buffered setCurrentSize setBuffered].
        rewrite !string_app_assoc. reflexivity. }
      cbn [concatAll foldr].
      fold (concatAll (csvEncode <$> (buildRow eh <$> snapshotsOf events))).
      assert (Hfile1 : file e1 = file e) by reflexivity.
      destruct (bufferSize <=? recordCount (setRecordCount _ e1)).
      * destruct (Start_running fuel eh events
                    (setRecordCount 0 (setBuffered "" (setRecordCount
                        (wrap_int64 (recordCount e1 + 1)) e1)))
                    (<[file e := written e1 fs]> fs))
          as (e' & fs' & Hstart & Hfile & Hout & Hother);
          try assumption; try reflexivity;
          try (unfold e1;
               cbn [currentSize setRecordCount setBuffered setCurrentSize setHeaderWritten];
               lia).
        exists e', fs'. split; [exact Hstart |]. split; [exact Hfile |]. split.
        -- rewrite Hout. cbn [file buffered setRecordCount setBuffered]. rewrite Hfile1.
           rewrite lookup_insert_eq. cbn [default from_option id].
           rewrite string_app_nil_r, Hwritten, !string_app_assoc. reflexivity.
        -- intros path Hne. rewrite Hother by exact Hne.
           apply lookup_insert_ne. congruence.
      * destruct (Start_running fuel eh events
                    (setRecordCount (wrap_int64 (recordCount e1 + 1)) e1) fs)
          as (e' & fs' & Hstart & Hfile & Hout & Hother);
          try assumption; try reflexivity;
          try (unfold e1;
               cbn [currentSize setRecordCount setBuffered setCurrentSize setHeaderWritten];
               lia).
        exists e', fs'. split; [exact Hstart |]. split; [exact Hfile |]. split.
        -- rewrite Hout. cbn [file buffered setRecordCount].
           change (file e1) with (file e).
           rewrite Hwritten, !string_app_assoc. reflexivity.
        -- exact Hother.
    + (* the flush ticker *)
      rewrite snapshotsOf_tick in *. cbn [ExporterRun.Start].
      destruct (0 <? recordCount e).
      * destruct (IH (setRecordCount 0 (setBuffered "" e)) (<[file e := written e fs]> fs))
          as (e' & fs' & Hstart & Hfile & Hout & Hother); try assumption.
        exists e', fs'. split; [exact Hstart |]. split; [exact Hfile |]. split.
        -- rewrite Hout. cbn [file buffered setRecordCount setBuffered].
           rewrite lookup_insert_eq. cbn [default from_option id].
           rewrite string_app_nil_r. reflexivity.
        -- intros path Hne. rewrite Hother by exact Hne.
           apply lookup_insert_ne. congruence.
      * apply IH; assumption.
Qed.

(** X17: a new exporter whose loop receives snapshots and flush ticks, then
    the end of the context or of the channel, with no failing system call
    and a size count that stays below the rotation limit, returns without
    error and leaves in the output file what was there, followed by the
    header of the first snapshot and one row per snapshot received, in the
    order received and in the columns of that header; nothing stays
    buffered and no other file changes. *)
Theorem Start_writes_every_snapshot (fuel : nat) (outputPath : string) (fs : FS)
    (events : list (event * Faults)) (last : event) :
  let content := default "" (fs !! outputPath) in
  let e0 := mkExporter outputPath "" 0 false [] [] (Z.of_nat (String.length content))
                       outputPath 0 in
  running events -> Forall (fun ev => ev.2 = noFaults) events -> ending last ->
  Z.of_nat (String.length content)
    + countedBytes formatFloat formatTime e0 (snapshotsOf events) < DefaultMaxOutputFileSize ->
  NewCSVExporter true noFaults false outputPath fs = inl (e0, <[outputPath := content]> fs)
  /\ exists e' fs',
       Start fuel (events ++ [(last, noFaults)]) e0 (<[outputPath := content]> fs)
       = Some (Returned e' fs' None)
       /\ buffered e' = ""
       /\ fs' !! outputPath
          = Some (content +:+ outputOf csvEncode formatFloat formatTime e0 (snapshotsOf events))
       /\ (forall path, path <> outputPath -> fs' !! path = fs !! path).
Proof.
  intros content e0 Hrun Hfl Hend Hsize. split; [reflexivity |].
  destruct (Start_fresh fuel events e0 (<[outputPath := content]> fs))
    as (e1 & fs1 & Hstart & Hfile & Hout & Hother); try assumption; try reflexivity.
  { cbn [currentSize e0]. lia. }
  rewrite (Start_app fuel events [(last, noFaults)] _ _ _ _ Hstart).
  cbn [file buffered e0] in Hout, Hfile, Hother.
  rewrite lookup_insert_eq in Hout. cbn [default from_option id] in Hout.
  rewrite string_app_nil_r in Hout.
  exists (setBuffered "" e1), (<[file e1 := written e1 fs1]> fs1).
  split; [destruct last; try contradiction; reflexivity |].
  split; [reflexivity |]. split.
  - rewrite Hfile in Hout |- *. rewrite lookup_insert_eq, Hout. reflexivity.
  - intros path Hne. rewrite Hfile, lookup_insert_ne by congruence.
    rewrite Hother by exact Hne. apply lookup_insert_ne. congruence.
Qed.

End Rows.

Lemma row_after_rotation_follows_old_columns_witness :
  exists (e' : CSVExporter) (fs' : FS),
    Exporter.writeSnapshot joinRecord (fun _ => "0.00") (fun _ => "2024-01-01 00:00:00")
      3 noFaults testExporter testFS testSnapshot = Some (e', fs', None)
    /\ length (headerOf testSnapshot) = 8%nat
    /\ length (Exporter.buildRow (fun _ => "0.00") (fun _ => "2024-01-01 00:00:00")
                 testExporter testSnapshot) = 4%nat.
Proof.
  destruct (row_after_rotation_follows_old_columns joinRecord (fun _ => "0.00")
              (fun _ => "2024-01-01 00:00:00") 3 testExporter testFS testSnapshot)
    as (e' & fs' & Hrun & _ & _ & _ & Hh & Hr & _).
  - reflexivity.
  - vm_compute. discriminate.
  - vm_compute. eauto.
  - vm_compute. discriminate.
  - vm_compute. reflexivity.
  - vm_compute. lia.
  - exists e', fs'. split; [exact Hrun |]. split; [exact Hh | exact Hr].
Defined.

Lemma Start_writes_every_snapshot_witness :
  exists e' fs',
    Start joinRecord (fun _ => "0.00") (fun _ => "2024-01-01 00:00:00") 100 3
      [(Received testSnapshot, noFaults); (FlushTick, noFaults);
       (Received testSnapshot, noFaults); (CtxDone, noFaults)]
      (mkExporter "out.csv" "" 0 false [] [] 0 "out.csv" 0) {[ "out.csv" := "" ]}
    = Some (Returned e' fs' None)
    /\ buffered e' = "".
Proof.
  destruct (Start_writes_every_snapshot joinRecord (fun _ => "0.00")
              (fun _ => "2024-01-01 00:00:00") 100 3 "out.csv" ∅
              [(Received testSnapshot, noFaults); (FlushTick, noFaults);
               (Received testSnapshot, noFaults)] CtxDone)
    as (_ & e' & fs' & Hstart & Hbuf & _).
  - repeat constructor.
  - repeat constructor.
  - exact I.
  - vm_compute. reflexivity.
  - exists e', fs'. split; [exact Hstart | exact Hbuf].
Defined.

End ExporterRunSpec.

(** ** The collectors and their manager *)

Module CollectorsSpec.

Import Metrics MetricsTerms Collector Collectors CollectorsTerms.

(** *** The filter *)

Lemma containsName_elem_of (names : list string) (name : string) :
  containsName names name = true <-> name ∈ names.
Proof.
  induction names as [| n rest IH]; cbn [containsName].
  - split; [discriminate | intros H; inversion H].
  - destruct (String.eqb_spec n name) as [-> | Hne].
    + split; [intros _; left | reflexivity].
    + rewrite IH. split; [intros H; right; exact H |].
      intros H. apply elem_of_cons in H as [H | H]; [congruence | exact H].
Qed.

Lemma shouldMonitor_spec (include exclude : list string) (name : string) :
  shouldMonitor include exclude name = true
  <-> (name ∉ exclude) /\ (include = [] \/ name ∈ include).
Proof.
  unfold shouldMonitor.
  destruct (containsName exclude name) eqn:Hex.
  - apply containsName_elem_of in Hex.
    destruct exclude as [| e rest]; [inversion Hex |].
    cbn [length Nat.ltb Nat.leb andb]. split; [discriminate |].
    intros [Hnot _]. contradiction.
  - assert (Hnot : name ∉ exclude).
    { intros Hin. apply containsName_elem_of in Hin. congruence. }
    rewrite andb_false_r.
    destruct include as [| i rest]; cbn [length Nat.eqb].
    + split; [intros _; split; [exact Hnot | left; reflexivity] | reflexivity].
    + rewrite containsName_elem_of. split.
      * intros Hin. split; [exact Hnot | right; exact Hin].
      * intros [_ [Hnil | Hin]]; [discriminate | exact Hin].
Qed.

Lemma isLoopback_spec (name : string) :
  isLoopback name = true <-> name = "lo" \/ name = "lo0" \/ name = "Loopback".
Proof.
  unfold isLoopback. cbn [existsb].
  rewrite !orb_true_iff, !String.eqb_eq. split.
  - intros [H | [H | [H | H]]]; [tauto | tauto | tauto | discriminate].
  - intros [H | [H | H]]; tauto.
Qed.

Lemma substring_all (s : string) : substring 0 (String.length s) s = s.
Proof. induction s as [| c s IH]; [reflexivity |]. cbn. f_equal. exact IH. Qed.

Lemma normalizeDeviceName_dev (name : string) :
  normalizeDeviceName ("/dev/" +:+ name) = name.
Proof.
  unfold normalizeDeviceName.
  change ("/dev/" +:+ name)
    with (String "/" (String "d" (String "e" (String "v" (String "/" name))))).
  cbn [String.length Nat.leb andb]. 
  assert (H0 : substring 0 5 (String "/" (String "d" (String "e" (String "v" (String "/" name)))))
               = "/dev/").
  { cbn. destruct name; reflexivity. }
  rewrite H0. cbn [String.eqb Ascii.eqb Bool.eqb andb].
  change (5 <=? 5 + String.length name)%nat with true.
  cbn -[substring]. rewrite Nat.sub_0_r. cbn [substring]. apply substring_all.
Qed.

(** *** The loop of the disk collector *)

Section DiskLoop.

Variable goos : GOOS.
Variable now : Time.
Variable d : DiskCollector.

Local Abbreviation reportedDevice := (reportedDevice goos now d).
Local Abbreviation baselineDevice := (baselineDevice goos now d).

Lemma collectDevice_loop (counters : gmap string IOCountersStat) :
  let acc := map_fold (collectDevice goos now d) (∅, diskPrevStats d) counters in
  forall name,
    acc.1 !! name = reportedDevice counters name
    /\ acc.2 !! name = baselineDevice counters name.
Proof.
  cbv zeta.
  apply (map_fold_weak_ind
           (fun acc counters =>
              forall name,
                acc.1 !! name = reportedDevice counters name
                /\ acc.2 !! name = baselineDevice counters name)).
  - intros name. unfold reportedDevice, baselineDevice. cbn [fst snd].
    rewrite !lookup_empty. destruct (diskFirstRun d); split; reflexivity.
  - intros i x m [result prevStatsMap] Hfresh IH name.
    pose proof (IH i) as [Hri Hpi]. specialize (IH name) as [Hr Hp].
    unfold reportedDevice, baselineDevice in *. cbn [fst snd] in *.
    rewrite Hfresh in Hri, Hpi. cbn [mbind option_bind] in Hri.
    unfold collectDevice. fold (monitoredDevice d i).
    destruct (decide (name = i)) as [-> | Hne].
    + rewrite lookup_insert_eq. cbn [mbind option_bind].
      destruct (monitoredDevice d i) eqn:Hmon; cbn [negb fst snd].
      * destruct (diskFirstRun d) eqn:Hfirst; cbn [fst snd].
        -- rewrite lookup_insert_eq. split; [exact Hri | reflexivity].
        -- rewrite Hpi.
           destruct (diskPrevStats d !! i) as [prevStats |] eqn:Hprev;
             cbn [fst snd mbind option_bind]; rewrite ?lookup_insert_eq.
           ++ split; reflexivity.
           ++ split; [rewrite Hri; reflexivity | reflexivity].
      * split; [| exact Hpi].
        rewrite Hri. destruct (diskFirstRun d); [reflexivity |].
        destruct (diskPrevStats d !! i); reflexivity.
    + rewrite lookup_insert_ne by congruence.
      destruct (monitoredDevice d i) eqn:Hmon; cbn [negb fst snd]; [| split; assumption].
      destruct (diskFirstRun d) eqn:Hfirst; cbn [fst snd].
      * rewrite lookup_insert_ne by congruence. split; assumption.
      * destruct (prevStatsMap !! i); cbn [fst snd];
          rewrite ?lookup_insert_ne by congruence; split; assumption.
Qed.

(** X18: a call of the disk collector that gets the counters returns no
    error, and no map on the first run.  It reports exactly the devices
    that are in the answer of the system, pass the filter and have a
    snapshot from an earlier call, each with the three metrics between that
    snapshot and the new one; it replaces the snapshot of every device in
    the answer that passes the filter and keeps the others, also those of
    devices that are gone. *)
Theorem DiskCollect_reports (counters : gmap string IOCountersStat) :
  exists (result : gmap string DiskStats) (prevStats' : gmap string DiskIOStats),
    DiskCollect goos now (inr counters) d
    = (mkDiskCollector prevStats' (includeDevices d) (excludeDevices d) false,
       (if diskFirstRun d then None else Some result, None))
    /\ (forall name, result !! name = reportedDevice counters name)
    /\ (forall name, prevStats' !! name = baselineDevice counters name).
Proof.
  pose proof (collectDevice_loop counters) as Hloop. cbv zeta in Hloop.
  unfold DiskCollect.
  destruct (map_fold (collectDevice goos now d) (∅, diskPrevStats d) counters)
    as [result prevStatsMap].
  cbn [fst snd] in Hloop.
  exists result, prevStatsMap. split.
  - destruct (diskFirstRun d) eqn:Hfirst; reflexivity.
  - split; intros name; apply Hloop.
Qed.

End DiskLoop.

(** *** The loop of the network collector *)

Section NetworkLoop.

Variable now : Time.
Variable n : NetworkCollector.

Local Abbreviation step := (collectInterface now n).

Lemma counterOf_snoc (counters : list NetCountersStat) (c : NetCountersStat) (name : string) :
  counterOf (counters ++ [c]) name
  = match counterOf counters name with
    | Some x => Some x
    | None => if String.eqb (nName c) name then Some c else None
    end.
Proof.
  unfold counterOf. induction counters as [| x rest IH]; cbn [app find].
  - reflexivity.
  - destruct (String.eqb (nName x) name); [reflexivity | exact IH].
Qed.

Lemma counterOf_absent (counters : list NetCountersStat) (name : string) :
  name ∉ nName <$> counters -> counterOf counters name = None.
Proof.
  unfold counterOf. induction counters as [| x rest IH]; cbn [find fmap list_fmap].
  - reflexivity.
  - intros Hnot. destruct (String.eqb_spec (nName x) name) as [Heq | Hne].
    + exfalso. apply Hnot. rewrite Heq. left.
    + apply IH. intros Hin. apply Hnot. right. exact Hin.
Qed.

Lemma collectInterface_loop (counters : list NetCountersStat) :
  NoDup (nName <$> counters) ->
  let acc := foldl step (∅, netPrevStats n) counters in
  forall name,
    acc.1 !! name = reportedInterface now n counters name
    /\ acc.2 !! name = baselineInterface now n counters name.
Proof.
  cbv zeta. induction counters as [| c counters IH] using rev_ind; intros Hnodup name.
  - unfold reportedInterface, baselineInterface. cbn [foldl fst snd counterOf find].
    rewrite lookup_empty. cbn [mbind option_bind].
    destruct (netFirstRun n); split; reflexivity.
  - rewrite fmap_app in Hnodup. apply NoDup_app in Hnodup as (Hnodup & Hfresh & _).
    assert (Hc : counterOf counters (nName c) = None).
    { apply counterOf_absent. intros Hin. apply (Hfresh _ Hin). left. }
    rewrite foldl_snoc.
    pose proof (IH Hnodup (nName c)) as [Hri Hpi].
    specialize (IH Hnodup name) as [Hr Hp].
    destruct (foldl step (∅, netPrevStats n) counters) as [result prevStatsMap].
    unfold reportedInterface, baselineInterface in *. cbn [fst snd] in *.
    rewrite counterOf_snoc. rewrite Hc in Hri, Hpi. cbn [mbind option_bind] in Hri.
    unfold collectInterface, monitoredInterface in *.
    destruct (String.eqb_spec (nName c) name) as [<- | Hne].
    + rewrite Hc. cbn [mbind option_bind].
      destruct (isLoopback (nName c)); cbn [negb andb fst snd].
      { split; [| exact Hpi]. rewrite Hri. destruct (netFirstRun n); [reflexivity |].
        destruct (netPrevStats n !! nName c); reflexivity. }
      destruct (shouldMonitor (includeInterfaces n) (excludeInterfaces n) (nName c));
        cbn [negb fst snd].
      * destruct (netFirstRun n) eqn:Hfirst; cbn [fst snd].
        -- rewrite lookup_insert_eq. split; [exact Hri | reflexivity].
        -- rewrite Hpi.
           destruct (netPrevStats n !! nName c) as [prevStats |];
             cbn [fst snd mbind option_bind]; rewrite ?lookup_insert_eq.
           ++ split; reflexivity.
           ++ split; [rewrite Hri; reflexivity | reflexivity].
      * split; [| exact Hpi]. rewrite Hri. destruct (netFirstRun n); [reflexivity |].
        destruct (netPrevStats n !! nName c); reflexivity.
    + assert (Hsame : match counterOf counters name with
                      | Some x => Some x
                      | None => None
                      end = counterOf counters name)
        by (destruct (counterOf counters name); reflexivity).
      rewrite Hsame.
      destruct (isLoopback (nName c)); cbn [negb andb fst snd]; [split; assumption |].
      destruct (shouldMonitor (includeInterfaces n) (excludeInterfaces n) (nName c));
        cbn [negb fst snd]; [| split; assumption].
      destruct (netFirstRun n) eqn:Hfirst; cbn [fst snd].
      * rewrite lookup_insert_ne by congruence. split; assumption.
      * destruct (prevStatsMap !! nName c); cbn [fst snd];
          rewrite ?lookup_insert_ne by congruence; split; assumption.
Qed.

(** X19: a call of the network collector that gets the counters, with one
    entry per interface name, returns no error, and no map on the first
    run.  It reports exactly the interfaces that are in the answer of the
    system, are none of lo, lo0 and Loopback, pass the filter and have a
    snapshot from an earlier call, each with the bandwidth between that
    snapshot and the new one; it replaces the snapshot of every such
    interface in the answer and keeps the others. *)
Theorem NetworkCollect_reports (counters : list NetCountersStat) :
  NoDup (nName <$> counters) ->
  exists (result : gmap string NetStats) (prevStats' : gmap string NetworkIOStats),
    NetworkCollect now (inr counters) n
    = (mkNetworkCollector prevStats' (includeInterfaces n) (excludeInterfaces n) false,
       (if netFirstRun n then None else Some result, None))
    /\ (forall name, result !! name = reportedInterface now n counters name)
    /\ (forall name, prevStats' !! name = baselineInterface now n counters name).
Proof.
  intros Hnodup.
  pose proof (collectInterface_loop counters Hnodup) as Hloop. cbv zeta in Hloop.
  unfold NetworkCollect.
  destruct (foldl step (∅, netPrevStats n) counters) as [result prevStatsMap].
  cbn [fst snd] in Hloop.
  exists result, prevStatsMap. split.
  - destruct (netFirstRun n) eqn:Hfirst; reflexivity.
  - split; intros name; apply Hloop.
Qed.

(** Whatever the list, an entry the loop adds to the result is the
    bandwidth of a monitored interface of the list. *)
Lemma collectInterface_sound (counters : list NetCountersStat)
    (acc : gmap string NetStats * gmap string NetworkIOStats) (name : string) (ns : NetStats) :
  (foldl step acc counters).1 !! name = Some ns ->
  acc.1 !! name = Some ns
  \/ (monitoredInterface n name = true
      /\ (exists c, c ∈ counters /\ nName c = name)
      /\ exists prevStats current,
           ns = mkNetStats (CalculateNetworkBandwidth prevStats current)).
Proof.
  revert acc. induction counters as [| c counters IH]; intros acc Hlookup.
  - left. exact Hlookup.
  - cbn [foldl] in Hlookup. apply IH in Hlookup as [Hstep | (Hmon & (c' & Hin & Hc') & Hns)].
    + destruct acc as [result prevStatsMap]. unfold collectInterface in Hstep.
      cbn [fst].
      destruct (isLoopback (nName c)) eqn:Hlo; [left; exact Hstep |].
      destruct (shouldMonitor (includeInterfaces n) (excludeInterfaces n) (nName c)) eqn:Hsm;
        cbn [negb] in Hstep; [| left; exact Hstep].
      destruct (netFirstRun n); [left; exact Hstep |].
      destruct (prevStatsMap !! nName c) as [prevStats |]; [| left; exact Hstep].
      cbn [fst] in Hstep.
      destruct (decide (name = nName c)) as [-> | Hne].
      * rewrite lookup_insert_eq in Hstep. injection Hstep as <-.
        right. split; [unfold monitoredInterface; rewrite Hlo, Hsm; reflexivity |].
        split; [exists c; split; [left | reflexivity] |].
        eexists. eexists. reflexivity.
      * rewrite lookup_insert_ne in Hstep by congruence. left. exact Hstep.
    + right. split; [exact Hmon |]. split; [| exact Hns].
      exists c'. split; [right; exact Hin | exact Hc'].
Qed.

Lemma step_keeps (acc : gmap string NetStats * gmap string NetworkIOStats)
    (c : NetCountersStat) (name : string) :
  (is_Some (acc.1 !! name) -> is_Some ((step acc c).1 !! name))
  /\ (is_Some (acc.2 !! name) -> is_Some ((step acc c).2 !! name)).
Proof.
  destruct acc as [result prevStatsMap]. unfold collectInterface. cbn [fst snd].
  destruct (isLoopback (nName c)); [split; intros H; exact H |].
  destruct (shouldMonitor (includeInterfaces n) (excludeInterfaces n) (nName c));
    cbn [negb]; [| split; intros H; exact H].
  assert (Hins : forall (A : Type) (m : gmap string A) (x : A),
             is_Some (m !! name) -> is_Some (<[nName c := x]> m !! name)).
  { intros A m x Hs. destruct (decide (name = nName c)) as [-> | Hne].
    - rewrite lookup_insert_eq. eexists. reflexivity.
    - rewrite lookup_insert_ne by congruence. exact Hs. }
  destruct (netFirstRun n); cbn [fst snd]; [split; [intros H; exact H | apply Hins] |].
  destruct (prevStatsMap !! nName c); cbn [fst snd]; split;
    first [apply Hins | intros H; exact H].
Qed.

Lemma foldl_keeps (counters : list NetCountersStat)
    (acc : gmap string NetStats * gmap string NetworkIOStats) (name : string) :
  (is_Some (acc.1 !! name) -> is_Some ((foldl step acc counters).1 !! name))
  /\ (is_Some (acc.2 !! name) -> is_Some ((foldl step acc counters).2 !! name)).
Proof.
  revert acc. induction counters as [| c counters IH]; intros acc; cbn [foldl].
  - split; intros H; exact H.
  - destruct (step_keeps acc c name) as [H1 H2].
    destruct (IH (step acc c)) as [H3 H4]. split; intros H; auto.
Qed.

(** A monitored interface of the list has a snapshot after the loop, and
    is in the result if it had one before and this is not the first
    run. *)
Lemma collectInterface_complete (counters : list NetCountersStat)
    (acc : gmap string NetStats * gmap string NetworkIOStats) (c : NetCountersStat) :
  c ∈ counters -> monitoredInterface n (nName c) = true ->
  is_Some ((foldl step acc counters).2 !! nName c)
  /\ (netFirstRun n = false -> is_Some (acc.2 !! nName c) ->
      is_Some ((foldl step acc counters).1 !! nName c)).
Proof.
  intros Hin Hmon. revert acc.
  induction counters as [| x counters IH]; intros acc; [inversion Hin |].
  cbn [foldl].
  assert (Hhere : nName x = nName c ->
            is_Some ((step acc x).2 !! nName c)
            /\ (netFirstRun n = false -> is_Some (acc.2 !! nName c) ->
                is_Some ((step acc x).1 !! nName c))).
  { intros Hx. destruct acc as [result prevStatsMap]. unfold collectInterface.
    unfold monitoredInterface in Hmon. rewrite Hx.
    apply andb_true_iff in Hmon as [Hlo Hsm]. apply negb_true_iff in Hlo.
    rewrite Hlo, Hsm. cbn [negb fst snd].
    destruct (netFirstRun n); cbn [fst snd].
    - split; [rewrite lookup_insert_eq; eexists; reflexivity | discriminate].
    - split.
      + destruct (prevStatsMap !! nName c); cbn [snd];
          rewrite lookup_insert_eq; eexists; reflexivity.
      + intros _ [prevStats Hprev]. rewrite Hprev. cbn [fst].
        rewrite lookup_insert_eq. eexists. reflexivity. }
  destruct (decide (nName x = nName c)) as [Hx | Hne].
  - destruct (Hhere Hx) as [H2 H1]. destruct (foldl_keeps counters (step acc x) (nName c))
      as [K1 K2].
    split; [apply K2, H2 |]. intros Hfirst Hprev. apply K1, H1; assumption.
  - apply elem_of_cons in Hin as [-> | Hin]; [congruence |].
    destruct (IH Hin (step acc x)) as [H2 H1]. split; [exact H2 |].
    intros Hfirst Hprev. apply H1; [exact Hfirst |].
    apply (step_keeps acc x (nName c)). exact Hprev.
Qed.

End NetworkLoop.

(** *** One cycle of the manager *)

Lemma merge_fields (now : Time) (smp : Samples) :
  Timestamp (merge now smp) = now
  /\ Disks (merge now smp)
     = match diskSample smp with
       | Collected (Some diskStats) => diskStats
       | _ => ∅
       end
  /\ Networks (merge now smp)
     = match netSample smp with
       | Collected (Some netStats) => netStats
       | _ => ∅
       end
  /\ CPUWait (merge now smp)
     = match cpuSample smp with
       | Collected (_, cpuWait) => cpuWait
       | Failed _ => 0%float
       end.
Proof.
  unfold merge.
  destruct (cpuSample smp) as [? | [? ?]], (memSample smp), (diskSample smp) as [? | []],
    (netSample smp) as [? | []]; repeat split.
Qed.

Lemma collectOnce_baseline (now : Time) (smp : Samples) (ch : Chan) :
  size (Disks (merge now smp)) = 0%nat \/ size (Networks (merge now smp)) = 0%nat ->
  collectOnce now smp ch
  = (ch, collectLogs smp ++ [mkLog Debug "Baseline collection completed"], None).
Proof.
  intros Hempty. unfold collectOnce. cbv zeta.
  destruct Hempty as [H0 | H0]; rewrite (bool_decide_eq_true_2 _ H0);
    rewrite ?orb_true_r; reflexivity.
Qed.

Lemma collectOnce_sends (now : Time) (smp : Samples) (ch : Chan) :
  size (Disks (merge now smp)) <> 0%nat -> size (Networks (merge now smp)) <> 0%nat ->
  (length (buf ch) < cap ch)%nat ->
  collectOnce now smp ch
  = (sent ch (merge now smp), collectLogs smp ++ [mkLog Debug "Snapshot sent"], None).
Proof.
  intros Hd Hn Hroom. unfold collectOnce, trySend. cbv zeta.
  rewrite (bool_decide_eq_false_2 _ Hd), (bool_decide_eq_false_2 _ Hn).
  cbn [orb]. apply Nat.ltb_lt in Hroom. rewrite Hroom. reflexivity.
Qed.

Lemma collectOnce_channel (now : Time) (smp : Samples) (ch : Chan) :
  (collectOnce now smp ch).1.1 = ch
  \/ (size (Disks (merge now smp)) <> 0%nat /\ size (Networks (merge now smp)) <> 0%nat
      /\ (collectOnce now smp ch).1.1 = sent ch (merge now smp)).
Proof.
  destruct (decide (size (Disks (merge now smp)) = 0%nat)) as [Hd | Hd].
  { left. rewrite collectOnce_baseline by (left; exact Hd). reflexivity. }
  destruct (decide (size (Networks (merge now smp)) = 0%nat)) as [Hn | Hn].
  { left. rewrite collectOnce_baseline by (right; exact Hn). reflexivity. }
  destruct (decide (length (buf ch) < cap ch)%nat) as [Hroom | Hfull].
  - right. rewrite collectOnce_sends by assumption. repeat split; assumption.
  - left. unfold collectOnce, trySend. cbv zeta.
    rewrite (bool_decide_eq_false_2 _ Hd), (bool_decide_eq_false_2 _ Hn). cbn [orb].
    apply Nat.ltb_nlt in Hfull. rewrite Hfull. reflexivity.
Qed.

Lemma Manager_collectOnce_eq (goos : GOOS) (r : Readings) (m : Manager) :
  Manager_collectOnce goos r m
  = let answer := collectOnce (rNow r) (samplesOf goos r m) (metricsChan m) in
    (mkManager (CPUCollect goos (rCPUNow r) (rCPUTimes r) (cpu m)).1
               (DiskCollect goos (rDiskNow r) (rDiskCounters r) (disk m)).1
               (NetworkCollect (rNetNow r) (rNetCounters r) (network m)).1
               answer.1.1,
     answer.1.2, answer.2).
Proof.
  unfold Manager_collectOnce, samplesOf.
  destruct (CPUCollect goos (rCPUNow r) (rCPUTimes r) (cpu m)) as [cpu' cpuAnswer].
  destruct (DiskCollect goos (rDiskNow r) (rDiskCounters r) (disk m)) as [disk' diskAnswer].
  destruct (NetworkCollect (rNetNow r) (rNetCounters r) (network m)) as [network' netAnswer].
  cbn [fst snd]. cbv zeta.
  destruct (collectOnce _ _ _) as [[metricsChan' logs] err]. reflexivity.
Qed.

Lemma cycle_disks (goos : GOOS) (r : Readings) (m : Manager) (name : string) :
  Disks (merge (rNow r) (samplesOf goos r m)) !! name
  = match rDiskCounters r with
    | inr counters => reportedDevice goos (rDiskNow r) (disk m) counters name
    | inl _ => None
    end.
Proof.
  destruct (merge_fields (rNow r) (samplesOf goos r m)) as (_ & -> & _).
  unfold samplesOf. cbn [diskSample].
  destruct (rDiskCounters r) as [err | counters]; [apply lookup_empty |].
  destruct (DiskCollect_reports goos (rDiskNow r) (disk m) counters)
    as (result & prevStats' & -> & Hr & _).
  rewrite <- Hr. unfold sampleOf. cbn [fst snd].
  destruct (diskFirstRun (disk m)) eqn:Hfirst; [| reflexivity].
  rewrite Hr. unfold CollectorsTerms.reportedDevice. rewrite Hfirst. apply lookup_empty.
Qed.

Lemma cycle_networks (goos : GOOS) (r : Readings) (m : Manager) :
  Networks (merge (rNow r) (samplesOf goos r m))
  = match rNetCounters r with
    | inr counters =>
        if netFirstRun (network m) then ∅
        else (foldl (collectInterface (rNetNow r) (network m))
                    (∅, netPrevStats (network m)) counters).1
    | inl _ => ∅
    end.
Proof.
  destruct (merge_fields (rNow r) (samplesOf goos r m)) as (_ & _ & -> & _).
  unfold samplesOf. cbn [netSample]. unfold NetworkCollect.
  destruct (rNetCounters r) as [err | counters]; [reflexivity |].
  destruct (foldl _ _ counters) as [result prevStatsMap].
  destruct (netFirstRun (network m)); reflexivity.
Qed.

Lemma cycle_network_entry (goos : GOOS) (r : Readings) (m : Manager) (name : string)
    (ns : NetStats) :
  Networks (merge (rNow r) (samplesOf goos r m)) !! name = Some ns ->
  monitoredInterface (network m) name = true
  /\ (exists counters c, rNetCounters r = inr counters /\ c ∈ counters /\ nName c = name)
  /\ exists prevStats current, ns = mkNetStats (CalculateNetworkBandwidth prevStats current).
Proof.
  rewrite cycle_networks.
  destruct (rNetCounters r) as [err | counters]; [rewrite lookup_empty; discriminate |].
  destruct (netFirstRun (network m)); [rewrite lookup_empty; discriminate |].
  intros Hlookup. apply collectInterface_sound in Hlookup as [Hempty | (Hmon & (c & Hin & Hc) & Hns)].
  - cbn [fst] in Hempty. rewrite lookup_empty in Hempty. discriminate.
  - split; [exact Hmon |]. split; [| exact Hns]. exists counters, c. auto.
Qed.

(** *** What the delta engine gives the collectors *)

Lemma diskStatsBetween_in_range (prevStats current : DiskIOStats) :
  let stats := diskStatsBetween prevStats current in
  isPercent (Utilization stats) = true
  /\ nonNegative (Await stats) = true /\ nonNegative (IOPS stats) = true.
Proof.
  cbv zeta. unfold diskStatsBetween, nonNegative. cbn [Utilization Await IOPS].
  split; [apply PercentSpec.disk_utilization_percent |]. split.
  - unfold CalculateDiskAwait.
    destruct (IsZero (diskTimestamp prevStats)); [reflexivity |].
    cbv zeta. cbn [of_Z fdiv ieee].
    set (ops := wrap_uint64 (wrap_uint64 _ + wrap_uint64 _)).
    set (time := wrap_uint64 (wrap_uint64 _ + wrap_uint64 _)).
    destruct (Z.eqb_spec ops 0) as [Hz | Hnz]; [reflexivity |].
    pose proof (FloatSpec.wrap_uint64_bounds
                  (wrap_uint64 (ReadCount current - ReadCount prevStats)
                   + wrap_uint64 (WriteCount current - WriteCount prevStats))) as Ho.
    fold ops in Ho.
    apply FloatSpec.signed_nonneg. rewrite FloatAxioms.div_spec.
    destruct (FloatSpec.float64_of_Z_positive ops) as (mo & eo & ->); [lia |].
    apply RoundingSpec.SFdiv_signed, RoundingSpec.float64_of_Z_signed.
    apply FloatSpec.wrap_uint64_bounds.
  - unfold CalculateDiskIOPS.
    destruct (IsZero (diskTimestamp prevStats)); [reflexivity |].
    cbv zeta. cbn [of_Z fdiv fle ieee].
    change (float64_of_Z 0) with 0%float.
    destruct (Seconds (Sub (diskTimestamp current) (diskTimestamp prevStats)) <=? 0)%float
      eqn:Hdt; [reflexivity |].
    apply FloatSpec.rate_nonneg;
      [apply FloatSpec.wrap_uint64_bounds | apply FloatSpec.Sub_bounds | exact Hdt].
Qed.

Lemma bandwidth_nonNegative (prevStats current : NetworkIOStats) :
  nonNegative (CalculateNetworkBandwidth prevStats current) = true.
Proof.
  unfold nonNegative, CalculateNetworkBandwidth.
  destruct (IsZero (netTimestamp prevStats)); [reflexivity |].
  cbv zeta. cbn [of_Z fdiv fle ieee].
  change (float64_of_Z 0) with 0%float.
  destruct (Seconds (Sub (netTimestamp current) (netTimestamp prevStats)) <=? 0)%float
    eqn:Hdt; [reflexivity |].
  apply FloatSpec.rate_nonneg;
    [apply FloatSpec.wrap_uint64_bounds | apply FloatSpec.Sub_bounds | exact Hdt].
Qed.

Lemma reportedDevice_Some (goos : GOOS) (now : Time) (d : DiskCollector)
    (counters : gmap string IOCountersStat) (name : string) (stats : DiskStats) :
  reportedDevice goos now d counters name = Some stats ->
  diskFirstRun d = false /\ monitoredDevice d name = true
  /\ exists counter prevStats,
       counters !! name = Some counter /\ diskPrevStats d !! name = Some prevStats
       /\ stats = diskStatsBetween prevStats (diskStatsOf goos now counter).
Proof.
  unfold reportedDevice. destruct (diskFirstRun d); [discriminate |].
  destruct (counters !! name) as [counter |]; [| discriminate].
  destruct (diskPrevStats d !! name) as [prevStats |]; [| discriminate].
  cbn [mbind option_bind]. destruct (monitoredDevice d name); [| discriminate].
  intros [= <-]. repeat split. exists counter, prevStats. repeat split.
Qed.

(** X20: a cycle of the manager, from any state of its collectors and of
    the channel, either leaves the channel as it is or adds one snapshot
    to it, stamped with the instant of the cycle and holding at least one
    disk and one interface; every disk of it has a utilization between 0
    and 100, an await and a rate of operations that are not negative, and
    every interface a bandwidth that is not negative (none of them NaN). *)
Theorem published_snapshot_in_range (goos : GOOS) (r : Readings) (m : Manager) :
  let m' := (Manager_collectOnce goos r m).1.1 in
  metricsChan m' = metricsChan m
  \/ exists s : Snapshot,
       metricsChan m' = sent (metricsChan m) s
       /\ Timestamp s = rNow r
       /\ size (Disks s) <> 0%nat /\ size (Networks s) <> 0%nat
       /\ (forall name stats,
             Disks s !! name = Some stats ->
             isPercent (Utilization stats) = true
             /\ nonNegative (Await stats) = true /\ nonNegative (IOPS stats) = true)
       /\ (forall name stats,
             Networks s !! name = Some stats -> nonNegative (Bandwidth stats) = true).
Proof.
  cbv zeta. rewrite Manager_collectOnce_eq. cbv zeta. cbn [fst snd metricsChan].
  destruct (collectOnce_channel (rNow r) (samplesOf goos r m) (metricsChan m))
    as [Hsame | (Hd & Hn & Hsent)]; [left; exact Hsame | right].
  exists (merge (rNow r) (samplesOf goos r m)).
  split; [exact Hsent |]. split; [apply merge_fields |].
  split; [exact Hd |]. split; [exact Hn |]. split.
  - intros name stats Hlookup. rewrite cycle_disks in Hlookup.
    destruct (rDiskCounters r) as [err | counters]; [discriminate |].
    apply reportedDevice_Some in Hlookup as (_ & _ & counter & prevStats & _ & _ & ->).
    apply diskStatsBetween_in_range.
  - intros name stats Hlookup.
    apply cycle_network_entry in Hlookup as (_ & _ & prevStats & current & ->).
    apply bandwidth_nonNegative.
Qed.

Lemma DiskCollect_filter (goos : GOOS) (now : Time)
    (ioCounters : string + gmap string IOCountersStat) (d : DiskCollector) :
  includeDevices (DiskCollect goos now ioCounters d).1 = includeDevices d
  /\ excludeDevices (DiskCollect goos now ioCounters d).1 = excludeDevices d.
Proof.
  destruct ioCounters as [err | counters]; [split; reflexivity |].
  destruct (DiskCollect_reports goos now d counters) as (result & prevStats' & -> & _).
  split; reflexivity.
Qed.

Lemma NetworkCollect_filter (now : Time) (ioCounters : string + list NetCountersStat)
    (n : NetworkCollector) :
  includeInterfaces (NetworkCollect now ioCounters n).1 = includeInterfaces n
  /\ excludeInterfaces (NetworkCollect now ioCounters n).1 = excludeInterfaces n.
Proof.
  destruct ioCounters as [err | counters]; [split; reflexivity |].
  unfold NetworkCollect. destruct (foldl _ _ counters) as [result prevStatsMap].
  destruct (netFirstRun n); split; reflexivity.
Qed.

(** X21: the names in a snapshot a cycle adds to the channel pass the
    filters: a disk is in the answer of the system, not in the exclude
    list of the collector and, unless the include list is empty, in it; an
    interface likewise, and is none of lo, lo0 and Loopback.  The cycle
    leaves the four lists as they are. *)
Theorem published_names_pass_filters (goos : GOOS) (r : Readings) (m : Manager) :
  let m' := (Manager_collectOnce goos r m).1.1 in
  (includeDevices (disk m') = includeDevices (disk m)
   /\ excludeDevices (disk m') = excludeDevices (disk m)
   /\ includeInterfaces (network m') = includeInterfaces (network m)
   /\ excludeInterfaces (network m') = excludeInterfaces (network m))
  /\ (metricsChan m' = metricsChan m
      \/ exists s : Snapshot,
           metricsChan m' = sent (metricsChan m) s
           /\ (forall name,
                 is_Some (Disks s !! name) ->
                 (exists counters,
                    rDiskCounters r = inr counters /\ is_Some (counters !! name))
                 /\ (name ∉ excludeDevices (disk m))
                 /\ (includeDevices (disk m) = [] \/ name ∈ includeDevices (disk m)))
           /\ (forall name,
                 is_Some (Networks s !! name) ->
                 (exists counters counter,
                    rNetCounters r = inr counters /\ counter ∈ counters
                    /\ nName counter = name)
                 /\ (name ∉ ["lo"; "lo0"; "Loopback"])
                 /\ (name ∉ excludeInterfaces (network m))
                 /\ (includeInterfaces (network m) = []
                     \/ name ∈ includeInterfaces (network m)))).
Proof.
  cbv zeta. rewrite Manager_collectOnce_eq. cbv zeta. cbn [fst snd metricsChan disk network].
  split.
  { destruct (DiskCollect_filter goos (rDiskNow r) (rDiskCounters r) (disk m)) as [H1 H2].
    destruct (NetworkCollect_filter (rNetNow r) (rNetCounters r) (network m)) as [H3 H4].
    auto. }
  destruct (collectOnce_channel (rNow r) (samplesOf goos r m) (metricsChan m))
    as [Hsame | (Hd & Hn & Hsent)]; [left; exact Hsame | right].
  exists (merge (rNow r) (samplesOf goos r m)).
  split; [exact Hsent |]. split.
  - intros name [stats Hlookup]. rewrite cycle_disks in Hlookup.
    destruct (rDiskCounters r) as [err | counters]; [discriminate |].
    apply reportedDevice_Some in Hlookup as (_ & Hmon & counter & prevStats & Hc & _ & _).
    apply shouldMonitor_spec in Hmon as [Hex Hin].
    split; [exists counters; split; [reflexivity | rewrite Hc; eexists; reflexivity] |].
    split; assumption.
  - intros name [stats Hlookup].
    apply cycle_network_entry in Hlookup as (Hmon & Hc & _).
    unfold monitoredInterface in Hmon. apply andb_true_iff in Hmon as [Hlo Hsm].
    apply shouldMonitor_spec in Hsm as [Hex Hin].
    split; [exact Hc |]. split; [| split; assumption].
    intros Hlist. apply negb_true_iff in Hlo.
    assert (Hyes : isLoopback name = true).
    { apply isLoopback_spec. rewrite !elem_of_cons in Hlist.
      destruct Hlist as [H | [H | [H | H]]]; [tauto | tauto | tauto | inversion H]. }
    congruence.
Qed.

Lemma published_filters (goos : GOOS) (r : Readings) (m : Manager) :
  let m' := (Manager_collectOnce goos r m).1.1 in
  includeDevices (disk m') = includeDevices (disk m)
  /\ excludeDevices (disk m') = excludeDevices (disk m)
  /\ includeInterfaces (network m') = includeInterfaces (network m)
  /\ excludeInterfaces (network m') = excludeInterfaces (network m).
Proof.
  cbv zeta. rewrite Manager_collectOnce_eq. cbv zeta. cbn [fst disk network].
  destruct (DiskCollect_filter goos (rDiskNow r) (rDiskCounters r) (disk m)) as [H1 H2].
  destruct (NetworkCollect_filter (rNetNow r) (rNetCounters r) (network m)) as [H3 H4].
  auto.
Qed.

(** *** Cycles that publish nothing, and the first that does *)

Lemma size_lookup {A : Type} (m : gmap string A) (name : string) :
  is_Some (m !! name) -> size m <> 0%nat.
Proof.
  intros [x Hx] Hsize. apply map_size_empty_iff in Hsize. subst m.
  rewrite lookup_empty in Hx. discriminate.
Qed.

Lemma size_no_lookup {A : Type} (m : gmap string A) :
  (forall name, m !! name = None) -> size m = 0%nat.
Proof. intros Hnone. apply map_size_empty_iff, map_empty. exact Hnone. Qed.

Lemma cycle_unchanged (goos : GOOS) (r : Readings) (m : Manager) :
  size (Disks (merge (rNow r) (samplesOf goos r m))) = 0%nat
  \/ size (Networks (merge (rNow r) (samplesOf goos r m))) = 0%nat ->
  metricsChan (Manager_collectOnce goos r m).1.1 = metricsChan m
  /\ (Manager_collectOnce goos r m).2 = None.
Proof.
  intros Hempty. rewrite Manager_collectOnce_eq. cbv zeta. cbn [fst snd metricsChan].
  rewrite collectOnce_baseline by exact Hempty. split; reflexivity.
Qed.

Lemma monitoredDevice_filter (d d' : DiskCollector) (name : string) :
  includeDevices d = includeDevices d' -> excludeDevices d = excludeDevices d' ->
  monitoredDevice d name = monitoredDevice d' name.
Proof. unfold monitoredDevice. intros -> ->. reflexivity. Qed.

Lemma monitoredInterface_filter (n n' : NetworkCollector) (name : string) :
  includeInterfaces n = includeInterfaces n' -> excludeInterfaces n = excludeInterfaces n' ->
  monitoredInterface n name = monitoredInterface n' name.
Proof. unfold monitoredInterface. intros -> ->. reflexivity. Qed.

Section Filters.

Variable goos : GOOS.
Variable cfg : Config.Config.

Local Abbreviation disk0 :=
  (NewDiskCollector (Config.IncludeDisks cfg) (Config.ExcludeDisks cfg)).
Local Abbreviation network0 :=
  (NewNetworkCollector (Config.IncludeNetworks cfg) (Config.ExcludeNetworks cfg)).

Lemma cycle_without_monitored (r : Readings) (m : Manager) :
  includeDevices (disk m) = includeDevices disk0 ->
  excludeDevices (disk m) = excludeDevices disk0 ->
  includeInterfaces (network m) = includeInterfaces network0 ->
  excludeInterfaces (network m) = excludeInterfaces network0 ->
  noDeviceMonitored cfg r \/ noInterfaceMonitored cfg r ->
  metricsChan (Manager_collectOnce goos r m).1.1 = metricsChan m
  /\ (Manager_collectOnce goos r m).2 = None.
Proof.
  intros Hdi Hde Hni Hne Hnone. apply cycle_unchanged.
  destruct Hnone as [Hnone | Hnone]; [left | right]; apply size_no_lookup; intros name.
  - rewrite cycle_disks.
    destruct (rDiskCounters r) as [err | counters] eqn:Hr; [reflexivity |].
    destruct (reportedDevice goos (rDiskNow r) (disk m) counters name) as [stats |] eqn:Hrep;
      [| reflexivity].
    apply reportedDevice_Some in Hrep as (_ & Hmon & counter & _ & Hc & _).
    rewrite (monitoredDevice_filter _ disk0 name Hdi Hde) in Hmon.
    rewrite (Hnone counters name Hr) in Hmon; [discriminate |].
    rewrite Hc. eexists. reflexivity.
  - destruct (Networks (merge (rNow r) (samplesOf goos r m)) !! name) as [stats |] eqn:Hrep;
      [| reflexivity].
    apply cycle_network_entry in Hrep as (Hmon & (counters & c & Hr & Hin & Hc) & _).
    rewrite (monitoredInterface_filter _ network0 name Hni Hne) in Hmon.
    rewrite <- Hc, (Hnone counters c Hr Hin) in Hmon. discriminate.
Qed.

(** X22: when in every reading no device passes the disk filter of the
    configuration, or in every reading no interface passes the network
    filter (loopback interfaces never do), the manager never writes to the
    channel, however many cycles it runs: a snapshot needs at least one
    disk and one interface. *)
Theorem nothing_published_without_monitored (ch : Chan) (readings : list Readings) :
  Forall (noDeviceMonitored cfg) readings \/ Forall (noInterfaceMonitored cfg) readings ->
  metricsChan (Manager_cycles goos readings (NewManager cfg ch)) = ch.
Proof.
  intros Hnone.
  assert (Hinv : forall m,
             includeDevices (disk m) = includeDevices disk0 ->
             excludeDevices (disk m) = excludeDevices disk0 ->
             includeInterfaces (network m) = includeInterfaces network0 ->
             excludeInterfaces (network m) = excludeInterfaces network0 ->
             metricsChan (Manager_cycles goos readings m) = metricsChan m).
  { induction readings as [| r readings IH]; intros m Hdi Hde Hni Hne; [reflexivity |].
    assert (Hr : noDeviceMonitored cfg r \/ noInterfaceMonitored cfg r).
    { destruct Hnone as [H | H]; [left | right]; exact (Forall_inv H). }
    assert (Hrest : Forall (noDeviceMonitored cfg) readings
                    \/ Forall (noInterfaceMonitored cfg) readings).
    { destruct Hnone as [H | H]; [left | right]; exact (Forall_inv_tail H). }
    destruct (cycle_without_monitored r m Hdi Hde Hni Hne Hr) as [Hch _].
    destruct (published_filters goos r m) as (K1 & K2 & K3 & K4).
    change (Manager_cycles goos (r :: readings) m)
      with (Manager_cycles goos readings (Manager_collectOnce goos r m).1.1).
    rewrite (IH Hrest) by congruence. exact Hch. }
  apply (Hinv (NewManager cfg ch)); reflexivity.
Qed.

(** X23: the first cycle of a new manager writes nothing to the channel.
    If a monitored device and a monitored interface are in the readings
    of the first two cycles and the channel has room, the second cycle
    adds one snapshot, stamped with its instant, that holds them. *)
Theorem second_cycle_publishes (ch : Chan) (r1 r2 : Readings)
    (disks1 disks2 : gmap string IOCountersStat) (nets1 nets2 : list NetCountersStat)
    (device : string) (iface1 iface2 : NetCountersStat) :
  rDiskCounters r1 = inr disks1 -> rDiskCounters r2 = inr disks2 ->
  rNetCounters r1 = inr nets1 -> rNetCounters r2 = inr nets2 ->
  is_Some (disks1 !! device) -> is_Some (disks2 !! device) ->
  monitoredDevice disk0 device = true ->
  iface1 ∈ nets1 -> iface2 ∈ nets2 -> nName iface1 = nName iface2 ->
  monitoredInterface network0 (nName iface1) = true ->
  (length (buf ch) < cap ch)%nat ->
  let m1 := (Manager_collectOnce goos r1 (NewManager cfg ch)).1.1 in
  metricsChan m1 = ch
  /\ exists s : Snapshot,
       metricsChan (Manager_collectOnce goos r2 m1).1.1 = sent ch s
       /\ (Manager_collectOnce goos r2 m1).2 = None
       /\ Timestamp s = rNow r2
       /\ is_Some (Disks s !! device) /\ is_Some (Networks s !! nName iface1).
Proof.
  intros Hd1 Hd2 Hn1 Hn2 [c1 Hc1] [c2 Hc2] Hmon Hi1 Hi2 Hname Hmoni Hroom. cbv zeta.
  set (m0 := NewManager cfg ch).
  assert (Hfirst : metricsChan (Manager_collectOnce goos r1 m0).1.1 = ch).
  { apply (cycle_unchanged goos r1 m0). left. apply size_no_lookup. intros name.
    rewrite cycle_disks, Hd1. reflexivity. }
  split; [exact Hfirst |].
  set (m1 := (Manager_collectOnce goos r1 m0).1.1) in *.
  assert (Hdisk : disk m1 = (DiskCollect goos (rDiskNow r1) (inr disks1) disk0).1).
  { unfold m1. rewrite Manager_collectOnce_eq. cbv zeta. cbn [fst disk]. rewrite Hd1.
    reflexivity. }
  assert (Hnet : network m1 = (NetworkCollect (rNetNow r1) (inr nets1) network0).1).
  { unfold m1. rewrite Manager_collectOnce_eq. cbv zeta. cbn [fst network]. rewrite Hn1.
    reflexivity. }
  destruct (DiskCollect_reports goos (rDiskNow r1) disk0 disks1)
    as (result & prevStats' & Heq & _ & Hprev).
  rewrite Heq in Hdisk. cbn [fst] in Hdisk.
  assert (Hbase : is_Some (prevStats' !! device)).
  { rewrite Hprev. unfold baselineDevice. rewrite Hc1, Hmon. eexists. reflexivity. }
  assert (Hnetwork : netFirstRun (network m1) = false
                     /\ includeInterfaces (network m1) = includeInterfaces network0
                     /\ excludeInterfaces (network m1) = excludeInterfaces network0
                     /\ is_Some (netPrevStats (network m1) !! nName iface1)).
  { rewrite Hnet. unfold NetworkCollect.
    pose proof (collectInterface_complete (rNetNow r1) network0 nets1
                  (∅, netPrevStats network0) iface1 Hi1 Hmoni) as [Hsome _].
    destruct (foldl _ _ nets1) as [res prevStatsMap]. cbn [snd] in Hsome.
    cbn [netFirstRun NewNetworkCollector fst includeInterfaces excludeInterfaces
         netPrevStats].
    repeat split. exact Hsome. }
  destruct Hnetwork as (Hnf & Hni & Hne & Hnb).
  assert (Hdisks : is_Some (Disks (merge (rNow r2) (samplesOf goos r2 m1)) !! device)).
  { rewrite cycle_disks, Hd2, Hdisk. unfold reportedDevice.
    cbn [diskFirstRun diskPrevStats]. rewrite Hc2. destruct Hbase as [p ->].
    cbn [mbind option_bind].
    rewrite (monitoredDevice_filter _ disk0 device) by reflexivity.
    rewrite Hmon. eexists. reflexivity. }
  assert (Hnets : is_Some (Networks (merge (rNow r2) (samplesOf goos r2 m1))
                             !! nName iface1)).
  { rewrite cycle_networks, Hn2, Hnf. rewrite Hname.
    apply (collectInterface_complete (rNetNow r2) (network m1) nets2 _ iface2 Hi2).
    - rewrite <- Hname. rewrite (monitoredInterface_filter _ network0 _ Hni Hne).
      exact Hmoni.
    - exact Hnf.
    - cbn [snd]. rewrite <- Hname. exact Hnb. }
  exists (merge (rNow r2) (samplesOf goos r2 m1)).
  rewrite Manager_collectOnce_eq. cbv zeta. cbn [fst snd metricsChan].
  rewrite collectOnce_sends;
    [| apply (size_lookup _ device), Hdisks | apply (size_lookup _ (nName iface1)), Hnets
     | rewrite Hfirst; exact Hroom].
  cbn [fst snd]. rewrite Hfirst.
  split; [reflexivity |]. split; [reflexivity |].
  split; [apply merge_fields |]. split; assumption.
Qed.

End Filters.

(** *** The wait column without a reading of the wait time *)

Lemma sent_inv (goos : GOOS) (r : Readings) (m : Manager) (s : Snapshot) :
  metricsChan (Manager_collectOnce goos r m).1.1 = sent (metricsChan m) s ->
  s = merge (rNow r) (samplesOf goos r m).
Proof.
  rewrite Manager_collectOnce_eq. cbv zeta. cbn [fst metricsChan].
  destruct (collectOnce_channel (rNow r) (samplesOf goos r m) (metricsChan m))
    as [-> | (_ & _ & ->)]; unfold sent; intros Heq.
  - apply (f_equal buf) in Heq. cbn [buf] in Heq.
    apply (f_equal length) in Heq. rewrite length_app in Heq. cbn [length] in Heq. lia.
  - apply (f_equal buf) in Heq. cbn [buf] in Heq.
    apply app_inj_tail in Heq as [_ Heq]. congruence.
Qed.

Lemma CPUCollect_wait (goos : GOOS) (now : Time) (times : string + list TimesStat)
    (c : CPUCollector) :
  goos = windows \/ goos = otherOS ->
  (CPUCollect goos now times c).2.1.2 = (-1)%float.
Proof.
  intros Hos. unfold CPUCollect, getCPUTimeStats.
  destruct times as [err | [| t rest]]; [reflexivity | reflexivity |].
  destruct (cpuFirstRun c); [reflexivity |]. cbn [fst snd].
  unfold CalculateCPUIOWait. cbn [cpuTimestamp IOWait of_Z flt ieee].
  change (float64_of_Z (-1)) with (-1)%float.
  destruct (IsZero (cpuTimestamp (cpuPrevStats c))); [reflexivity |].
  assert (Hwait : getIOWait goos t = (-1)%float) by (destruct Hos as [-> | ->]; reflexivity).
  rewrite Hwait. reflexivity.
Qed.

Section WaitColumn.

Variable formatFloat : float -> string.
Variable formatTime : Time -> string.

(** X24: on Windows and on a system the collector does not know, every
    call of the CPU collector answers -1 for the wait percentage, whatever
    the counters; in the row of a snapshot the manager published, the wait
    cell then reads N/A, unless the CPU reading of that cycle failed, when
    it is the format of 0. *)
Theorem wait_column_without_iowait (goos : GOOS) (r : Readings) (m : Manager)
    (e : Exporter.CSVExporter) (s : Snapshot) :
  goos = windows \/ goos = otherOS ->
  metricsChan (Manager_collectOnce goos r m).1.1 = sent (metricsChan m) s ->
  let answer := (CPUCollect goos (rCPUNow r) (rCPUTimes r) (cpu m)).2 in
  answer.1.2 = (-1)%float
  /\ Exporter.buildRow formatFloat formatTime e s !! 2%nat
     = Some (match answer.2 with
             | None => Exporter.naString
             | Some _ => formatFloat 0%float
             end).
Proof.
  intros Hos Hsent. cbv zeta.
  pose proof (CPUCollect_wait goos (rCPUNow r) (rCPUTimes r) (cpu m) Hos) as Hwait.
  split; [exact Hwait |].
  apply sent_inv in Hsent. subst s.
  unfold Exporter.buildRow. cbn [app lookup list_lookup].
  f_equal. destruct (merge_fields (rNow r) (samplesOf goos r m)) as (_ & _ & _ & ->).
  unfold samplesOf. cbn [cpuSample]. unfold sampleOf. cbn [fst snd].
  destruct (CPUCollect goos (rCPUNow r) (rCPUTimes r) (cpu m)) as [c' [[u w] err]].
  cbn [fst snd] in *. subst w.
  destruct err; reflexivity.
Qed.

End WaitColumn.

(** *** Memory *)

(** X25: the memory collector fails exactly when the reading fails or the
    total is zero; otherwise, on counters of 64 bits, the percentage it
    returns is neither negative nor NaN. *)
Theorem MemoryCollect_not_negative (vm : VirtualMemoryStat) :
  is_uint64 (vmUsed vm) -> is_uint64 (vmTotal vm) ->
  ((MemoryCollect (inr vm)).2 = None <-> vmTotal vm <> 0)
  /\ nonNegative (MemoryCollect (inr vm)).1 = true.
Proof.
  intros Hused Htotal. unfold MemoryCollect, nonNegative, is_uint64 in *.
  destruct (Z.eqb_spec (vmTotal vm) 0) as [Hz | Hnz]; cbn [fst snd].
  - split; [| reflexivity]. split; [discriminate | contradiction].
  - split; [split; [intros _; exact Hnz | reflexivity] |].
    apply FloatSpec.signed_nonneg.
    rewrite FloatAxioms.mul_spec, FloatAxioms.div_spec.
    destruct (FloatSpec.float64_of_Z_positive (vmTotal vm)) as (mt & et & ->); [lia |].
    apply (RoundingSpec.SFmul_signed _ _ 7036874417766400 (-46)); [| reflexivity].
    apply RoundingSpec.SFdiv_signed, RoundingSpec.float64_of_Z_signed. lia.
Qed.

Lemma NetworkCollect_reports_witness :
  let counters := [mkNetCounters "lo" 10 10; mkNetCounters "eth0" 20 20] in
  let n := NewNetworkCollector [] ["eth1"] in
  exists (result : gmap string NetStats) (prevStats' : gmap string NetworkIOStats),
    NetworkCollect zeroTime (inr counters) n
    = (mkNetworkCollector prevStats' [] ["eth1"] false, (None, None))
    /\ (forall name, result !! name = reportedInterface zeroTime n counters name)
    /\ (forall name, prevStats' !! name = baselineInterface zeroTime n counters name).
Proof.
  cbv zeta.
  apply (NetworkCollect_reports zeroTime (NewNetworkCollector [] ["eth1"])
           [mkNetCounters "lo" 10 10; mkNetCounters "eth0" 20 20]).
  apply (proj1 (bool_decide_eq_true _)). vm_compute. reflexivity.
Defined.

Lemma nothing_published_without_monitored_witness :
  metricsChan
    (Manager_cycles linux [testReadings 1 100 1000; testReadings 2 200 2000]
                    (NewManager (testConfig ["/dev/sdz"] [] [] []) (mkChan [] 10)))
  = mkChan [] 10.
Proof.
  apply (nothing_published_without_monitored linux (testConfig ["/dev/sdz"] [] [] [])).
  left.
  assert (Hnone : forall second ops bytes,
             noDeviceMonitored (testConfig ["/dev/sdz"] [] [] [])
                               (testReadings second ops bytes)).
  { intros second ops bytes counters name Hr [counter Hc].
    injection Hr as <-. apply lookup_singleton_Some in Hc as [<- _].
    vm_compute. reflexivity. }
  repeat constructor; apply Hnone.
Defined.

Lemma second_cycle_publishes_witness :
  let cfg := testConfig [] ["sdb"] ["eth0"] [] in
  let m1 := (Manager_collectOnce linux (testReadings 1 100 1000)
                                 (NewManager cfg (mkChan [] 10))).1.1 in
  metricsChan m1 = mkChan [] 10
  /\ exists s : Snapshot,
       metricsChan (Manager_collectOnce linux (testReadings 2 200 2000) m1).1.1
       = sent (mkChan [] 10) s
       /\ (Manager_collectOnce linux (testReadings 2 200 2000) m1).2 = None
       /\ Timestamp s = rNow (testReadings 2 200 2000)
       /\ is_Some (Disks s !! "sda") /\ is_Some (Networks s !! "eth0").
Proof.
  cbv zeta.
  apply (second_cycle_publishes linux (testConfig [] ["sdb"] ["eth0"] []) (mkChan [] 10)
           (testReadings 1 100 1000) (testReadings 2 200 2000)
           {[ "sda" := mkIOCounters 100 100 100 100 100 ]}
           {[ "sda" := mkIOCounters 200 200 200 200 200 ]}
           [mkNetCounters "lo" 1000 1000; mkNetCounters "eth0" 1000 1000]
           [mkNetCounters "lo" 2000 2000; mkNetCounters "eth0" 2000 2000]
           "sda" (mkNetCounters "eth0" 1000 1000) (mkNetCounters "eth0" 2000 2000)).
  - reflexivity.
  - reflexivity.
  - reflexivity.
  - reflexivity.
  - eexists. reflexivity.
  - eexists. reflexivity.
  - vm_compute. reflexivity.
  - right. left.
  - right. left.
  - reflexivity.
  - vm_compute. reflexivity.
  - cbn. lia.
Defined.

Lemma wait_column_without_iowait_witness :
  let m1 := (Manager_collectOnce windows (testReadings 1 100 1000)
                                 (NewManager (testConfig [] [] [] []) (mkChan [] 10))).1.1 in
  let r2 := testReadings 2 200 2000 in
  (CPUCollect windows (rCPUNow r2) (rCPUTimes r2) (cpu m1)).2.1.2 = (-1)%float
  /\ Exporter.buildRow (fun _ => "0.00") (fun _ => "2024-01-01 00:00:02")
                       ExporterTerms.testExporter
                       (merge (rNow r2) (samplesOf windows r2 m1)) !! 2%nat
     = Some "N/A".
Proof.
  cbv zeta.
  apply (wait_column_without_iowait (fun _ => "0.00") (fun _ => "2024-01-01 00:00:02")
           windows (testReadings 2 200 2000)
           (Manager_collectOnce windows (testReadings 1 100 1000)
              (NewManager (testConfig [] [] [] []) (mkChan [] 10))).1.1
           ExporterTerms.testExporter).
  - left. reflexivity.
  - vm_compute. reflexivity.
Defined.

Lemma MemoryCollect_not_negative_witness :
  ((MemoryCollect (inr (mkVM 512 1024))).2 = None <-> 1024 <> 0)
  /\ nonNegative (MemoryCollect (inr (mkVM 512 1024))).1 = true.
Proof.
  apply (MemoryCollect_not_negative (mkVM 512 1024)); unfold is_uint64; cbn [vmUsed vmTotal];
    lia.
Defined.

End CollectorsSpec.

(** ** The configuration *)

Module ConfigSpec.

Import GoStrings Config ConfigTerms Collectors.

Lemma list_ascii_of_string_app (a b : string) :
  list_ascii_of_string (a +:+ b) = list_ascii_of_string a ++ list_ascii_of_string b.
Proof.
  induction a as [| c a IH]; [reflexivity |].
  rewrite ExporterSpec.string_app_cons. cbn [list_ascii_of_string app]. f_equal. exact IH.
Qed.

Lemma list_ascii_of_string_inj (a b : string) :
  list_ascii_of_string a = list_ascii_of_string b -> a = b.
Proof.
  intros H. apply (f_equal string_of_list_ascii) in H.
  rewrite !string_of_list_ascii_of_string in H. exact H.
Qed.

(** *** Lists of names *)

Lemma Split_bytes_plain (s : list ascii) :
  forallb (fun c => negb (Ascii.eqb c ",")) s = true -> Split_bytes s "," = [s].
Proof.
  induction s as [| c s IH]; [reflexivity |]. cbn [forallb Split_bytes].
  intros H. apply andb_true_iff in H as [Hc Hs]. apply negb_true_iff in Hc.
  rewrite Hc, (IH Hs). reflexivity.
Qed.

Lemma Split_bytes_app (s rest : list ascii) :
  forallb (fun c => negb (Ascii.eqb c ",")) s = true ->
  Split_bytes (s ++ ","%char :: rest) "," = s :: Split_bytes rest ",".
Proof.
  induction s as [| c s IH]; [reflexivity |]. cbn [forallb app Split_bytes].
  intros H. apply andb_true_iff in H as [Hc Hs]. apply negb_true_iff in Hc.
  rewrite Hc, (IH Hs). reflexivity.
Qed.

Lemma plainName_bytes (name : string) :
  plainName name = true ->
  exists first final,
    head (list_ascii_of_string name) = Some first
    /\ last (list_ascii_of_string name) = Some final
    /\ plainByte first = true /\ plainByte final = true
    /\ forallb (fun c => negb (Ascii.eqb c ",")) (list_ascii_of_string name) = true.
Proof.
  unfold plainName.
  destruct (head (list_ascii_of_string name)) as [first |]; [| discriminate].
  destruct (last (list_ascii_of_string name)) as [final |]; [| discriminate].
  intros H. apply andb_true_iff in H as [H Hall]. apply andb_true_iff in H as [Hf Hl].
  exists first, final. repeat split; assumption.
Qed.

Lemma Split_concat (names : list string) :
  names <> [] -> Forall (fun name => plainName name = true) names ->
  Split (String.concat "," names) "," = names.
Proof.
  intros Hne Hplain. unfold Split.
  induction Hplain as [| name names Hname Hnames IH]; [contradiction |].
  apply plainName_bytes in Hname as (first & final & _ & _ & _ & _ & Hall).
  destruct names as [| next names].
  - cbn [String.concat]. rewrite (Split_bytes_plain _ Hall). cbn [fmap list_fmap].
    rewrite string_of_list_ascii_of_string. reflexivity.
  - change (String.concat "," (name :: next :: names))
      with (name +:+ String "," (String.concat "," (next :: names))).
    rewrite list_ascii_of_string_app.
    change (list_ascii_of_string (String "," (String.concat "," (next :: names))))
      with (","%char :: list_ascii_of_string (String.concat "," (next :: names))).
    rewrite (Split_bytes_app _ _ Hall). cbn [fmap list_fmap].
    rewrite string_of_list_ascii_of_string. f_equal. apply IH. discriminate.
Qed.

Section Lists.

Variable TrimFunc_IsSpace : list ascii -> list ascii.
Variable TrimRightFunc_IsSpace : list ascii -> list ascii.

Local Abbreviation TrimSpace := (TrimSpace TrimFunc_IsSpace TrimRightFunc_IsSpace).
Local Abbreviation parseCommaSeparated :=
  (parseCommaSeparated TrimFunc_IsSpace TrimRightFunc_IsSpace).

Lemma skipSpaces_plain (s : list ascii) (first : ascii) :
  head s = Some first -> plainByte first = true -> skipSpaces s = (false, s).
Proof.
  destruct s as [| c s]; [discriminate |]. intros [= ->] Hplain.
  unfold plainByte in Hplain. apply andb_true_iff in Hplain as [Hascii Hspace].
  apply Z.ltb_lt in Hascii. apply negb_true_iff in Hspace.
  cbn [skipSpaces]. destruct (Z.leb_spec RuneSelf (byte first)) as [Hge | _]; [lia |].
  rewrite Hspace. reflexivity.
Qed.

Lemma TrimSpace_plain (name : string) : plainName name = true -> TrimSpace name = name.
Proof.
  intros Hname. apply plainName_bytes in Hname as (first & final & Hf & Hl & Hpf & Hpl & _).
  unfold GoStrings.TrimSpace, TrimSpace_bytes.
  rewrite (skipSpaces_plain _ first Hf Hpf).
  rewrite (skipSpaces_plain (reverse (list_ascii_of_string name)) final);
    [| rewrite head_reverse; exact Hl | exact Hpl].
  rewrite reverse_involutive. apply string_of_list_ascii_of_string.
Qed.

Lemma plainName_nonempty (name : string) : plainName name = true -> name <> "".
Proof. intros H ->. discriminate. Qed.

Lemma keep_plain (names result : list string) :
  Forall (fun name => plainName name = true) names ->
  foldl (fun result part =>
           let trimmed := TrimSpace part in
           if negb (String.eqb trimmed "") then result ++ [trimmed] else result)
        result names
  = result ++ names.
Proof.
  intros Hplain. revert result.
  induction Hplain as [| name names Hname Hnames IH]; intros result; cbn [foldl].
  - symmetry. apply app_nil_r.
  - cbv zeta. rewrite (TrimSpace_plain name Hname).
    destruct (String.eqb_spec name "") as [Hempty | _];
      [exfalso; exact (plainName_nonempty name Hname Hempty) |].
    cbn [negb]. rewrite IH, <- app_assoc. reflexivity.
Qed.

(** X26: parseCommaSeparated gives back a list of names that was joined
    with commas, when each name has no comma and begins and ends with an
    ASCII character other than a space; the empty list comes back from the
    empty string. *)
Theorem parseCommaSeparated_round_trip (names : list string) :
  Forall (fun name => plainName name = true) names ->
  parseCommaSeparated (String.concat "," names) = names.
Proof.
  intros Hplain. unfold Config.parseCommaSeparated.
  destruct names as [| name names]; [reflexivity |].
  assert (Hne : String.concat "," (name :: names) <> "").
  { pose proof (plainName_nonempty name (Forall_inv Hplain)) as Hname.
    destruct names as [| next names]; [exact Hname |].
    change (String.concat "," (name :: next :: names))
      with (name +:+ String "," (String.concat "," (next :: names))).
    destruct name; [contradiction | discriminate]. }
  destruct (String.eqb_spec (String.concat "," (name :: names)) "") as [Heq | _];
    [contradiction |].
  cbv zeta. rewrite Split_concat by (discriminate || assumption).
  apply (keep_plain (name :: names) [] Hplain).
Qed.

Lemma asciiSpace_ascii (c : ascii) : asciiSpace c = true -> byte c < RuneSelf.
Proof.
  intros H. destruct c as [[] [] [] [] [] [] [] []]; vm_compute in H;
    try discriminate; reflexivity.
Qed.

Lemma skipSpaces_spaces (s : list ascii) :
  Forall (fun c => asciiSpace c = true) s -> skipSpaces s = (false, []).
Proof.
  induction 1 as [| c s Hc Hs IH]; [reflexivity |]. cbn [skipSpaces].
  pose proof (asciiSpace_ascii c Hc) as Hascii.
  destruct (Z.leb_spec RuneSelf (byte c)) as [Hge | _]; [lia |].
  rewrite Hc. exact IH.
Qed.

Lemma TrimSpace_spaces (s : list ascii) :
  Forall (fun c => asciiSpace c = true) s ->
  TrimSpace (string_of_list_ascii s) = "".
Proof.
  intros Hs. unfold GoStrings.TrimSpace, TrimSpace_bytes.
  rewrite list_ascii_of_string_of_list_ascii, (skipSpaces_spaces s Hs). reflexivity.
Qed.

Lemma Split_bytes_blank (s : list ascii) :
  Forall (fun c => blankByte c = true) s ->
  Forall (Forall (fun c => asciiSpace c = true)) (Split_bytes s ",").
Proof.
  induction 1 as [| c s Hc Hs IH]; cbn [Split_bytes].
  - repeat constructor.
  - unfold blankByte in Hc. destruct (Ascii.eqb c ",") eqn:Hcomma.
    + constructor; [constructor | exact IH].
    + cbn [orb] in Hc. destruct (Split_bytes s ",") as [| part parts].
      * repeat constructor. exact Hc.
      * apply Forall_cons in IH as [Hpart Hparts].
        constructor; [constructor; assumption | assumption].
Qed.

Lemma keep_blank (parts : list (list ascii)) (result : list string) :
  Forall (Forall (fun c => asciiSpace c = true)) parts ->
  foldl (fun result part =>
           let trimmed := TrimSpace part in
           if negb (String.eqb trimmed "") then result ++ [trimmed] else result)
        result (string_of_list_ascii <$> parts)
  = result.
Proof.
  induction 1 as [| part parts Hpart Hparts IH]; [reflexivity |].
  cbn [fmap list_fmap foldl]. cbv zeta. rewrite (TrimSpace_spaces part Hpart).
  cbn [String.eqb negb]. exact IH.
Qed.

(** X27: a filter flag made of commas and ASCII spaces only parses to the
    empty list, so that a disk collector with such an include list and no
    exclude list monitors every device. *)
Theorem blank_filter_monitors_everything (s : string) (device : string) :
  Forall (fun c => blankByte c = true) (list_ascii_of_string s) ->
  parseCommaSeparated s = []
  /\ shouldMonitor (includeDevices (NewDiskCollector (parseCommaSeparated s) []))
                   (excludeDevices (NewDiskCollector (parseCommaSeparated s) []))
                   device = true.
Proof.
  intros Hblank.
  assert (Hparse : parseCommaSeparated s = []).
  { unfold Config.parseCommaSeparated. destruct (String.eqb s ""); [reflexivity |].
    cbv zeta. unfold Split. apply keep_blank, Split_bytes_blank, Hblank. }
  split; [exact Hparse |]. rewrite Hparse. reflexivity.
Qed.

End Lists.

(** *** The output directory *)

Lemma beforeLastSeparator_none (s : list ascii) :
  Forall (fun c => isSeparator c = false) s -> beforeLastSeparator s = None.
Proof.
  induction 1 as [| c s Hc Hs IH]; [reflexivity |]. cbn [beforeLastSeparator].
  rewrite Hc. exact IH.
Qed.

Lemma beforeLastSeparator_app (file : list ascii) (sep : ascii) (dir : list ascii) :
  Forall (fun c => isSeparator c = false) file -> isSeparator sep = true ->
  beforeLastSeparator (file ++ sep :: dir) = Some dir.
Proof.
  intros Hfile Hsep. induction Hfile as [| c s Hc Hs IH]; cbn [app beforeLastSeparator].
  - rewrite Hsep. reflexivity.
  - rewrite Hc. exact IH.
Qed.

Lemma beforeLastSeparator_Some (s dir : list ascii) :
  beforeLastSeparator s = Some dir ->
  exists file sep,
    s = file ++ sep :: dir /\ isSeparator sep = true
    /\ Forall (fun c => isSeparator c = false) file.
Proof.
  induction s as [| c s IH]; [discriminate |]. cbn [beforeLastSeparator].
  destruct (isSeparator c) eqn:Hc.
  - intros [= ->]. exists [], c. repeat split; [assumption | constructor].
  - intros H. destruct (IH H) as (file & sep & -> & Hsep & Hfile).
    exists (c :: file), sep. repeat split; [assumption |]. constructor; assumption.
Qed.

Lemma beforeLastSeparator_None (s : list ascii) :
  beforeLastSeparator s = None -> Forall (fun c => isSeparator c = false) s.
Proof.
  induction s as [| c s IH]; [constructor |]. cbn [beforeLastSeparator].
  destruct (isSeparator c) eqn:Hc; [discriminate |]. intros H. constructor; auto.
Qed.

Lemma outputDir_parent (c : Config) : parentOf (OutputPath c) (outputDir c).
Proof.
  unfold outputDir, parentOf.
  destruct (beforeLastSeparator (reverse (list_ascii_of_string (OutputPath c))))
    as [rest |] eqn:Hcut.
  - apply beforeLastSeparator_Some in Hcut as (file & sep & Hrev & Hsep & Hfile).
    apply (f_equal reverse) in Hrev.
    rewrite reverse_involutive, reverse_app, reverse_cons, <- app_assoc in Hrev.
    cbn [app] in Hrev.
    assert (Hpath : OutputPath c
                    = string_of_list_ascii (reverse rest)
                      +:+ String sep (string_of_list_ascii (reverse file))).
    { rewrite <- (string_of_list_ascii_of_string (OutputPath c)), Hrev.
      apply list_ascii_of_string_inj.
      rewrite list_ascii_of_string_of_list_ascii, list_ascii_of_string_app.
      cbn [list_ascii_of_string]. rewrite !list_ascii_of_string_of_list_ascii.
      reflexivity. }
    destruct (String.eqb_spec (string_of_list_ascii (reverse rest)) (OutputPath c))
      as [Heq | _].
    + exfalso. apply (f_equal String.length) in Hpath.
      rewrite <- Heq, ExporterSpec.string_length_app in Hpath. cbn [String.length] in Hpath. lia.
    + right. exists sep, (string_of_list_ascii (reverse file)).
      split; [exact Hsep |]. split; [| exact Hpath].
      unfold noSeparator. rewrite list_ascii_of_string_of_list_ascii.
      apply Forall_reverse. exact Hfile.
  - rewrite String.eqb_refl. left. split; [| reflexivity].
    apply beforeLastSeparator_None in Hcut. unfold noSeparator.
    apply Forall_reverse in Hcut. rewrite reverse_involutive in Hcut. exact Hcut.
Qed.

Lemma parentOf_unique (c : Config) (dir : string) :
  parentOf (OutputPath c) dir -> outputDir c = dir.
Proof.
  unfold parentOf, outputDir, noSeparator.
  intros [[Hnone ->] | (sep & file & Hsep & Hfile & Hpath)].
  - rewrite beforeLastSeparator_none by (apply Forall_reverse; exact Hnone).
    rewrite String.eqb_refl. reflexivity.
  - assert (Hcut : beforeLastSeparator (reverse (list_ascii_of_string (OutputPath c)))
                   = Some (reverse (list_ascii_of_string dir))).
    { rewrite Hpath, list_ascii_of_string_app. cbn [list_ascii_of_string].
      rewrite reverse_app, reverse_cons, <- app_assoc. cbn [app].
      apply beforeLastSeparator_app; [apply Forall_reverse; exact Hfile | exact Hsep]. }
    rewrite Hcut, reverse_involutive, string_of_list_ascii_of_string.
    destruct (String.eqb_spec dir (OutputPath c)) as [Heq | _]; [| reflexivity].
    exfalso. apply (f_equal String.length) in Hpath.
    rewrite <- Heq, ExporterSpec.string_length_app in Hpath.
    cbn [String.length] in Hpath. lia.
Qed.

Lemma validLogLevels_spec (level : string) :
  default false (validLogLevels !! level) = true
  <-> level ∈ ["debug"; "info"; "warn"; "error"].
Proof.
  unfold validLogLevels. rewrite !elem_of_cons, elem_of_nil.
  destruct (decide (level = "debug")) as [-> | H1]; [split; [tauto | reflexivity] |].
  rewrite lookup_insert_ne by congruence.
  destruct (decide (level = "info")) as [-> | H2]; [split; [tauto | reflexivity] |].
  rewrite lookup_insert_ne by congruence.
  destruct (decide (level = "warn")) as [-> | H3]; [split; [tauto | reflexivity] |].
  rewrite lookup_insert_ne by congruence.
  destruct (decide (level = "error")) as [-> | H4]; [split; [tauto | reflexivity] |].
  rewrite lookup_singleton_ne by congruence. cbn. split; [discriminate | tauto].
Qed.

Section Validation.

Variable Stat : string -> statResult.
Variable LoadLocation : string -> option string.

Local Abbreviation Validate := (Validate Stat LoadLocation).
Local Abbreviation ensureOutputDir := (ensureOutputDir Stat).

Lemma ensureOutputDir_accepts (c : Config) :
  ensureOutputDir c = None <-> Stat (outputDir c) = StatInfo true.
Proof.
  unfold Config.ensureOutputDir.
  destruct (Stat (outputDir c)) as [[] msg | []]; cbn [negb];
    split; congruence.
Qed.

Lemma Validate_checks (c : Config) :
  Validate c = None <-> wellFormed LoadLocation c /\ ensureOutputDir c = None.
Proof.
  unfold Config.Validate, wellFormed.
  destruct (Z.ltb_spec (SamplingInterval c) (1 * Second)) as [H1 | H1];
    [split; [discriminate | lia] |].
  destruct (Z.ltb_spec (1 * Hour) (SamplingInterval c)) as [H2 | H2];
    [split; [discriminate | lia] |].
  destruct (String.eqb_spec (OutputPath c) "") as [H3 | H3];
    [split; [discriminate | tauto] |].
  destruct (Z.ltb_spec (BufferSize c) 1) as [H4 | H4]; [split; [discriminate | lia] |].
  destruct (Z.ltb_spec (FlushInterval c) (1 * Second)) as [H5 | H5];
    [split; [discriminate | lia] |].
  pose proof (validLogLevels_spec (LogLevel c)) as Hlevel.
  destruct (default false (validLogLevels !! LogLevel c)); cbn [negb].
  2: { split; [discriminate |]. intros [(_ & _ & _ & _ & Hl & _) _].
       apply Hlevel in Hl. discriminate. }
  assert (Hl : LogLevel c ∈ ["debug"; "info"; "warn"; "error"]) by (apply Hlevel; reflexivity).
  assert (Hrest : forall zone : Timezone c = "" \/ LoadLocation (Timezone c) = None,
             match Config.ensureOutputDir Stat c with
             | Some err => Some ("output directory check failed: " +:+ err)
             | None => None
             end = None
             <-> (1 * Second <= SamplingInterval c <= 1 * Hour
                  /\ OutputPath c <> "" /\ 1 <= BufferSize c
                  /\ 1 * Second <= FlushInterval c
                  /\ LogLevel c ∈ ["debug"; "info"; "warn"; "error"]
                  /\ (Timezone c = "" \/ LoadLocation (Timezone c) = None))
                 /\ Config.ensureOutputDir Stat c = None).
  { intros zone. destruct (Config.ensureOutputDir Stat c).
    - split; [discriminate | intros [_ H]; discriminate].
    - split; [| reflexivity]. intros _. split; [| reflexivity].
      repeat split; try assumption; lia. }
  destruct (String.eqb_spec (Timezone c) "") as [H6 | H6]; cbn [negb].
  - apply Hrest. left. exact H6.
  - destruct (LoadLocation (Timezone c)) eqn:Hzone.
    + split; [discriminate |]. intros [(_ & _ & _ & _ & _ & [Hz | Hz]) _]; congruence.
    + apply Hrest. right. reflexivity.
Qed.

(** X28: Validate accepts a configuration exactly when the sampling
    interval is between one second and one hour, the output path is not
    empty, the buffer size is at least 1, the flush interval at least one
    second, the log level one of debug, info, warn and error, the time zone
    empty or known, and Stat finds a directory at what is in front of the
    last slash or backslash of the output path (at "." when the path has
    neither). *)
Theorem Validate_accepts (c : Config) :
  Validate c = None
  <-> wellFormed LoadLocation c
      /\ exists dir, parentOf (OutputPath c) dir /\ Stat dir = StatInfo true.
Proof.
  rewrite Validate_checks, ensureOutputDir_accepts. split.
  - intros [Hwf Hstat]. split; [exact Hwf |]. exists (outputDir c).
    split; [apply outputDir_parent | exact Hstat].
  - intros [Hwf (dir & Hparent & Hstat)]. split; [exact Hwf |].
    rewrite (parentOf_unique c dir Hparent). exact Hstat.
Qed.

(** X29: for an output file directly under the root, as in /name.csv, the
    directory looked at is the empty path and not the root: when Stat
    finds nothing at the empty path, as os.Stat does, Validate refuses an
    otherwise well-formed configuration with the error that the output
    directory does not exist. *)
Theorem Validate_refuses_file_under_root (c : Config) (file msg : string) :
  wellFormed LoadLocation c -> noSeparator file -> OutputPath c = String "/" file ->
  Stat "" = StatError true msg ->
  Validate c
  = Some "output directory check failed: output directory does not exist: ".
Proof.
  intros Hwf Hfile Hpath Hstat.
  assert (Hdir : outputDir c = "").
  { apply parentOf_unique. right. exists "/"%char, file.
    split; [reflexivity |]. split; [exact Hfile | exact Hpath]. }
  destruct Hwf as (H1 & H3 & H4 & H5 & Hl & Hz).
  unfold Config.Validate.
  destruct (Z.ltb_spec (SamplingInterval c) (1 * Second)) as [K | _]; [lia |].
  destruct (Z.ltb_spec (1 * Hour) (SamplingInterval c)) as [K | _]; [lia |].
  destruct (String.eqb_spec (OutputPath c) "") as [K | _]; [contradiction |].
  destruct (Z.ltb_spec (BufferSize c) 1) as [K | _]; [lia |].
  destruct (Z.ltb_spec (FlushInterval c) (1 * Second)) as [K | _]; [lia |].
  apply validLogLevels_spec in Hl. rewrite Hl. cbn [negb].
  assert (Hzone : (if negb (String.eqb (Timezone c) "") then LoadLocation (Timezone c)
                   else None) = None).
  { destruct Hz as [-> | Hz]; [reflexivity |]. rewrite Hz.
    destruct (negb _); reflexivity. }
  rewrite Hzone. unfold Config.ensureOutputDir. rewrite Hdir, Hstat. reflexivity.
Qed.

End Validation.

Lemma parseCommaSeparated_round_trip_witness :
  parseCommaSeparated (fun s => s) (fun s => s) "sda,/dev/nvme0n1,Local Disk C:"
  = ["sda"; "/dev/nvme0n1"; "Local Disk C:"].
Proof.
  apply (parseCommaSeparated_round_trip (fun s => s) (fun s => s)
           ["sda"; "/dev/nvme0n1"; "Local Disk C:"]).
  repeat constructor.
Defined.

Lemma blank_filter_monitors_everything_witness :
  parseCommaSeparated (fun s => s) (fun s => s) " , ,," = []
  /\ shouldMonitor
       (includeDevices (NewDiskCollector (parseCommaSeparated (fun s => s) (fun s => s) " , ,,")
                                         []))
       (excludeDevices (NewDiskCollector (parseCommaSeparated (fun s => s) (fun s => s) " , ,,")
                                         []))
       "sda" = true.
Proof.
  apply (blank_filter_monitors_everything (fun s => s) (fun s => s) " , ,," "sda").
  repeat constructor.
Defined.

Lemma Validate_refuses_file_under_root_witness :
  Validate testStat (fun _ => None) (testConfig "/metrics.csv")
  = Some "output directory check failed: output directory does not exist: ".
Proof.
  apply (Validate_refuses_file_under_root testStat (fun _ => None)
           (testConfig "/metrics.csv") "metrics.csv"
           "stat : no such file or directory").
  - unfold wellFormed, testConfig, Second, Hour.
    cbn [SamplingInterval OutputPath BufferSize FlushInterval LogLevel Timezone].
    repeat split; try lia; try discriminate.
    + right. left.
    + left. reflexivity.
  - repeat constructor.
  - reflexivity.
  - reflexivity.
Defined.

End ConfigSpec.
